(** * GO-CLI task manager: a shallow embedding of [main.go]

    The program is a terminal task tracker.  Its whole state is the global
    slice [TasksSlice] and the file [Tasks.json]; its control flow is a set
    of loops that block on [reader.ReadString].  The embedding below keeps
    that shape:

    - Go's [string] is a [string] of bytes; Go's [int] is [Z], the only
      arithmetic on it being [len(TasksSlice) + 1], which stays far below
      the 64 bits of an [int], and [strconv.Atoi] and the decoder of JSON
      check that range where they read a number;
    - the functions of the Go standard library that [main.go] calls
      ([strings.TrimSpace], [strings.ToUpper], [strconv.Atoi], [time.Parse],
      [Time.Format], [json.MarshalIndent], [json.Unmarshal], [os.ReadFile],
      [os.WriteFile]) are modelled under the names [strings_TrimSpace], ...;
      [strings.TrimSpace] takes off the white space of Unicode,
      [strings.ToUpper] is modelled on ASCII text, and a call of
      [os.WriteFile] succeeds, fails to open the file, or fails after it
      has emptied it;
    - every function of [main.go] is a computation in a small state and
      output monad over the global slice and the disk;
    - the program as a whole is a machine that takes one line of input per
      step: a control point is a [ReadString] call of the source. *)

From Stdlib Require Import ZArith List String Ascii Bool Lia.
From Stdlib Require Import DecimalString.
From Stdlib Require DecimalN DecimalPos DecimalFacts.
Import ListNotations.

Local Open Scope string_scope.
Local Open Scope Z_scope.

(** ** Characters and strings as Go sees them *)

Definition byte_of (c : ascii) : Z := Z.of_N (N_of_ascii c).
Definition char_of (z : Z) : ascii := ascii_of_N (Z.to_N z).

Definition nl : string := String "010"%char "".
Definition esc : string := String "027"%char "".

Definition isDigit (c : ascii) : bool :=
  (48 <=? byte_of c) && (byte_of c <=? 57).

Definition digitVal (c : ascii) : Z := byte_of c - 48.

(** [len(s)] *)
Definition len_string (s : string) : Z := Z.of_nat (String.length s).

(** [s[n:]] for [0 <= n <= len(s)] *)
Fixpoint drop (n : nat) (s : string) : string :=
  match n, s with
  | O, _ => s
  | S n', String _ r => drop n' r
  | S _, EmptyString => EmptyString
  end.

(** [s[:n]] for [0 <= n <= len(s)] *)
Fixpoint take (n : nat) (s : string) : string :=
  match n, s with
  | O, _ => EmptyString
  | S n', String c r => String c (take n' r)
  | S _, EmptyString => EmptyString
  end.

(** ** package strings *)

(** The white space of ASCII, [asciiSpace] of package strings: tab, line
    feed, vertical tab, form feed, carriage return and space. *)
Definition isSpace (c : ascii) : bool :=
  match byte_of c with
  | 9 | 10 | 11 | 12 | 13 | 32 => true
  | _ => false
  end.

Definition isByte (k : Z) (c : ascii) : bool := byte_of c =? k.

Definition inRange (lo hi : Z) (c : ascii) : bool :=
  (lo <=? byte_of c) && (byte_of c <=? hi).

(** The white space beyond ASCII, [unicode.IsSpace]: U+0085 and U+00A0,
    written in UTF-8 as the two bytes C2 85 and C2 A0, ... *)
Definition isSpace2 (c0 c1 : ascii) : bool :=
  isByte 194 c0 && (isByte 133 c1 || isByte 160 c1).

(** ... and U+1680 (E1 9A 80), U+2000 .. U+200A (E2 80 80 .. E2 80 8A),
    U+2028, U+2029 and U+202F (E2 80 A8, E2 80 A9, E2 80 AF), U+205F
    (E2 81 9F) and U+3000 (E3 80 80), of three bytes each.  A rune is
    decoded from its well-formed encoding only, and these are well formed:
    the text starts or ends with a white-space rune exactly when it starts
    or ends with one of these byte sequences or a white-space byte of
    ASCII. *)
Definition isSpace3 (c0 c1 c2 : ascii) : bool :=
  (isByte 225 c0 && isByte 154 c1 && isByte 128 c2)
  || (isByte 226 c0 && isByte 128 c1
      && (inRange 128 138 c2 || isByte 168 c2 || isByte 169 c2 || isByte 175 c2))
  || (isByte 226 c0 && isByte 129 c1 && isByte 159 c2)
  || (isByte 227 c0 && isByte 128 c1 && isByte 128 c2).

(** The number of bytes of the white-space rune that [s] starts with, [0]
    when it starts with another rune, with a byte that starts no rune, or
    is empty. *)
Definition leadingSpace (s : string) : nat :=
  match s with
  | String c0 r0 =>
      if isSpace c0 then 1%nat
      else
        match r0 with
        | String c1 r1 =>
            if isSpace2 c0 c1 then 2%nat
            else
              match r1 with
              | String c2 _ => if isSpace3 c0 c1 c2 then 3%nat else O
              | EmptyString => O
              end
        | EmptyString => O
        end
  | EmptyString => O
  end.

(** The same for the end of a text, on its bytes from the last one back:
    the number of bytes of the white-space rune that the text ends with.
    [DecodeLastRuneInString] goes back from the last byte to the nearest
    byte that starts a rune and decodes from there; in the sequences above
    only the first byte starts a rune, so the last rune is one of these
    exactly when the text ends with its bytes. *)
Definition trailingSpace (reversed : string) : nat :=
  match reversed with
  | String c0 r0 =>
      if isSpace c0 then 1%nat
      else
        match r0 with
        | String c1 r1 =>
            if isSpace2 c1 c0 then 2%nat
            else
              match r1 with
              | String c2 _ => if isSpace3 c2 c1 c0 then 3%nat else O
              | EmptyString => O
              end
        | EmptyString => O
        end
  | EmptyString => O
  end.

(** The loop of [TrimLeftFunc] and, from the end, of [TrimRightFunc]: runes
    are taken off while [width] finds one.  [fuel] bounds the passes; a
    pass takes off a byte at least, so the length of the text is enough. *)
Fixpoint trim_loop (width : string -> nat) (fuel : nat) (s : string) : string :=
  match fuel with
  | O => s
  | S fuel' =>
      match width s with
      | O => s
      | n => trim_loop width fuel' (drop n s)
      end
  end.

Fixpoint reverse_onto (s acc : string) : string :=
  match s with
  | EmptyString => acc
  | String c r => reverse_onto r (String c acc)
  end.

(** The bytes of [s] from the last one back. *)
Definition reverse (s : string) : string := reverse_onto s "".

Definition trim (width : string -> nat) (s : string) : string :=
  trim_loop width (String.length s) s.

Definition trimLeft (s : string) : string := trim leadingSpace s.

Definition trimRight (s : string) : string :=
  reverse (trim trailingSpace (reverse s)).

(** [strings.TrimSpace]: the text without the white-space runes at its
    start and at its end. *)
Definition strings_TrimSpace (s : string) : string := trimRight (trimLeft s).

Definition isLower (c : ascii) : bool :=
  (97 <=? byte_of c) && (byte_of c <=? 122).

Definition upperByte (c : ascii) : ascii :=
  if isLower c then char_of (byte_of c - 32) else c.

(** [strings.ToUpper] as it is on ASCII text: ['a'..'z'] go to ['A'..'Z'].
    On other text Go maps the letters beyond ASCII by the tables of package
    unicode, which are not modelled: bytes from 128 on are kept here, and
    the properties below that say what a stored field is say it of ASCII
    lines.  No rune beyond ASCII has one of the letters A, D, N, Q, V, Y as
    its upper case, so whether the result is a command of the program
    does not depend on the tables. *)
Fixpoint strings_ToUpper (s : string) : string :=
  match s with
  | EmptyString => EmptyString
  | String c r => String (upperByte c) (strings_ToUpper r)
  end.

(** ** package strconv *)

Definition MaxInt64 : Z := 9223372036854775807.
Definition MinInt64 : Z := -9223372036854775808.

(** The value of a string of decimal digits; [None] when the string is
    empty or holds another byte. *)
Fixpoint digits_acc (acc : Z) (s : string) : option Z :=
  match s with
  | EmptyString => Some acc
  | String c r =>
      if isDigit c then digits_acc (acc * 10 + digitVal c) r else None
  end.

Definition parseDigits (s : string) : option Z :=
  match s with
  | EmptyString => None
  | _ => digits_acc 0 s
  end.

(** [strconv.Atoi]: an optional sign, then at least one decimal digit and
    nothing else; a value outside the 64-bit [int] is a range error. *)
Definition strconv_Atoi (s : string) : option Z :=
  let '(neg, body) :=
    match s with
    | String "-"%char r => (true, r)
    | String "+"%char r => (false, r)
    | _ => (false, s)
    end in
  match parseDigits body with
  | None => None
  | Some n =>
      let v := if neg then - n else n in
      if (MinInt64 <=? v) && (v <=? MaxInt64) then Some v else None
  end.

(** [strconv.Itoa], which is also what [%d] and [%v] print for an [int]. *)
Definition strconv_Itoa (z : Z) : string :=
  NilZero.string_of_int (Z.to_int z).

(** ** package time *)

(** A [time.Time] by its calendar fields in its own location, and the
    offset of that location east of UTC in seconds.  The monotonic clock
    reading that [time.Now] attaches is not part of the model. *)
Record Time : Type := mkTime {
  year : Z;
  month : Z;          (* 1 .. 12 *)
  day : Z;
  hour : Z;
  minute : Z;
  second : Z;
  nanosecond : Z;
  zoneOffset : Z      (* seconds east of UTC *)
}.

Definition shortMonthNames : list string :=
  ["Jan"; "Feb"; "Mar"; "Apr"; "May"; "Jun";
   "Jul"; "Aug"; "Sep"; "Oct"; "Nov"; "Dec"].

Definition isLeap (y : Z) : bool :=
  (y mod 4 =? 0) && (negb (y mod 100 =? 0) || (y mod 400 =? 0)).

Definition daysIn (m y : Z) : Z :=
  match m with
  | 2 => if isLeap y then 29 else 28
  | 4 | 6 | 9 | 11 => 30
  | _ => 31
  end.

(** [match] of package time: equality of two strings of the same length,
    ignoring the case of ASCII letters. *)
Definition foldEq (c1 c2 : ascii) : bool :=
  if Ascii.eqb c1 c2 then true
  else
    let l1 := Z.lor (byte_of c1) 32 in
    let l2 := Z.lor (byte_of c2) 32 in
    (l1 =? l2) && (97 <=? l1) && (l1 <=? 122).

Fixpoint time_match (s1 s2 : string) : bool :=
  match s1, s2 with
  | EmptyString, EmptyString => true
  | String c1 r1, String c2 r2 => foldEq c1 c2 && time_match r1 r2
  | _, _ => false
  end.

(** [lookup(tab, val)]: the index of the first name of [tab] that starts
    [val], and the rest of [val]. *)
Fixpoint lookup_from (i : Z) (tab : list string) (val : string)
  : option (Z * string) :=
  match tab with
  | [] => None
  | v :: tab' =>
      if (String.length v <=? String.length val)%nat
         && time_match (take (String.length v) val) v
      then Some (i, drop (String.length v) val)
      else lookup_from (i + 1) tab' val
  end.

Definition lookup (tab : list string) (val : string) : option (Z * string) :=
  lookup_from 0 tab val.

Fixpoint cutspace (s : string) : string :=
  match s with
  | String " "%char r => cutspace r
  | _ => s
  end.

(** [skip(value, prefix)]: the literal text of a layout.  A space of the
    layout stands for any run of spaces of the value, the other bytes for
    themselves.  [fuel] bounds the passes of the loop; each pass shortens
    [prefix] and [String.length prefix] passes are enough. *)
Fixpoint skip_loop (fuel : nat) (value prefix : string) : option string :=
  match prefix with
  | EmptyString => Some value
  | String p prefix' =>
      match fuel with
      | O => None
      | S fuel' =>
          if Ascii.eqb p " "%char then
            match value with
            | String v _ =>
                if Ascii.eqb v " "%char
                then skip_loop fuel' (cutspace value) (cutspace prefix)
                else None
            | EmptyString =>
                skip_loop fuel' (cutspace value) (cutspace prefix)
            end
          else
            match value with
            | String v value' =>
                if Ascii.eqb v p then skip_loop fuel' value' prefix' else None
            | EmptyString => None
            end
      end
  end.

Definition skip (value prefix : string) : option string :=
  skip_loop (String.length prefix) value prefix.

(** [getnum(s, fixed)] with [fixed = true]: exactly two digits. *)
Definition getnum_fixed (s : string) : option (Z * string) :=
  match s with
  | String c0 (String c1 r) =>
      if isDigit c0 && isDigit c1
      then Some (digitVal c0 * 10 + digitVal c1, r)
      else None
  | _ => None
  end.

(** The [stdLongYear] case of [Parse]: four bytes, the first a digit, read
    by [atoi], which wants all four to be digits. *)
Definition getyear (s : string) : option (Z * string) :=
  match s with
  | String c0 (String c1 (String c2 (String c3 r))) =>
      if isDigit c0 then
        match parseDigits (String c0 (String c1 (String c2 (String c3 "")))) with
        | Some y => Some (y, r)
        | None => None
        end
      else None
  | _ => None
  end.

(** [time.Parse("Jan 02, 2006", value)].  The layout is the chunk sequence
    [stdMonth], [" "], [stdZeroDay], [", "], [stdLongYear]; the text after
    the year must be empty, the day is checked against the month at the
    end, and the result is midnight UTC of that day. *)
Definition time_Parse (value : string) : option Time :=
  match lookup shortMonthNames value with
  | None => None
  | Some (i, value) =>
      let month := i + 1 in
      match skip value " " with
      | None => None
      | Some value =>
          match getnum_fixed value with
          | None => None
          | Some (day, value) =>
              match skip value ", " with
              | None => None
              | Some value =>
                  match getyear value with
                  | None => None
                  | Some (year, value) =>
                      match value with
                      | EmptyString =>
                          if (day <? 1) || (daysIn month year <? day)
                          then None
                          else Some (mkTime year month day 0 0 0 0 0)
                      | _ => None
                      end
                  end
              end
          end
      end
  end.

(** [appendInt(b, x, width)] for [0 <= x]: decimal, padded with zeros on the
    left up to [width]. *)
Fixpoint zeros (n : nat) : string :=
  match n with
  | O => ""
  | S n' => String "0"%char (zeros n')
  end.

Definition pad (width : nat) (x : Z) : string :=
  let s := strconv_Itoa x in
  zeros (width - String.length s) ++ s.

Definition appendInt (width : nat) (x : Z) : string :=
  if x <? 0 then "-" ++ pad width (- x) else pad width x.

(** [t.Format("Jan 02, 2006")] *)
Definition time_Format (t : Time) : string :=
  nth (Z.to_nat (month t - 1)) shortMonthNames ""
  ++ " " ++ appendInt 2 (day t) ++ ", " ++ appendInt 4 (year t).

(** ** The task record of [main.go] *)

Record Task : Type := mkTask {
  ID : Z;
  Title : string;
  AssignedTo : string;
  Status : bool;
  DueDate : Time;
  TimeCreated : Time
}.

(** ** package unicode/utf8, as far as package json needs it *)

Definition isCont (c : ascii) : bool := inRange 128 191 c.

(** The size of the UTF-8 sequence that starts [s], which begins with a
    byte from 128 on; [O] when the bytes are not a well-formed sequence. *)
Definition runeSize (s : string) : nat :=
  match s with
  | String c0 r0 =>
      if inRange 194 223 c0 then
        match r0 with
        | String c1 _ => if isCont c1 then 2%nat else O
        | _ => O
        end
      else if inRange 224 239 c0 then
        match r0 with
        | String c1 (String c2 _) =>
            if (if byte_of c0 =? 224 then inRange 160 191 c1
                else if byte_of c0 =? 237 then inRange 128 159 c1
                else isCont c1) && isCont c2
            then 3%nat else O
        | _ => O
        end
      else if inRange 240 244 c0 then
        match r0 with
        | String c1 (String c2 (String c3 _)) =>
            if (if byte_of c0 =? 240 then inRange 144 191 c1
                else if byte_of c0 =? 244 then inRange 128 143 c1
                else isCont c1) && isCont c2 && isCont c3
            then 4%nat else O
        | _ => O
        end
      else O
  | EmptyString => O
  end.

(** [utf8.EncodeRune] *)
Definition utf8_EncodeRune (r : Z) : string :=
  if r <? 128 then String (char_of r) ""
  else if r <? 2048 then
    String (char_of (192 + r / 64)) (String (char_of (128 + r mod 64)) "")
  else if r <? 65536 then
    String (char_of (224 + r / 4096))
      (String (char_of (128 + (r / 64) mod 64))
         (String (char_of (128 + r mod 64)) ""))
  else
    String (char_of (240 + r / 262144))
      (String (char_of (128 + (r / 4096) mod 64))
         (String (char_of (128 + (r / 64) mod 64))
            (String (char_of (128 + r mod 64)) ""))).

Definition replacementChar : Z := 65533.

(** ** package encoding/json: what [json.MarshalIndent] writes *)

Definition hexDigit (n : Z) : ascii :=
  if n <? 10 then char_of (48 + n) else char_of (87 + n).

(** The bytes below 128 that the encoder copies as they are: everything
    from the space on, but the quote, the backslash and the three HTML
    characters. *)
Definition htmlSafe (c : ascii) : bool :=
  (32 <=? byte_of c)
  && negb (Ascii.eqb c "034"%char) && negb (Ascii.eqb c "\"%char)
  && negb (Ascii.eqb c "<"%char) && negb (Ascii.eqb c ">"%char)
  && negb (Ascii.eqb c "&"%char).

Definition escapeByte (c : ascii) : string :=
  if htmlSafe c then String c ""
  else
    match byte_of c with
    | 92 => "\\"
    | 34 => String "\"%char (String "034"%char "")
    | 8 => "\b"
    | 12 => "\f"
    | 10 => "\n"
    | 13 => "\r"
    | 9 => "\t"
    | b => "\u00" ++ String (hexDigit (b / 16)) (String (hexDigit (b mod 16)) "")
    end.

Definition isLineSep (s : string) : option ascii :=
  match s with
  | String c0 (String c1 (String c2 _)) =>
      if (byte_of c0 =? 226) && (byte_of c1 =? 128)
         && ((byte_of c2 =? 168) || (byte_of c2 =? 169))
      then Some (hexDigit (byte_of c2 - 160)) else None
  | _ => None
  end.

(** One pass of the loop of the encoder over the bytes of a string, at the
    byte [b] with [r] after it: what it writes, and the bytes that are
    left.  A byte below 128 is copied or escaped; a well-formed UTF-8
    sequence is copied, but U+2028 and U+2029 are written as escapes; any
    other byte becomes the escape of U+FFFD. *)
Definition appendString_pass (b : ascii) (r : string) : string * string :=
  let src := String b r in
  if byte_of b <? 128 then (escapeByte b, r)
  else
    match runeSize src with
    | O => ("\u" ++ "fffd", r)
    | n =>
        match isLineSep src with
        | Some h => ("\u202" ++ String h "", drop n src)
        | None => (take n src, drop n src)
        end
    end.

(** The loop; [fuel] bounds the passes, each of which consumes a byte. *)
Fixpoint appendString_loop (fuel : nat) (src : string) : string :=
  match fuel with
  | O => ""
  | S fuel' =>
      match src with
      | EmptyString => ""
      | String b r =>
          let '(out, src') := appendString_pass b r in
          out ++ appendString_loop fuel' src'
      end
  end.

Definition quote : string := String "034"%char "".

(** A field name in quotes and the colon after it. *)
Definition key (name : string) : string := quote ++ name ++ quote ++ ": ".

Definition appendString (src : string) : string :=
  quote ++ appendString_loop (String.length src) src ++ quote.

(** [appendNano] in its trimming form: a dot and nine digits without the
    zeros at the end; nothing for zero nanoseconds. *)
Fixpoint trimZeros (s : string) : string :=
  match s with
  | EmptyString => EmptyString
  | String c r =>
      match trimZeros r with
      | EmptyString => if Ascii.eqb c "0"%char then "" else String c ""
      | r' => String c r'
      end
  end.

Definition appendNano (ns : Z) : string :=
  if ns =? 0 then "" else "." ++ trimZeros (appendInt 9 ns).

(** The zone at the end of [appendFormatRFC3339]: [Z] for UTC, else the
    sign, the hours and the minutes of the offset. *)
Definition zoneText (offset : Z) : string :=
  if offset =? 0 then "Z"
  else
    let zone := Z.quot offset 60 in
    (if zone <? 0 then "-" else "+")
    ++ appendInt 2 (Z.abs zone / 60) ++ ":" ++ appendInt 2 (Z.abs zone mod 60).

(** [appendFormatRFC3339] with nanoseconds. *)
Definition appendFormatRFC3339 (t : Time) : string :=
  appendInt 4 (year t) ++ "-" ++ appendInt 2 (month t) ++ "-"
  ++ appendInt 2 (day t) ++ "T"
  ++ appendInt 2 (hour t) ++ ":" ++ appendInt 2 (minute t) ++ ":"
  ++ appendInt 2 (second t) ++ appendNano (nanosecond t)
  ++ zoneText (zoneOffset t).

(** [Time.MarshalJSON]: the RFC 3339 text in quotes; an error for a year
    outside [0, 9999] or a zone of 24 hours or more. *)
Definition time_MarshalJSON (t : Time) : option string :=
  if (year t <? 0) || (9999 <? year t) then None
  else if negb (zoneOffset t =? 0)
          && (24 <=? Z.abs (Z.quot (zoneOffset t) 60) / 60) then None
  else Some (quote ++ appendFormatRFC3339 t ++ quote).

Definition indent1 : string := "  ".
Definition indent2 : string := "    ".

Definition marshalBool (b : bool) : string := if b then "true" else "false".

(** One task: the six fields under their names, in the order of the
    struct, indented by two levels. *)
Definition marshalTask (t : Task) : option string :=
  match time_MarshalJSON (DueDate t), time_MarshalJSON (TimeCreated t) with
  | Some due, Some created =>
      Some ("{" ++ nl
            ++ indent2 ++ key "ID" ++ strconv_Itoa (ID t) ++ "," ++ nl
            ++ indent2 ++ key "Title" ++ appendString (Title t) ++ "," ++ nl
            ++ indent2 ++ key "AssignedTo" ++ appendString (AssignedTo t) ++ "," ++ nl
            ++ indent2 ++ key "Status" ++ marshalBool (Status t) ++ "," ++ nl
            ++ indent2 ++ key "DueDate" ++ due ++ "," ++ nl
            ++ indent2 ++ key "TimeCreated" ++ created ++ nl
            ++ indent1 ++ "}")
  | _, _ => None
  end.

(** What follows an element of the array: a comma when there are more,
    the line break before the closing bracket after the last. *)
Definition separator (ts : list Task) : string :=
  match ts with
  | [] => nl
  | _ => ","
  end.

Fixpoint marshalElems (ts : list Task) : option string :=
  match ts with
  | [] => Some ""
  | t :: ts' =>
      match marshalTask t, marshalElems ts' with
      | Some e, Some rest =>
          Some (nl ++ indent1 ++ e ++ separator ts' ++ rest)
      | _, _ => None
      end
  end.

(** [json.MarshalIndent(TasksSlice, "", "  ")].  The empty list is the
    empty slice [[]Task{}] that the program starts with and that a
    deletion of the last task leaves; a nil slice, which Go writes as
    [null], is not told apart from it. *)
Definition json_MarshalIndent (ts : list Task) : option string :=
  match ts with
  | [] => Some "[]"
  | _ =>
      match marshalElems ts with
      | Some body => Some ("[" ++ body ++ "]")
      | None => None
      end
  end.

(** ** package encoding/json: what [json.Unmarshal] reads

    The decoder below reads the JSON that holds a [[]Task]: an array of
    objects with the six fields under their names and in their order, with
    any white space between the tokens, strings with every escape of JSON,
    and times in RFC 3339.  On such a text it returns what Go decodes.
    [None] stands for every other text: one that Go refuses, or one of
    another shape (fields in another order, missing or unknown fields,
    [null]), for which what Go leaves in the slice is not modelled. *)

Declare Scope opt_scope.
Delimit Scope opt_scope with opt.
Notation "'do' x <- e ; k" :=
  (match e with Some x => k | None => None end)
  (at level 10, x pattern, e at level 100, k at level 200) : opt_scope.
Local Open Scope opt_scope.

Definition isJSONSpace (c : ascii) : bool :=
  match byte_of c with
  | 32 | 9 | 13 | 10 => true
  | _ => false
  end.

Fixpoint skipWS (s : string) : string :=
  match s with
  | String c r => if isJSONSpace c then skipWS r else s
  | EmptyString => EmptyString
  end.

(** [s] without the prefix [lit]. *)
Fixpoint stripPrefix (lit s : string) : option string :=
  match lit, s with
  | EmptyString, _ => Some s
  | String a lit', String b s' =>
      if Ascii.eqb a b then stripPrefix lit' s' else None
  | String _ _, EmptyString => None
  end.

(** The next token is [lit]. *)
Definition expect (lit s : string) : option string :=
  stripPrefix lit (skipWS s).

Definition hexVal (c : ascii) : option Z :=
  if isDigit c then Some (byte_of c - 48)
  else if inRange 97 102 c then Some (byte_of c - 87)
  else if inRange 65 70 c then Some (byte_of c - 55)
  else None.

(** [getu4]: the rune of [\uXXXX] at the start of [s], and the rest. *)
Definition getu4 (s : string) : option (Z * string) :=
  match s with
  | String "\"%char (String "u"%char
      (String h0 (String h1 (String h2 (String h3 r))))) =>
      do v0 <- hexVal h0 ;
      do v1 <- hexVal h1 ;
      do v2 <- hexVal h2 ;
      do v3 <- hexVal h3 ;
      Some (v0 * 4096 + v1 * 256 + v2 * 16 + v3, r)
  | _ => None
  end.

Definition isSurrogate (r : Z) : bool := (55296 <=? r) && (r <? 57344).

(** [utf16.DecodeRune] *)
Definition utf16_DecodeRune (r1 r2 : Z) : Z :=
  if (55296 <=? r1) && (r1 <? 56320) && (56320 <=? r2) && (r2 <? 57344)
  then (r1 - 55296) * 1024 + (r2 - 56320) + 65536
  else replacementChar.

Definition simpleEscape (c : ascii) : option ascii :=
  match byte_of c with
  | 34 => Some "034"%char
  | 92 => Some "\"%char
  | 47 => Some "/"%char
  | 98 => Some "008"%char
  | 102 => Some "012"%char
  | 110 => Some "010"%char
  | 114 => Some "013"%char
  | 116 => Some "009"%char
  | _ => None
  end.

(** What one pass of the loop of [unquote] finds at the start of the
    text: the closing quote, or bytes of the string, or an error. *)
Inductive Pass : Type :=
| Closed (rest : string)
| Chunk (bytes rest : string)
| Bad.

(** One pass over the text of a string literal: an escape, a byte below
    128, or a UTF-8 sequence.  Bytes that are not well-formed UTF-8 and
    surrogates without their pair become U+FFFD. *)
Definition unquote_pass (s : string) : Pass :=
  match s with
  | EmptyString => Bad
  | String c r =>
      if byte_of c =? 34 then Closed r
      else if byte_of c =? 92 then
        match r with
        | EmptyString => Bad
        | String e r' =>
            match simpleEscape e with
            | Some ch => Chunk (String ch "") r'
            | None =>
                if byte_of e =? 117 then
                  match getu4 s with
                  | None => Bad
                  | Some (rr, r2) =>
                      if isSurrogate rr then
                        match getu4 r2 with
                        | Some (rr1, r3) =>
                            if utf16_DecodeRune rr rr1 =? replacementChar
                            then Chunk (utf8_EncodeRune replacementChar) r2
                            else Chunk (utf8_EncodeRune (utf16_DecodeRune rr rr1)) r3
                        | None => Chunk (utf8_EncodeRune replacementChar) r2
                        end
                      else Chunk (utf8_EncodeRune rr) r2
                  end
                else Bad
            end
        end
      else if byte_of c <? 32 then Bad
      else if byte_of c <? 128 then Chunk (String c "") r
      else
        match runeSize s with
        | O => Chunk (utf8_EncodeRune replacementChar) r
        | n => Chunk (take n s) (drop n s)
        end
  end.

(** The text of a string literal after its opening quote: the bytes it
    stands for, and what follows its closing quote.  [fuel] bounds the
    passes; each consumes a byte. *)
Fixpoint unquote_loop (fuel : nat) (s : string) : option (string * string) :=
  match fuel with
  | O => None
  | S fuel' =>
      match unquote_pass s with
      | Closed rest => Some ("", rest)
      | Chunk bytes s' =>
          do (t, rest) <- unquote_loop fuel' s' ;
          Some (bytes ++ t, rest)
      | Bad => None
      end
  end.

(** A string literal. *)
Definition decodeString (s : string) : option (string * string) :=
  match s with
  | String c r =>
      if byte_of c =? 34 then unquote_loop (String.length r) r else None
  | EmptyString => None
  end.

(** The digits at the start of [s], and the rest. *)
Fixpoint spanDigits (s : string) : string * string :=
  match s with
  | String c r =>
      if isDigit c then
        let '(d, rest) := spanDigits r in (String c d, rest)
      else (EmptyString, s)
  | EmptyString => (EmptyString, EmptyString)
  end.

Fixpoint allDigits (s : string) : bool :=
  match s with
  | EmptyString => true
  | String c r => isDigit c && allDigits r
  end.

(** The digits of a JSON number: at least one, and no zero in front of
    another digit. *)
Definition canonicalDigits (s : string) : bool :=
  match s with
  | EmptyString => false
  | String c EmptyString => isDigit c
  | String c r => isDigit c && negb (Ascii.eqb c "0"%char) && allDigits r
  end.

(** The text after the digits is not a fraction or an exponent. *)
Definition endsNumber (s : string) : bool :=
  match s with
  | EmptyString => true
  | String c _ =>
      negb (isDigit c) && negb (Ascii.eqb c "."%char)
      && negb (Ascii.eqb c "e"%char) && negb (Ascii.eqb c "E"%char)
  end.

(** A number literal for an [int]: a minus sign or none, digits without a
    zero in front, no fraction and no exponent, a value of 64 bits. *)
Definition decodeInt (s : string) : option (Z * string) :=
  let '(neg, body) :=
    match s with
    | String c r => if Ascii.eqb c "-"%char then (true, r) else (false, s)
    | EmptyString => (false, s)
    end in
  let '(digits, rest) := spanDigits body in
  if canonicalDigits digits && endsNumber rest then
    do n <- parseDigits digits ;
    let v := if neg then - n else n in
    if (MinInt64 <=? v) && (v <=? MaxInt64) then Some (v, rest) else None
  else None.

Definition decodeBool (s : string) : option (bool * string) :=
  match stripPrefix "true" s with
  | Some rest => Some (true, rest)
  | None =>
      match stripPrefix "false" s with
      | Some rest => Some (false, rest)
      | None => None
      end
  end.

(** [parseUint] of [parseRFC3339]: [n] digits with a value between [lo]
    and [hi]. *)
Definition parseUint (n : nat) (lo hi : Z) (s : string) : option (Z * string) :=
  if (n <=? String.length s)%nat then
    do x <- parseDigits (take n s) ;
    if (lo <=? x) && (x <=? hi) then Some (x, drop n s) else None
  else None.

(** [parseNanoseconds]: of the digits after the dot the first nine count,
    scaled to nine places. *)
Definition parseNanoseconds (digits : string) : option Z :=
  let d := take 9 digits in
  do x <- parseDigits d ;
  Some (x * 10 ^ Z.of_nat (9 - String.length d)).

(** The fractional second of [parseRFC3339]: a dot and digits, or
    nothing. *)
Definition parseFraction (s : string) : option (Z * string) :=
  match s with
  | String d (String c r) =>
      if Ascii.eqb d "."%char && isDigit c then
        let '(digits, rest) := spanDigits (String c r) in
        do ns <- parseNanoseconds digits ;
        Some (ns, rest)
      else Some (0, s)
  | _ => Some (0, s)
  end.

(** The zone of [parseRFC3339], in seconds east of UTC: [Z], or a sign,
    two digits of hours, a colon and two digits of minutes. *)
Definition parseZone (s : string) : option Z :=
  match s with
  | String z EmptyString => if Ascii.eqb z "Z"%char then Some 0 else None
  | String sign (String h0 (String h1 (String colon
      (String m0 (String m1 EmptyString))))) =>
      do (hr, _) <- parseUint 2 0 23 (String h0 (String h1 "")) ;
      do (mm, _) <- parseUint 2 0 59 (String m0 (String m1 "")) ;
      if (Ascii.eqb sign "-"%char || Ascii.eqb sign "+"%char)
         && Ascii.eqb colon ":"%char
      then
        let zoneOffset := (hr * 60 + mm) * 60 in
        Some (if Ascii.eqb sign "-"%char then - zoneOffset else zoneOffset)
      else None
  | _ => None
  end.

(** [parseRFC3339] on the text between the quotes of a time. *)
Definition parseRFC3339 (s : string) : option Time :=
  do (year, s) <- parseUint 4 0 9999 s ;
  do s <- stripPrefix "-" s ;
  do (month, s) <- parseUint 2 1 12 s ;
  do s <- stripPrefix "-" s ;
  do (day, s) <- parseUint 2 1 (daysIn month year) s ;
  do s <- stripPrefix "T" s ;
  do (hour, s) <- parseUint 2 0 23 s ;
  do s <- stripPrefix ":" s ;
  do (min, s) <- parseUint 2 0 59 s ;
  do s <- stripPrefix ":" s ;
  do (sec, s) <- parseUint 2 0 59 s ;
  do (nsec, s) <- parseFraction s ;
  do offset <- parseZone s ;
  Some (mkTime year month day hour min sec nsec offset).

(** The bytes before the next quote, and what follows that quote. *)
Fixpoint spanQuote (s : string) : option (string * string) :=
  match s with
  | EmptyString => None
  | String c r =>
      if byte_of c =? 34 then Some (EmptyString, r)
      else do (t, rest) <- spanQuote r ; Some (String c t, rest)
  end.

(** [Time.UnmarshalJSON]: the literal is taken without unescaping, so a
    time whose text holds a backslash does not parse. *)
Definition decodeTime (s : string) : option (Time * string) :=
  match s with
  | String c r =>
      if byte_of c =? 34 then
        do (text, rest) <- spanQuote r ;
        do t <- parseRFC3339 text ;
        Some (t, rest)
      else None
  | EmptyString => None
  end.

(** A field name, then the colon. *)
Definition expectKey (name s : string) : option string :=
  do (k, rest) <- decodeString (skipWS s) ;
  if String.eqb k name then expect ":" rest else None.

Definition decodeTask (s : string) : option (Task * string) :=
  do s <- expect "{" s ;
  do s <- expectKey "ID" s ;
  do (id, s) <- decodeInt (skipWS s) ;
  do s <- expect "," s ;
  do s <- expectKey "Title" s ;
  do (title, s) <- decodeString (skipWS s) ;
  do s <- expect "," s ;
  do s <- expectKey "AssignedTo" s ;
  do (assigned, s) <- decodeString (skipWS s) ;
  do s <- expect "," s ;
  do s <- expectKey "Status" s ;
  do (status, s) <- decodeBool (skipWS s) ;
  do s <- expect "," s ;
  do s <- expectKey "DueDate" s ;
  do (due, s) <- decodeTime (skipWS s) ;
  do s <- expect "," s ;
  do s <- expectKey "TimeCreated" s ;
  do (created, s) <- decodeTime (skipWS s) ;
  do s <- expect "}" s ;
  Some (mkTask id title assigned status due created, s).

(** The elements of the array after the first, up to the closing bracket.
    [fuel] bounds the number of elements. *)
Fixpoint decodeMore (fuel : nat) (s : string) : option (list Task * string) :=
  match fuel with
  | O => None
  | S fuel' =>
      match expect "]" s with
      | Some rest => Some ([], rest)
      | None =>
          do s <- expect "," s ;
          do (t, s) <- decodeTask s ;
          do (ts, rest) <- decodeMore fuel' s ;
          Some (t :: ts, rest)
      end
  end.

(** [json.Unmarshal(data, &TasksSlice)] on an array of tasks. *)
Definition json_Unmarshal (data : string) : option (list Task) :=
  do s <- expect "[" data ;
  do (ts, rest) <-
    match expect "]" s with
    | Some rest => Some ([], rest)
    | None =>
        do (t, s) <- decodeTask s ;
        do (ts, rest) <- decodeMore (String.length s) s ;
        Some (t :: ts, rest)
    end ;
  match skipWS rest with
  | EmptyString => Some ts
  | _ => None
  end.

(** ** package os: the files of the working directory *)

(** How a call of [os.WriteFile] ends.  The file is opened with [O_TRUNC]
    and then written: when the open fails the file is as it was; when the
    write fails the file holds the bytes that were written before the
    error, none perhaps. *)
Inductive WriteOutcome : Type :=
| Written
| OpenFailed
| WriteFailed (n : nat).

(** The disk is the content of each file by name, and how the coming
    writes end, in their order; the writes after these succeed. *)
Record Disk : Type := mkDisk {
  files : string -> option string;
  pending : list WriteOutcome
}.

Definition isWritten (o : WriteOutcome) : bool :=
  match o with
  | Written => true
  | _ => false
  end.

(** Every coming write succeeds. *)
Definition writable (d : Disk) : bool := forallb isWritten (pending d).

Definition os_ReadFile (d : Disk) (name : string) : option string :=
  files d name.

Definition setFile (fs : string -> option string) (name data : string)
  : string -> option string :=
  fun n => if String.eqb n name then Some data else fs n.

(** [os.WriteFile(name, data, 0644)]: the new disk and whether the write
    succeeded. *)
Definition os_WriteFile (d : Disk) (name data : string) : Disk * bool :=
  match pending d with
  | [] => (mkDisk (setFile (files d) name data) [], true)
  | Written :: rest => (mkDisk (setFile (files d) name data) rest, true)
  | OpenFailed :: rest => (mkDisk (files d) rest, false)
  | WriteFailed n :: rest =>
      (mkDisk (setFile (files d) name (take n data)) rest, false)
  end.

(** ** The state of the program and its effects *)

Record World : Type := mkWorld {
  TasksSlice : list Task;
  disk : Disk
}.

Inductive Event : Type :=
| Print (s : string)
| Sleep (ms : Z).

(** A computation reads and writes the world and prints. *)
Definition M (A : Type) : Type := World -> A * World * list Event.

Definition ret {A : Type} (a : A) : M A := fun w => (a, w, []).

Definition bind {A B : Type} (m : M A) (k : A -> M B) : M B :=
  fun w =>
    let r1 := m w in
    let r2 := k (fst (fst r1)) (snd (fst r1)) in
    (fst (fst r2), snd (fst r2), (snd r1 ++ snd r2)%list).

Declare Scope go_scope.
Delimit Scope go_scope with go.
Notation "x <- m ;; k" := (bind m (fun x => k))
  (at level 61, m at next level, right associativity) : go_scope.
Notation "m ;; k" := (bind m (fun _ => k))
  (at level 61, right associativity) : go_scope.
Local Open Scope go_scope.

Definition result {A : Type} (r : A * World * list Event) : A := fst (fst r).
Definition world_of {A : Type} (r : A * World * list Event) : World :=
  snd (fst r).
Definition output {A : Type} (r : A * World * list Event) : list Event :=
  snd r.

Definition emit (e : Event) : M unit := fun w => (tt, w, [e]).
Definition fmt_Print (s : string) : M unit := emit (Print s).
Definition fmt_Println (s : string) : M unit := emit (Print (s ++ nl)).
Definition time_Sleep (ms : Z) : M unit := emit (Sleep ms).
Definition getTasks : M (list Task) := fun w => (TasksSlice w, w, []).
Definition setTasks (ts : list Task) : M unit :=
  fun w => (tt, mkWorld ts (disk w), []).

(** [for _, x := range xs { body }] *)
Fixpoint forEach {A : Type} (xs : list A) (body : A -> M unit) : M unit :=
  match xs with
  | [] => ret tt
  | x :: xs' => body x ;; forEach xs' body
  end.

(** [len(TasksSlice)] *)
Definition len (ts : list Task) : Z := Z.of_nat (List.length ts).

(** ** main.go *)

Definition Red : string := esc ++ "[31m".
Definition Green : string := esc ++ "[32m".
Definition Yellow : string := esc ++ "[33m".
Definition Blue : string := esc ++ "[34m".
Definition Reset : string := esc ++ "[0m".

Definition clearScreen : M unit := fmt_Print (esc ++ "[H" ++ esc ++ "[2J").

Definition hr : M unit := fmt_Println (Green ++ "------------------" ++ Reset).

Definition menuOptions : M unit :=
  ts <- getTasks ;;
  if 0 <? len ts then
    fmt_Println (Green ++ "Add a New Task -> Press 'A'") ;;
    fmt_Println "View all Tasks -> Press 'V'" ;;
    fmt_Println ("Delete a Task -> Press 'D'" ++ nl) ;;
    fmt_Println ("Quit the application -> Press 'Q'" ++ nl ++ Reset)
  else
    fmt_Println (Green ++ "Add a New Task -> Press 'A'") ;;
    fmt_Println "View all Tasks -> Press 'V'" ;;
    fmt_Println ("Quit the application -> Press 'Q'" ++ nl ++ Reset).

Definition tasksFileName : string := "Tasks.json".

(** [saveTask]: the error of [os.WriteFile] is assigned and never read. *)
Definition saveTask : M unit :=
  fun w =>
    match json_MarshalIndent (TasksSlice w) with
    | None => fmt_Println (Red ++ "Error saving tasks!" ++ Reset) w
    | Some data =>
        let '(d, _) := os_WriteFile (disk w) tasksFileName data in
        (tt, mkWorld (TasksSlice w) d, [])
    end.

(** The line that [showMenu] prints for a task: ["%d. %s\n"]. *)
Definition menuLine (t : Task) : string :=
  Yellow ++ strconv_Itoa (ID t) ++ ". " ++ Title t ++ nl.

(** [for i := start; i < len(TasksSlice); i++] of [showMenu]; [n] is the
    number of passes left, [len(TasksSlice) - i], so that [i] is an index
    of the slice in every pass. *)
Fixpoint showMenu_loop (n : nat) (i : nat) (ts : list Task) : M unit :=
  match n with
  | O => ret tt
  | S n' =>
      match nth_error ts i with
      | Some t => fmt_Print (menuLine t) ;; showMenu_loop n' (S i) ts
      | None => ret tt
      end
  end.

Definition showMenu : M unit :=
  fmt_Println (Yellow ++ "---Task Manager---" ++ nl ++ Reset) ;;
  ts <- getTasks ;;
  (if 0 <? len ts then
     let start := if 5 <? len ts then len ts - 5 else 0 in
     showMenu_loop (Z.to_nat (len ts - start)) (Z.to_nat start) ts
   else
     fmt_Println (Red ++ "No Tasks Yet!" ++ nl ++ Reset)) ;;
  hr ;;
  menuOptions.

(** The line that [showAllTask] and [deleteTask] print for a task. *)
Definition taskLine (t : Task) : string :=
  Yellow ++ "ID: " ++ strconv_Itoa (ID t) ++ ", Title: " ++ Title t
  ++ ", Assigned To: " ++ AssignedTo t
  ++ ", Due Date: " ++ time_Format (DueDate t) ++ nl ++ nl.

(** The text of [pressAnyButton] before it reads. *)
Definition pressAnyButton_prompt : M unit :=
  fmt_Println (Green ++ "Press any button to return to the Main Screen.."
               ++ nl ++ Reset).

(** [showAllTask] up to the read of [pressAnyButton]. *)
Definition showAllTask : M unit :=
  fmt_Println (Yellow ++ "---Task Manager | All Tasks---" ++ nl ++ Reset) ;;
  ts <- getTasks ;;
  if 0 <? len ts then
    forEach ts (fun task => fmt_Print (taskLine task)) ;;
    pressAnyButton_prompt
  else
    fmt_Println (Red ++ "No Tasks Yet!" ++ nl ++ Reset) ;;
    pressAnyButton_prompt.

(** The confirmation that [addTask] prints for the new task. *)
Definition addedText (t : Task) : string :=
  Yellow ++ "ID: " ++ strconv_Itoa (ID t) ++ " " ++ nl
  ++ "Title: " ++ Title t ++ nl
  ++ "Assigned To: " ++ AssignedTo t ++ nl
  ++ "Due Date: " ++ time_Format (DueDate t) ++ nl
  ++ "Time Created " ++ time_Format (TimeCreated t) ++ nl.

(** What one pass of the loop of [addTask] does with its three lines. *)
Inductive AddResult : Type :=
| Added (t : Task)
| BadDate.

(** Lines 100 to 123 of [addTask]: the due date is trimmed and parsed; a
    date that does not parse is reported and nothing else happens;
    otherwise the task gets the next ID, is appended and saved. *)
Definition addTask_submit (taskTitle taskAssigned dueLine : string)
    (now : Time) : M AddResult :=
  let taskDueDate := strings_TrimSpace dueLine in
  match time_Parse taskDueDate with
  | None =>
      fmt_Println (Red ++ "Wrong format! Try again.") ;;
      time_Sleep 700 ;;
      clearScreen ;;
      fmt_Println (Yellow ++ nl ++ "---Task Manager / Add a Task---" ++ nl) ;;
      ret BadDate
  | Some dueDate =>
      ts <- getTasks ;;
      let newID := len ts + 1 in
      let newTask := mkTask newID taskTitle taskAssigned false dueDate now in
      setTasks (ts ++ [newTask])%list ;;
      saveTask ;;
      fmt_Println (Reset ++ nl ++ "Task added successfully!" ++ nl) ;;
      fmt_Print (addedText newTask) ;;
      ret (Added newTask)
  end.

(** Lines 91 to 96: how the title and the assignee are read. *)
Definition readField (line : string) : string :=
  strings_ToUpper (strings_TrimSpace line).

(** One pass of the loop of [addTask] on the three lines it reads: the
    store operation [create] of the design. *)
Definition create (titleLine assignedLine dueLine : string) (now : Time)
  : M AddResult :=
  addTask_submit (readField titleLine) (readField assignedLine) dueLine now.

(** Lines 191 to 197 of [deleteTask]: the index of the first task with
    this ID, [-1] when there is none. *)
Fixpoint findIndex_from (i : Z) (id : Z) (ts : list Task) : Z :=
  match ts with
  | [] => -1
  | task :: ts' => if ID task =? id then i else findIndex_from (i + 1) id ts'
  end.

Definition findIndex (id : Z) (ts : list Task) : Z := findIndex_from 0 id ts.

(** [append(s[:i], s[i+1:]...)] *)
Definition removeAt (i : Z) (ts : list Task) : list Task :=
  (firstn (Z.to_nat i) ts ++ skipn (Z.to_nat (i + 1)) ts)%list.

Inductive DeleteResult : Type :=
| Deleted
| NotFound.

(** Lines 190 to 209 of [deleteTask], for a number that was read: the
    store operation [deleteById] of the design. *)
Definition deleteById (id : Z) : M DeleteResult :=
  ts <- getTasks ;;
  let indexToDelete := findIndex id ts in
  if indexToDelete =? -1 then
    fmt_Println (Red ++ "Task not found!" ++ Reset) ;;
    time_Sleep 1000 ;;
    ret NotFound
  else
    setTasks (removeAt indexToDelete ts) ;;
    saveTask ;;
    fmt_Println (Green ++ nl ++ "Task deleted!" ++ Reset) ;;
    time_Sleep 1000 ;;
    ret Deleted.

(** The head of the loop of [deleteTask], up to its read. *)
Definition deleteTask_show : M unit :=
  clearScreen ;;
  fmt_Println (Yellow ++ nl ++ "---Task Manager | Delete a Task---" ++ nl ++ Reset) ;;
  ts <- getTasks ;;
  forEach ts (fun task => fmt_Print (taskLine task)) ;;
  fmt_Print (Blue ++ "Enter the ID to delete (or 'Q' to go back): " ++ Reset).

Definition wrongInput : M unit :=
  clearScreen ;;
  fmt_Println "Wrong Input." ;;
  time_Sleep 400 ;;
  clearScreen ;;
  fmt_Println "Wrong Input.." ;;
  time_Sleep 400 ;;
  clearScreen ;;
  fmt_Println "Wrong Input..." ;;
  time_Sleep 400 ;;
  clearScreen.

Definition goodBye : M unit :=
  clearScreen ;;
  fmt_Println (Blue ++ "Good bye!") ;;
  time_Sleep 700 ;;
  clearScreen ;;
  fmt_Println (Yellow ++ "Good bye!!") ;;
  time_Sleep 700 ;;
  clearScreen ;;
  fmt_Println (Red ++ "Good bye!!!") ;;
  time_Sleep 700 ;;
  clearScreen.

(** [loadTasks]: a file that cannot be read leaves the slice as it is; the
    error of [json.Unmarshal] is dropped.  [None] only where the decoder
    above gives [None]. *)
Definition loadTasks (w : World) : option World :=
  match os_ReadFile (disk w) tasksFileName with
  | None => Some w
  | Some data =>
      match json_Unmarshal data with
      | Some ts => Some (mkWorld ts (disk w))
      | None => None
      end
  end.

(** The world in which [main] starts: [var TasksSlice = []Task{}]. *)
Definition initialWorld (d : Disk) : World := mkWorld [] d.

(** *** The reads of the program

    Standard input is a terminal: each [ReadString] returns one line.  A
    control point is one of the reads of the source; the title and the
    assignee that [addTask] has read so far are part of it. *)
Inductive Ctrl : Type :=
| AtMain                                          (* main, line 224 *)
| AtAddTitle                                      (* addTask, line 91 *)
| AtAddAssigned (taskTitle : string)              (* addTask, line 95 *)
| AtAddDue (taskTitle taskAssigned : string)      (* addTask, line 99 *)
| AtAddAgain                                      (* addTask, line 127 *)
| AtViewAck                                       (* pressAnyButton, line 144 *)
| AtDelete                                        (* deleteTask, line 174 *)
| Exited.                                         (* main has returned *)

Definition addTask_prompt : M unit :=
  fmt_Print (Blue ++ "Add your Task Title: ").

Definition addTask_enter : M unit :=
  fmt_Println (Yellow ++ nl ++ "---Task Manager | Add a Task---" ++ nl) ;;
  addTask_prompt.

Definition addTask_askAgain : M unit :=
  fmt_Print (Blue ++ nl ++ "Do you want to add another task? (Y/N): " ++ Reset).

(** From one read to the next: the code that runs on [line], read at the
    control point [c], up to the read it blocks on. *)
Definition step (c : Ctrl) (line : string) (now : Time) : M Ctrl :=
  match c with
  | AtMain =>
      let choice := strings_ToUpper (strings_TrimSpace line) in
      if String.eqb choice "A" then
        clearScreen ;; addTask_enter ;; ret AtAddTitle
      else if String.eqb choice "V" then
        clearScreen ;; showAllTask ;; ret AtViewAck
      else if String.eqb choice "Q" then
        goodBye ;; ret Exited
      else if String.eqb choice "D" then
        ts <- getTasks ;;
        if 0 <? len ts then deleteTask_show ;; ret AtDelete
        else wrongInput ;; showMenu ;; ret AtMain
      else
        wrongInput ;; showMenu ;; ret AtMain
  | AtAddTitle =>
      fmt_Print (Blue ++ "Add your Task Assigned To: ") ;;
      ret (AtAddAssigned (readField line))
  | AtAddAssigned taskTitle =>
      fmt_Print (Blue ++ "When is the Due Date (Format: Jan 02, 2006): ") ;;
      ret (AtAddDue taskTitle (readField line))
  | AtAddDue taskTitle taskAssigned =>
      r <- addTask_submit taskTitle taskAssigned line now ;;
      match r with
      | BadDate => addTask_prompt ;; ret AtAddTitle
      | Added _ => addTask_askAgain ;; ret AtAddAgain
      end
  | AtAddAgain =>
      let taskAgain := strings_ToUpper (strings_TrimSpace line) in
      if String.eqb taskAgain "Y" then
        clearScreen ;; addTask_prompt ;; ret AtAddTitle
      else if String.eqb taskAgain "N" then
        clearScreen ;; showMenu ;; ret AtMain
      else
        fmt_Println (Red ++ "Respond with Y or N only!" ++ Reset) ;;
        addTask_askAgain ;; ret AtAddAgain
  | AtViewAck =>
      clearScreen ;; showMenu ;; ret AtMain
  | AtDelete =>
      let input := strings_TrimSpace line in
      if String.eqb (strings_ToUpper input) "Q" then
        showMenu ;; ret AtMain
      else
        match strconv_Atoi input with
        | None =>
            fmt_Println (Red ++ "Invalid! Enter a number." ++ Reset) ;;
            time_Sleep 1000 ;;
            deleteTask_show ;; ret AtDelete
        | Some id =>
            r <- deleteById id ;;
            match r with
            | NotFound => deleteTask_show ;; ret AtDelete
            | Deleted =>
                ts <- getTasks ;;
                if len ts =? 0 then showMenu ;; ret AtMain
                else deleteTask_show ;; ret AtDelete
            end
        end
  | Exited => ret Exited
  end.

(** The program between two reads. *)
Record Config : Type := mkConfig {
  ctrl : Ctrl;
  world : World
}.

(** What the terminal and the clock supply at a read. *)
Record Input : Type := mkInput {
  line : string;
  now : Time
}.

Definition next (cf : Config) (i : Input) : Config * list Event :=
  let r := step (ctrl cf) (line i) (now i) (world cf) in
  (mkConfig (result r) (world_of r), output r).

Fixpoint run (cf : Config) (inputs : list Input) : Config * list Event :=
  match inputs with
  | [] => (cf, [])
  | i :: inputs' =>
      let '(cf1, o1) := next cf i in
      let '(cf2, o2) := run cf1 inputs' in
      (cf2, (o1 ++ o2)%list)
  end.

(** [main] up to its first read: the tasks are loaded and the menu is
    shown. *)
Definition boot (d : Disk) : option (Config * list Event) :=
  match loadTasks (initialWorld d) with
  | Some w => let r := showMenu w in Some (mkConfig AtMain (world_of r), output r)
  | None => None
  end.

(** The states of the menu controller of the design. *)
Inductive MenuState : Type :=
| MainMenu
| AddingTask
| ListingTasks
| DeletingTask
| Quitting.

Definition menuState (c : Ctrl) : MenuState :=
  match c with
  | AtMain => MainMenu
  | AtAddTitle | AtAddAssigned _ | AtAddDue _ _ | AtAddAgain => AddingTask
  | AtViewAck => ListingTasks
  | AtDelete => DeletingTask
  | Exited => Quitting
  end.

(** The configurations the program can be in: after [main] has loaded any
    tasks, and after any lines. *)
Inductive reachable : Config -> Prop :=
| reach_boot : forall w, reachable (mkConfig AtMain w)
| reach_next : forall cf i, reachable cf -> reachable (fst (next cf i)).

(** The task that a pass of [addTask] makes of its lines once the date has
    parsed. *)
Definition madeTask (titleLine assignedLine : string) (now : Time) (w : World)
    (dueDate : Time) : Task :=
  mkTask (len (TasksSlice w) + 1) (readField titleLine)
         (readField assignedLine) false dueDate now.

(** The store operations of the design, and the stores they lead to from
    the empty one. *)
Inductive Op : Type :=
| OpCreate (titleLine assignedLine dueLine : string) (now : Time)
| OpDelete (id : Z).

Definition applyOp (o : Op) (w : World) : World :=
  match o with
  | OpCreate t a d n => world_of (create t a d n w)
  | OpDelete id => world_of (deleteById id w)
  end.

Definition applyOps (ops : list Op) (w : World) : World :=
  fold_left (fun w o => applyOp o w) ops w.

(** The ID that the next [create] assigns. *)
Definition nextID (w : World) : Z := len (TasksSlice w) + 1.

Definition ids (ts : list Task) : list Z := map ID ts.

(** No byte of [s] is one of ['a'..'z']. *)
Fixpoint noLower (s : string) : bool :=
  match s with
  | EmptyString => true
  | String c r => negb (isLower c) && noLower r
  end.

(** *** A disk without files, a clock reading and a few tasks, for the
    examples *)

Definition emptyDisk : Disk := mkDisk (fun _ => None) [].

Definition noon : Time := mkTime 2025 1 2 12 0 0 0 0.

Definition christmas : Time := mkTime 2024 12 25 0 0 0 0 0.

Definition sampleTask (id : Z) (title : string) : Task :=
  mkTask id title "" false christmas noon.

(** *** The tasks that [json.MarshalIndent] writes without loss *)

Definition between (lo hi x : Z) : bool := (lo <=? x) && (x <=? hi).

(** A time of the calendar, in a zone of whole minutes within a day of
    UTC, in the years that RFC 3339 can write. *)
Definition validTime (t : Time) : bool :=
  between 0 9999 (year t) && between 1 12 (month t)
  && between 1 (daysIn (month t) (year t)) (day t)
  && between 0 23 (hour t) && between 0 59 (minute t)
  && between 0 59 (second t) && between 0 999999999 (nanosecond t)
  && (Z.rem (zoneOffset t) 60 =? 0) && (Z.abs (zoneOffset t) <? 86400).

(** Well-formed UTF-8: what a Go string holds once [strings.ToUpper] or
    [json.Unmarshal] has made it.  [fuel] bounds the passes. *)
Fixpoint validUTF8_loop (fuel : nat) (s : string) : bool :=
  match s with
  | EmptyString => true
  | String c r =>
      match fuel with
      | O => false
      | S fuel' =>
          if byte_of c <? 128 then validUTF8_loop fuel' r
          else
            match runeSize s with
            | O => false
            | n => validUTF8_loop fuel' (drop n s)
            end
      end
  end.

Definition validUTF8 (s : string) : bool :=
  validUTF8_loop (String.length s) s.

Definition validTask (t : Task) : bool :=
  between MinInt64 MaxInt64 (ID t)
  && validUTF8 (Title t) && validUTF8 (AssignedTo t)
  && validTime (DueDate t) && validTime (TimeCreated t).

Definition menuHeader : Event :=
  Print (Yellow ++ "---Task Manager---" ++ nl ++ Reset ++ nl).


Definition sixTasks : list Task :=
  [sampleTask 1 "A"; sampleTask 2 "B"; sampleTask 3 "C";
   sampleTask 4 "D"; sampleTask 5 "E"; sampleTask 6 "F"].

(** The operations that lead from the empty store to a store whose next
    ID is taken. *)
Definition threeThenDeleteFirst : list Op :=
  [OpCreate "a" "" "Dec 25, 2024" noon;
   OpCreate "b" "" "Dec 25, 2024" noon;
   OpCreate "c" "" "Dec 25, 2024" noon;
   OpDelete 1].

(** *** Notions for the proofs about the decoder *)

(** The text does not start with a digit. *)
Definition endsDigits (s : string) : bool :=
  match s with
  | EmptyString => true
  | String c _ => negb (isDigit c)
  end.

(** The names of the fields of a task in the file. *)
Definition fieldNames : list string :=
  ["ID"; "Title"; "AssignedTo"; "Status"; "DueDate"; "TimeCreated"].

(** No byte of [s] is the quote. *)
Fixpoint noQuote (s : string) : bool :=
  match s with
  | EmptyString => true
  | String c r => negb (byte_of c =? 34) && noQuote r
  end.

(** *** Notions for the properties of the whole program *)

(** What a new start of the program would load from the disk of [w] is
    what the slice of [w] holds. *)
Definition synced (w : World) : Prop :=
  loadTasks (initialWorld (disk w)) = Some (mkWorld (TasksSlice w) (disk w)).

(** The world [w] on a disk whose coming writes end as [outcomes] say. *)
Definition withPending (outcomes : list WriteOutcome) (w : World) : World :=
  mkWorld (TasksSlice w) (mkDisk (files (disk w)) outcomes).

(** The IDs [1 .. n]. *)
Definition idsUpTo (n : nat) : list Z := map Z.of_nat (seq 1 n).

Definition isCreate (o : Op) : bool :=
  match o with
  | OpCreate _ _ _ _ => true
  | OpDelete _ => false
  end.

(** The line of [menuOptions] that offers the deletion. *)
Definition deleteOption : Event :=
  Print ("Delete a Task -> Press 'D'" ++ nl ++ nl).

(** What [addTask] prints after it has stored a task. *)
Definition addedMessage : Event :=
  Print (Reset ++ nl ++ "Task added successfully!" ++ nl ++ nl).

(** What [saveTask] prints when the tasks cannot be encoded. *)
Definition saveError : Event :=
  Print (Red ++ "Error saving tasks!" ++ Reset ++ nl).

(** What the head of the loop of [deleteTask] prints for a store. *)
Definition deleteScreen (ts : list Task) : list Event :=
  (Print (esc ++ "[H" ++ esc ++ "[2J")
   :: Print (Yellow ++ nl ++ "---Task Manager | Delete a Task---" ++ nl
             ++ Reset ++ nl)
   :: map (fun task => Print (taskLine task)) ts
   ++ [Print (Blue ++ "Enter the ID to delete (or 'Q' to go back): " ++ Reset)])%list.

(** Every store that the program holds at a read of the run on [inputs]
    from [cf] has valid tasks only. *)
Fixpoint validAlong (cf : Config) (inputs : list Input) : bool :=
  match inputs with
  | [] => true
  | i :: inputs' =>
      forallb validTask (TasksSlice (world (fst (next cf i))))
      && validAlong (fst (next cf i)) inputs'
  end.

(** A session: a task is added, the menu comes back, the task is
    deleted. *)
Definition sampleSession : list Input :=
  map (fun l => mkInput l noon)
      ["a"; "buy milk"; "bob"; "Dec 25, 2024"; "n"; "d"; "1"].

(** What holds of a task that the program has made in its first [k]
    store operations. *)
Definition madeWithin (k : Z) (task : Task) : Prop :=
  Status task = false
  /\ 1 <= ID task <= k
  /\ noLower (Title task) = true
  /\ noLower (AssignedTo task) = true.

(** Creates only; the second one has a date that does not parse. *)
Definition threeCreates : list Op :=
  [OpCreate "a" "" "Dec 25, 2024" noon;
   OpCreate "b" "" "25/12/2024" noon;
   OpCreate "c" "" "Dec 25, 2024" noon].

(** What [addTask] prints for an answer that is neither Y nor N. *)
Definition respondYesNo : list Event :=
  [Print (Red ++ "Respond with Y or N only!" ++ Reset ++ nl);
   Print (Blue ++ nl ++ "Do you want to add another task? (Y/N): " ++ Reset)].

(** What [showMenu] and [showAllTask] print for the empty slice. *)
Definition noTasksYet : Event :=
  Print (Red ++ "No Tasks Yet!" ++ nl ++ Reset ++ nl).

(** What [deleteTask] prints after it has removed a task. *)
Definition deletedMessage : Event :=
  Print (Green ++ nl ++ "Task deleted!" ++ Reset ++ nl).

(** What [deleteTask] answers to a line that is not a number. *)
Definition invalidNumber : list Event :=
  [Print (Red ++ "Invalid! Enter a number." ++ Reset ++ nl); Sleep 1000].

(** A line that [main] does not take as a command in the world [w]: none
    of A, V and Q, and D only when there is no task. *)
Definition wrongKey (w : World) (i : Input) : Prop :=
  let choice := strings_ToUpper (strings_TrimSpace (line i)) in
  choice <> "A" /\ choice <> "V" /\ choice <> "Q"
  /\ (choice = "D" -> TasksSlice w = []).

(** A line that [deleteTask] takes neither as Q nor as a number. *)
Definition notNumber (i : Input) : Prop :=
  strings_ToUpper (strings_TrimSpace (line i)) <> "Q"
  /\ strconv_Atoi (strings_TrimSpace (line i)) = None.

(** *** The screens of the program, byte for byte *)

Definition clearEvent : Event := Print (esc ++ "[H" ++ esc ++ "[2J").

(** What [main] prints for a line that is no command. *)
Definition wrongInputScreens : list Event :=
  [clearEvent; Print ("Wrong Input." ++ nl); Sleep 400;
   clearEvent; Print ("Wrong Input.." ++ nl); Sleep 400;
   clearEvent; Print ("Wrong Input..." ++ nl); Sleep 400;
   clearEvent].

(** What [main] prints for the command Q. *)
Definition goodByeScreens : list Event :=
  [clearEvent; Print (Blue ++ "Good bye!" ++ nl); Sleep 700;
   clearEvent; Print (Yellow ++ "Good bye!!" ++ nl); Sleep 700;
   clearEvent; Print (Red ++ "Good bye!!!" ++ nl); Sleep 700;
   clearEvent].




(** *** Text of ASCII, and the white space of Unicode *)

(** Every byte of [s] is below 128. *)
Fixpoint asciiOnly (s : string) : bool :=
  match s with
  | EmptyString => true
  | String c r => (byte_of c <? 128) && asciiOnly r
  end.

(** The runes of [unicode.IsSpace]. *)
Definition whiteSpace : list Z :=
  [9; 10; 11; 12; 13; 32; 133; 160; 5760;
   8192; 8193; 8194; 8195; 8196; 8197; 8198; 8199; 8200; 8201; 8202;
   8232; 8233; 8239; 8287; 12288].

(** A byte of ASCII that is no white space. *)
Definition plainByte (c : ascii) : Prop :=
  byte_of c < 128 /\ isSpace c = false.

(** * Properties *)

(** ** The monad *)

Section Monad.

Context {A B : Type}.

Lemma result_bind (m : M A) (k : A -> M B) (w : World) :
  result (bind m k w) = result (k (result (m w)) (world_of (m w))).
Proof. reflexivity. Qed.

Lemma world_bind (m : M A) (k : A -> M B) (w : World) :
  world_of (bind m k w) = world_of (k (result (m w)) (world_of (m w))).
Proof. reflexivity. Qed.

Lemma output_bind (m : M A) (k : A -> M B) (w : World) :
  output (bind m k w)
  = (output (m w) ++ output (k (result (m w)) (world_of (m w))))%list.
Proof. reflexivity. Qed.

Lemma result_ret (a : A) (w : World) : result (ret a w) = a.
Proof. reflexivity. Qed.

Lemma world_ret (a : A) (w : World) : world_of (ret a w) = w.
Proof. reflexivity. Qed.

Lemma output_ret (a : A) (w : World) : output (ret a w) = [].
Proof. reflexivity. Qed.

End Monad.

Lemma world_emit (e : Event) (w : World) : world_of (emit e w) = w.
Proof. reflexivity. Qed.

Lemma world_Println (s : string) (w : World) : world_of (fmt_Println s w) = w.
Proof. reflexivity. Qed.

Lemma world_Print (s : string) (w : World) : world_of (fmt_Print s w) = w.
Proof. reflexivity. Qed.

Lemma world_Sleep (ms : Z) (w : World) : world_of (time_Sleep ms w) = w.
Proof. reflexivity. Qed.

Lemma world_clearScreen (w : World) : world_of (clearScreen w) = w.
Proof. reflexivity. Qed.

Lemma world_hr (w : World) : world_of (hr w) = w.
Proof. reflexivity. Qed.

Lemma world_getTasks (w : World) : world_of (getTasks w) = w.
Proof. reflexivity. Qed.

Lemma result_getTasks (w : World) : result (getTasks w) = TasksSlice w.
Proof. reflexivity. Qed.

Lemma output_getTasks (w : World) : output (getTasks w) = [].
Proof. reflexivity. Qed.

Lemma world_wrongInput (w : World) : world_of (wrongInput w) = w.
Proof. reflexivity. Qed.

Lemma world_goodBye (w : World) : world_of (goodBye w) = w.
Proof. reflexivity. Qed.

Create Rewrite HintDb go.

#[local] Hint Rewrite @result_bind @world_bind @output_bind
  @result_ret @world_ret @output_ret
  world_emit world_Println world_Print world_Sleep world_clearScreen world_hr
  world_getTasks result_getTasks output_getTasks world_wrongInput
  world_goodBye : go.

(** ** The store operations *)

Lemma saveTask_tasks (w : World) :
  TasksSlice (world_of (saveTask w)) = TasksSlice w.
Proof.
  unfold saveTask, world_of.
  destruct (json_MarshalIndent (TasksSlice w)); [ | reflexivity ].
  destruct (os_WriteFile (disk w) tasksFileName s); reflexivity.
Qed.

Lemma len_app (ts : list Task) (t : Task) : len (ts ++ [t]) = len ts + 1.
Proof. unfold len. rewrite length_app. simpl. lia. Qed.

Lemma len_nonneg (ts : list Task) : 0 <= len ts.
Proof. unfold len. lia. Qed.

Lemma len_zero_nil (ts : list Task) : len ts = 0 <-> ts = [].
Proof.
  unfold len. destruct ts; simpl; split; intros H; try reflexivity;
    try discriminate; lia.
Qed.

Lemma len_pos_not_nil (ts : list Task) : (0 <? len ts) = true <-> ts <> [].
Proof.
  rewrite Z.ltb_lt. unfold len. destruct ts; simpl; split; intros H;
    try congruence; try lia.
Qed.

Section Create.

(** One pass of [addTask]: the three lines read, the clock, and the world
    before. *)
Variables (titleLine assignedLine dueLine : string) (now : Time) (w : World).

Let attempt := create titleLine assignedLine dueLine now w.

Let made := madeTask titleLine assignedLine now w.

(** What [create] does when the date parses. *)
Lemma create_parsed (dueDate : Time) :
  time_Parse (strings_TrimSpace dueLine) = Some dueDate ->
  result attempt = Added (made dueDate)
  /\ TasksSlice (world_of attempt) = (TasksSlice w ++ [made dueDate])%list.
Proof.
  intros Hp. unfold attempt, create, addTask_submit. rewrite Hp.
  split; [ reflexivity | ].
  autorewrite with go. apply saveTask_tasks.
Qed.

(** What [create] does when the date does not parse. *)
Lemma create_unparsed :
  time_Parse (strings_TrimSpace dueLine) = None ->
  result attempt = BadDate /\ world_of attempt = w.
Proof.
  intros Hp. unfold attempt, create, addTask_submit. rewrite Hp.
  split; reflexivity.
Qed.

Lemma create_result_inv (task : Task) :
  result attempt = Added task ->
  exists dueDate,
    time_Parse (strings_TrimSpace dueLine) = Some dueDate
    /\ task = made dueDate.
Proof.
  intros H.
  destruct (time_Parse (strings_TrimSpace dueLine)) as [dueDate | ] eqn:Hp.
  - exists dueDate. split; [ reflexivity | ].
    destruct (create_parsed dueDate Hp) as [Hr _].
    rewrite Hr in H. now inversion H.
  - destruct (create_unparsed Hp) as [Hr _].
    rewrite Hr in H. discriminate.
Qed.

End Create.

Section Store.

Lemma findIndex_from_absent (id : Z) (ts : list Task) (i : Z) :
  ~ In id (ids ts) -> findIndex_from i id ts = -1.
Proof.
  revert i. induction ts as [ | t ts IH ]; intros i Hn; simpl; [ reflexivity | ].
  simpl in Hn. destruct (ID t =? id) eqn:E.
  - apply Z.eqb_eq in E. tauto.
  - apply IH. tauto.
Qed.

(** The scan stops at the first task with the ID. *)
Lemma findIndex_from_present (id : Z) (ts : list Task) (i : Z) :
  In id (ids ts) ->
  exists l1 t l2,
    ts = (l1 ++ t :: l2)%list /\ ID t = id /\ ~ In id (ids l1)
    /\ findIndex_from i id ts = i + len l1.
Proof.
  revert i. induction ts as [ | t ts IH ]; intros i Hin; simpl in Hin; [ tauto | ].
  simpl. destruct (ID t =? id) eqn:E.
  - apply Z.eqb_eq in E. exists [], t, ts. simpl. unfold len. simpl.
    repeat split; auto. lia.
  - apply Z.eqb_neq in E. destruct Hin as [Hin | Hin]; [ tauto | ].
    destruct (IH (i + 1) Hin) as (l1 & t' & l2 & -> & Hid & Hn & Hf).
    exists (t :: l1), t', l2. repeat split; auto.
    + intros [H | H]; tauto.
    + rewrite Hf. unfold len. cbn [List.length]. lia.
Qed.

Lemma firstn_length_app {A : Type} (l1 l2 : list A) :
  firstn (List.length l1) (l1 ++ l2) = l1.
Proof. induction l1 as [ | x l1 IH ]; simpl; [ now destruct l2 | now rewrite IH ]. Qed.

Lemma skipn_S_length_app {A : Type} (l1 l2 : list A) (x : A) :
  skipn (S (List.length l1)) (l1 ++ x :: l2) = l2.
Proof. induction l1 as [ | y l1 IH ]; simpl; [ reflexivity | exact IH ]. Qed.

Lemma removeAt_middle (l1 l2 : list Task) (t : Task) :
  removeAt (len l1) (l1 ++ t :: l2) = (l1 ++ l2)%list.
Proof.
  unfold removeAt, len.
  replace (Z.to_nat (Z.of_nat (List.length l1) + 1)) with (S (List.length l1)) by lia.
  rewrite Nat2Z.id, firstn_length_app, skipn_S_length_app. reflexivity.
Qed.

(** What [deleteById] does when no task has the ID. *)
Lemma deleteById_absent (id : Z) (w : World) :
  ~ In id (ids (TasksSlice w)) ->
  deleteById id w
  = (NotFound, w, [Print (Red ++ "Task not found!" ++ Reset ++ nl); Sleep 1000]).
Proof.
  intros Hn. unfold deleteById, bind. cbn [getTasks fst snd].
  unfold findIndex. rewrite (findIndex_from_absent id (TasksSlice w) 0 Hn).
  reflexivity.
Qed.

(** What [deleteById] does when a task has the ID: the first such task
    goes, the others stay as they are. *)
Lemma deleteById_present (id : Z) (w : World) :
  In id (ids (TasksSlice w)) ->
  exists l1 t l2,
    TasksSlice w = (l1 ++ t :: l2)%list /\ ID t = id /\ ~ In id (ids l1)
    /\ result (deleteById id w) = Deleted
    /\ TasksSlice (world_of (deleteById id w)) = (l1 ++ l2)%list.
Proof.
  intros Hin.
  destruct (findIndex_from_present id (TasksSlice w) 0 Hin)
    as (l1 & t & l2 & Hw & Hid & Hn & Hf).
  exists l1, t, l2. repeat split; auto.
  - unfold deleteById, bind, result. cbn [getTasks fst snd].
    unfold findIndex. rewrite Hf.
    destruct (0 + len l1 =? -1) eqn:E; [ | reflexivity ].
    apply Z.eqb_eq in E. pose proof (len_nonneg l1). lia.
  - unfold deleteById, bind, world_of. cbn [getTasks fst snd].
    unfold findIndex. rewrite Hf.
    destruct (0 + len l1 =? -1) eqn:E.
    + apply Z.eqb_eq in E. pose proof (len_nonneg l1). lia.
    + cbn [fst snd setTasks ret fmt_Println time_Sleep emit].
      change (TasksSlice (world_of (saveTask
               (mkWorld (removeAt (0 + len l1) (TasksSlice w)) (disk w))))
              = (l1 ++ l2)%list).
      rewrite saveTask_tasks. cbn [TasksSlice].
      rewrite Hw, Z.add_0_l. apply removeAt_middle.
Qed.

(** The computations that only print. *)
Lemma forEach_print (f : Task -> string) (ts : list Task) (w : World) :
  forEach ts (fun task => fmt_Print (f task)) w
  = (tt, w, map (fun task => Print (f task)) ts).
Proof.
  induction ts as [ | t ts IH ]; [ reflexivity | ].
  cbn [forEach]. unfold bind. cbn [fmt_Print emit fst snd]. rewrite IH.
  reflexivity.
Qed.

Lemma showMenu_loop_world (n i : nat) (ts : list Task) (w : World) :
  world_of (showMenu_loop n i ts w) = w.
Proof.
  revert i. induction n as [ | n IH ]; intros i; [ reflexivity | ].
  cbn [showMenu_loop]. destruct (nth_error ts i); [ | reflexivity ].
  unfold bind, world_of. cbn [fmt_Print emit fst snd]. apply IH.
Qed.

Lemma menuOptions_world (w : World) : world_of (menuOptions w) = w.
Proof.
  unfold menuOptions, bind, world_of. cbn [getTasks fst snd].
  destruct (0 <? len (TasksSlice w)); reflexivity.
Qed.

Lemma showMenu_world (w : World) : world_of (showMenu w) = w.
Proof.
  unfold showMenu, bind, world_of.
  cbn [fmt_Println emit getTasks fst snd hr].
  destruct (0 <? len (TasksSlice w)).
  - rewrite (showMenu_loop_world _ _ (TasksSlice w) w : snd (fst _) = w).
    apply menuOptions_world.
  - cbn [fmt_Println emit getTasks fst snd hr]. apply menuOptions_world.
Qed.

Lemma deleteTask_show_world (w : World) : world_of (deleteTask_show w) = w.
Proof.
  unfold deleteTask_show, bind, world_of.
  cbn [clearScreen fmt_Println fmt_Print emit getTasks fst snd].
  rewrite forEach_print. reflexivity.
Qed.

End Store.

(** ** Creating a task *)

(** C3: after a successful create the collection is one longer, the new
    task is its last element, the tasks before it are as they were, the ID
    of the new task is the former length plus one, and it is not
    completed. *)
Theorem create_appends_task (titleLine assignedLine dueLine : string)
    (now : Time) (w : World) (task : Task) :
  result (create titleLine assignedLine dueLine now w) = Added task ->
  let after := TasksSlice (world_of (create titleLine assignedLine dueLine now w)) in
  len after = len (TasksSlice w) + 1
  /\ after = (TasksSlice w ++ [task])%list
  /\ last after task = task
  /\ nth_error after (List.length (TasksSlice w)) = Some task
  /\ ID task = len (TasksSlice w) + 1
  /\ Status task = false.
Proof.
  intros H after.
  destruct (create_result_inv _ _ _ _ _ _ H) as (dueDate & Hp & Ht).
  destruct (create_parsed titleLine assignedLine dueLine now w dueDate Hp) as [_ Hw].
  assert (Hafter : after = (TasksSlice w ++ [task])%list).
  { unfold after. rewrite Hw, Ht. reflexivity. }
  rewrite Hafter. repeat split.
  - apply len_app.
  - apply last_last.
  - rewrite nth_error_app2, Nat.sub_diag; [ reflexivity | lia ].
  - rewrite Ht. reflexivity.
  - rewrite Ht. reflexivity.
Qed.

Lemma create_appends_task_witness :
  let w := mkWorld [sampleTask 1 "A"; sampleTask 2 "B"] emptyDisk in
  let r := create "buy milk" "" "Dec 25, 2024" noon w in
  result r = Added (mkTask 3 "BUY MILK" "" false christmas noon)
  /\ len (TasksSlice (world_of r)) = 3.
Proof.
  intros w r. split; [ reflexivity | ].
  apply (create_appends_task "buy milk" "" "Dec 25, 2024" noon w
           (mkTask 3 "BUY MILK" "" false christmas noon)).
  reflexivity.
Defined.

(** C5: a due date that [time.Parse] does not take under the layout
    "Jan 02, 2006" makes create answer [BadDate]; the collection and the
    file are as before, the message is printed, and the program asks for
    the three fields again. *)
Theorem create_rejects_bad_date (titleLine assignedLine dueLine : string)
    (now : Time) (w : World) :
  time_Parse (strings_TrimSpace dueLine) = None ->
  let r := create titleLine assignedLine dueLine now w in
  result r = BadDate
  /\ world_of r = w
  /\ In (Print (Red ++ "Wrong format! Try again." ++ nl)) (output r)
  /\ forall taskTitle taskAssigned,
       let r' := step (AtAddDue taskTitle taskAssigned) dueLine now w in
       result r' = AtAddTitle /\ world_of r' = w.
Proof.
  intros Hp r.
  destruct (create_unparsed titleLine assignedLine dueLine now w Hp) as [Hr Hw].
  repeat split; auto.
  - unfold r, create, addTask_submit. rewrite Hp. left. reflexivity.
  - unfold step, addTask_submit. rewrite Hp. reflexivity.
  - unfold step, addTask_submit. rewrite Hp. reflexivity.
Qed.

Lemma create_rejects_bad_date_witness :
  let w := mkWorld [sampleTask 1 "A"] emptyDisk in
  time_Parse (strings_TrimSpace "2024-12-25") = None
  /\ world_of (create "walk dog" "" "2024-12-25" noon w) = w.
Proof.
  intros w.
  assert (H : time_Parse (strings_TrimSpace "2024-12-25") = None)
    by (vm_compute; reflexivity).
  split; [ exact H | ].
  exact (proj1 (proj2 (create_rejects_bad_date "walk dog" "" "2024-12-25" noon w H))).
Defined.

Lemma upperByte_not_lower (c : ascii) : isLower (upperByte c) = false.
Proof.
  destruct c as [[|] [|] [|] [|] [|] [|] [|] [|]]; reflexivity.
Qed.

Lemma ToUpper_noLower (s : string) : noLower (strings_ToUpper s) = true.
Proof.
  induction s as [ | c s IH ]; simpl; [ reflexivity | ].
  now rewrite upperByte_not_lower, IH.
Qed.




(** ** Deleting a task *)

(** C6: when no task has the ID, [deleteById] answers [NotFound], prints
    the message, and the world (the tasks in their order, and the file) is
    as before; the program stays at the prompt of [deleteTask]. *)
Theorem deleteById_not_found (id : Z) (w : World) :
  ~ In id (ids (TasksSlice w)) ->
  let r := deleteById id w in
  result r = NotFound
  /\ world_of r = w
  /\ In (Print (Red ++ "Task not found!" ++ Reset ++ nl)) (output r)
  /\ forall line now,
       strings_ToUpper (strings_TrimSpace line) <> "Q" ->
       strconv_Atoi (strings_TrimSpace line) = Some id ->
       let r' := step AtDelete line now w in
       result r' = AtDelete /\ world_of r' = w.
Proof.
  intros Hn r. unfold r. rewrite (deleteById_absent id w Hn).
  repeat split; [ now left | | ].
  - unfold step. apply String.eqb_neq in H. rewrite H, H0.
    unfold bind. rewrite (deleteById_absent id w Hn). reflexivity.
  - unfold step. apply String.eqb_neq in H. rewrite H, H0.
    unfold bind. rewrite (deleteById_absent id w Hn).
    cbn [fst snd world_of ret]. apply deleteTask_show_world.
Qed.

Lemma deleteById_not_found_witness :
  let w := mkWorld [sampleTask 1 "A"; sampleTask 2 "B"] emptyDisk in
  ~ In 7 (ids (TasksSlice w)) /\ world_of (deleteById 7 w) = w.
Proof.
  intros w.
  assert (Hn : ~ In 7 (ids (TasksSlice w))).
  { simpl. intros [H | [H | H]]; [ discriminate | discriminate | exact H ]. }
  split; [ exact Hn | ].
  apply (deleteById_not_found 7 w Hn).
Defined.

Lemma ids_app (l1 l2 : list Task) : ids (l1 ++ l2) = (ids l1 ++ ids l2)%list.
Proof. apply map_app. Qed.

Lemma filter_absent (id : Z) (l : list Task) :
  ~ In id (ids l) -> filter (fun t => negb (ID t =? id)) l = l.
Proof.
  induction l as [ | t l IH ]; intros Hn; simpl; [ reflexivity | ].
  simpl in Hn. destruct (ID t =? id) eqn:E.
  - apply Z.eqb_eq in E. tauto.
  - simpl. rewrite IH; tauto.
Qed.

(** C2, as the code has it: a successful [deleteById] removes the first
    task with the ID and leaves the other tasks in their order.  When the
    IDs of the store are distinct no task with the ID is left, and what is
    left is the store without that task. *)
Theorem deleteById_removes_first (id : Z) (w : World) :
  In id (ids (TasksSlice w)) ->
  let r := deleteById id w in
  result r = Deleted
  /\ (exists l1 t l2,
        TasksSlice w = (l1 ++ t :: l2)%list /\ ID t = id /\ ~ In id (ids l1)
        /\ TasksSlice (world_of r) = (l1 ++ l2)%list)
  /\ (NoDup (ids (TasksSlice w)) ->
        ~ In id (ids (TasksSlice (world_of r)))
        /\ TasksSlice (world_of r)
           = filter (fun t => negb (ID t =? id)) (TasksSlice w)).
Proof.
  intros Hin r.
  destruct (deleteById_present id w Hin) as (l1 & t & l2 & Hw & Hid & Hn & Hr & Ha).
  split; [ exact Hr | ]. split.
  - exists l1, t, l2. auto.
  - intros Hnd. unfold r. rewrite Ha.
    rewrite Hw, ids_app in Hnd. cbn [ids map] in Hnd. fold (ids l2) in Hnd.
    rewrite Hid in Hnd. apply NoDup_remove_2 in Hnd.
    split; [ now rewrite ids_app | ].
    rewrite Hw, filter_app. cbn [filter]. rewrite Hid, Z.eqb_refl. cbn [negb].
    rewrite !filter_absent; auto.
    + intros H. apply Hnd, in_or_app. now right.
Qed.

Lemma deleteById_removes_first_witness :
  let w := mkWorld [sampleTask 1 "A"; sampleTask 2 "B"; sampleTask 3 "C"] emptyDisk in
  In 2 (ids (TasksSlice w)) /\ result (deleteById 2 w) = Deleted.
Proof.
  intros w.
  assert (Hin : In 2 (ids (TasksSlice w))) by (simpl; auto).
  split; [ exact Hin | ].
  apply (deleteById_removes_first 2 w Hin).
Defined.

(** C2 as stated fails: in the store that three creates, the deletion of
    task 1 and one more create lead to, two tasks have ID 3, and after a
    successful [deleteById 3] one of them is still there. *)
Lemma deleteById_leaves_duplicate :
  let w := applyOps (threeThenDeleteFirst ++ [OpCreate "d" "" "Dec 25, 2024" noon])
                    (initialWorld emptyDisk) in
  ids (TasksSlice w) = [2; 3; 3]
  /\ In 3 (ids (TasksSlice w))
  /\ result (deleteById 3 w) = Deleted
  /\ In 3 (ids (TasksSlice (world_of (deleteById 3 w)))).
Proof.
  vm_compute. repeat split; auto.
Qed.

(** ** The ID of the next task *)

(** The ID that [create] gives is [nextID]. *)
Lemma create_uses_nextID (titleLine assignedLine dueLine : string)
    (now : Time) (w : World) (task : Task) :
  result (create titleLine assignedLine dueLine now w) = Added task ->
  ID task = nextID w.
Proof.
  intros H. destruct (create_result_inv _ _ _ _ _ _ H) as (dueDate & _ & ->).
  reflexivity.
Qed.

(** As long as no ID of the store is above its length, the next ID is
    new. *)
Lemma nextID_fresh_when_bounded (w : World) :
  Forall (fun id => id <= len (TasksSlice w)) (ids (TasksSlice w)) ->
  ~ In (nextID w) (ids (TasksSlice w)).
Proof.
  intros Hb Hin. rewrite Forall_forall in Hb. apply Hb in Hin.
  unfold nextID in Hin. lia.
Qed.

(** C1 fails on the code: after three creates and the deletion of task 1
    the store holds the tasks 2 and 3, and the next create assigns ID 3,
    the ID of a task of the store. *)
Theorem nextID_collides_after_delete :
  let w := applyOps threeThenDeleteFirst (initialWorld emptyDisk) in
  let r := create "d" "" "Dec 25, 2024" noon w in
  ids (TasksSlice w) = [2; 3]
  /\ nextID w = 3
  /\ In (nextID w) (ids (TasksSlice w))
  /\ result r = Added (mkTask 3 "D" "" false christmas noon)
  /\ ids (TasksSlice (world_of r)) = [2; 3; 3].
Proof.
  vm_compute. repeat split; auto.
Qed.

(** ** Loading *)

(** C9: when the file is not there, [loadTasks] leaves the slice as it is,
    which at the start of [main] is the empty slice, and nothing fails:
    the program comes up at the main menu with no task. *)
Theorem loadTasks_missing_file (d : Disk) :
  os_ReadFile d tasksFileName = None ->
  loadTasks (initialWorld d) = Some (initialWorld d)
  /\ TasksSlice (initialWorld d) = []
  /\ (forall w, disk w = d -> loadTasks w = Some w)
  /\ boot d = Some (mkConfig AtMain (initialWorld d),
                    output (showMenu (initialWorld d))).
Proof.
  intros H.
  assert (Hl : forall w, disk w = d -> loadTasks w = Some w).
  { intros w Hd. unfold loadTasks. rewrite Hd, H. reflexivity. }
  repeat split; auto.
  unfold boot. rewrite (Hl (initialWorld d) eq_refl).
  now rewrite showMenu_world.
Qed.

Lemma loadTasks_missing_file_witness :
  os_ReadFile emptyDisk tasksFileName = None
  /\ loadTasks (initialWorld emptyDisk) = Some (initialWorld emptyDisk).
Proof.
  split; [ reflexivity | ].
  exact (proj1 (loadTasks_missing_file emptyDisk eq_refl)).
Defined.

(** ** What the menu shows *)





(** ** The menu controller *)

(** A step from the prompt of [deleteTask]: the program goes back to the
    main menu or stays; where it stays, either nothing has changed or the
    store is not empty. *)
Lemma step_AtDelete_inv (l : string) (t : Time) (w : World) :
  let r := step AtDelete l t w in
  (result r = AtMain
   \/ (result r = AtDelete /\ world_of r = w)
   \/ (result r = AtDelete /\ TasksSlice (world_of r) <> []))
  /\ (result r = AtMain -> world_of r = w \/ TasksSlice (world_of r) = []).
Proof.
  cbv zeta. unfold step.
  destruct (String.eqb (strings_ToUpper (strings_TrimSpace l)) "Q").
  { autorewrite with go. rewrite showMenu_world. auto. }
  destruct (strconv_Atoi (strings_TrimSpace l)) as [ id | ].
  2:{ autorewrite with go. rewrite deleteTask_show_world. split; [ auto | discriminate ]. }
  destruct (in_dec Z.eq_dec id (ids (TasksSlice w))) as [ Hin | Hn ].
  - destruct (deleteById_present id w Hin) as (l1 & x & l2 & _ & _ & _ & Hr & Ha).
    autorewrite with go. rewrite Hr. cbv beta iota.
    autorewrite with go.
    destruct (len (TasksSlice (world_of (deleteById id w))) =? 0) eqn:E.
    + autorewrite with go. rewrite showMenu_world.
      apply Z.eqb_eq, len_zero_nil in E. auto.
    + autorewrite with go. rewrite deleteTask_show_world.
      apply Z.eqb_neq in E. rewrite len_zero_nil in E.
      split; [ auto | discriminate ].
  - autorewrite with go. rewrite (deleteById_absent id w Hn).
    cbn [result world_of fst snd]. autorewrite with go.
    rewrite deleteTask_show_world. split; [ auto | discriminate ].
Qed.

(** The prompt of [deleteTask] is entered from the main menu and from
    itself only, and never with an empty store. *)
Lemma step_into_delete (c : Ctrl) (l : string) (t : Time) (w : World) :
  (c = AtDelete -> TasksSlice w <> []) ->
  result (step c l t w) = AtDelete ->
  TasksSlice (world_of (step c l t w)) <> [].
Proof.
  intros Hinv. destruct c.
  - unfold step.
    repeat match goal with
           | |- context [if String.eqb ?a ?b then _ else _] =>
               destruct (String.eqb a b)
           end; autorewrite with go; try discriminate.
    destruct (0 <? len (TasksSlice w)) eqn:E; autorewrite with go;
      try discriminate.
    intros _. rewrite deleteTask_show_world. now apply len_pos_not_nil.
  - unfold step. autorewrite with go. discriminate.
  - unfold step. autorewrite with go. discriminate.
  - unfold step, addTask_submit.
    destruct (time_Parse (strings_TrimSpace l)); autorewrite with go;
      discriminate.
  - unfold step.
    repeat match goal with
           | |- context [if String.eqb ?a ?b then _ else _] =>
               destruct (String.eqb a b)
           end; autorewrite with go; discriminate.
  - unfold step. autorewrite with go. discriminate.
  - intros Hr.
    destruct (step_AtDelete_inv l t w) as [[H | [[_ H] | [_ H]]] _].
    + rewrite Hr in H. discriminate.
    + rewrite H. now apply Hinv.
    + exact H.
  - unfold step. autorewrite with go. discriminate.
Qed.

Lemma reachable_delete_nonempty (cf : Config) :
  reachable cf -> ctrl cf = AtDelete -> TasksSlice (world cf) <> [].
Proof.
  induction 1 as [ w | cf i Hr IH ].
  - discriminate.
  - unfold next. cbn [fst ctrl world]. apply step_into_delete. exact IH.
Qed.

Lemma menuState_deleting (c : Ctrl) : menuState c = DeletingTask <-> c = AtDelete.
Proof. destruct c; simpl; split; intros H; try discriminate; reflexivity. Qed.

Lemma menuState_main (c : Ctrl) : menuState c = MainMenu <-> c = AtMain.
Proof. destruct c; simpl; split; intros H; try discriminate; reflexivity. Qed.

(** C8: in every configuration the program can be in, the controller is
    not in [DeletingTask] with an empty store; at the main menu the
    command D enters [DeletingTask] when the store has a task and
    otherwise prints the three "Wrong Input" screens, each cleared after
    400 ms, and then the menu of the empty store; and a step from
    [DeletingTask] that leaves the store empty ends in [MainMenu]. *)
Theorem never_deleting_on_empty_store (cf : Config) :
  reachable cf ->
  (menuState (ctrl cf) = DeletingTask -> TasksSlice (world cf) <> [])
  /\ (forall i,
        menuState (ctrl cf) = MainMenu ->
        strings_ToUpper (strings_TrimSpace (line i)) = "D" ->
        (TasksSlice (world cf) <> [] ->
           menuState (ctrl (fst (next cf i))) = DeletingTask
           /\ world (fst (next cf i)) = world cf)
        /\ (TasksSlice (world cf) = [] ->
              menuState (ctrl (fst (next cf i))) = MainMenu
              /\ world (fst (next cf i)) = world cf
              /\ snd (next cf i)
                 = (wrongInputScreens
                    ++ output (showMenu (world cf)))%list
              /\ In noTasksYet (snd (next cf i))))
  /\ (forall i,
        menuState (ctrl cf) = DeletingTask ->
        TasksSlice (world (fst (next cf i))) = [] ->
        menuState (ctrl (fst (next cf i))) = MainMenu).
Proof.
  intros Hr. split; [ | split ].
  - rewrite menuState_deleting. now apply reachable_delete_nonempty.
  - intros i Hm Hd. apply menuState_main in Hm.
    unfold next. rewrite Hm. cbn [fst snd ctrl world]. unfold step. rewrite Hd.
    cbn [String.eqb Ascii.eqb Bool.eqb]. autorewrite with go. split.
    + intros Hne. apply len_pos_not_nil in Hne. rewrite Hne.
      autorewrite with go. rewrite deleteTask_show_world. split; reflexivity.
    + intros He. rewrite He. cbn [len List.length Z.of_nat Z.ltb Z.compare].
      autorewrite with go. rewrite showMenu_world.
      rewrite List.app_nil_r.
      split; [ reflexivity | ]. split; [ reflexivity | ].
      split; [ reflexivity | ].
      cbn [app]. apply in_or_app. right. unfold showMenu.
      autorewrite with go. rewrite He. right. left. reflexivity.
  - intros i Hd He. apply menuState_deleting in Hd.
    pose proof (reachable_delete_nonempty cf Hr Hd) as Hne.
    unfold next in *. rewrite Hd in *. cbn [fst ctrl world] in *.
    destruct (step_AtDelete_inv (line i) (now i) (world cf))
      as [[H | [[_ H] | [_ H]]] _].
    + rewrite H. reflexivity.
    + rewrite H in He. contradiction.
    + contradiction.
Qed.

Lemma never_deleting_on_empty_store_witness :
  let cf := fst (next (mkConfig AtMain (mkWorld [sampleTask 1 "A"] emptyDisk))
                      (mkInput "d" noon)) in
  let cf0 := mkConfig AtMain (initialWorld emptyDisk) in
  reachable cf
  /\ menuState (ctrl cf) = DeletingTask
  /\ TasksSlice (world cf) <> []
  /\ reachable cf0
  /\ snd (next cf0 (mkInput "d" noon))
     = (wrongInputScreens ++ output (showMenu (initialWorld emptyDisk)))%list.
Proof.
  intros cf cf0.
  assert (Hr : reachable cf) by (apply reach_next, reach_boot).
  assert (Hr0 : reachable cf0) by apply reach_boot.
  split; [ exact Hr | ]. split; [ reflexivity | ].
  split; [ exact (proj1 (never_deleting_on_empty_store cf Hr) eq_refl) | ].
  split; [ exact Hr0 | ].
  destruct (proj1 (proj2 (never_deleting_on_empty_store cf0 Hr0))
              (mkInput "d" noon) eq_refl eq_refl) as [_ H].
  exact (proj1 (proj2 (proj2 (H eq_refl)))).
Defined.

(** ** Strings *)

Lemma append_assoc (a b c : string) : (a ++ b) ++ c = a ++ (b ++ c).
Proof. induction a as [ | x a IH ]; simpl; [ reflexivity | now rewrite IH ]. Qed.

Lemma append_nil_r (a : string) : a ++ "" = a.
Proof. induction a as [ | x a IH ]; simpl; [ reflexivity | now rewrite IH ]. Qed.

Lemma length_append (a b : string) :
  String.length (a ++ b) = (String.length a + String.length b)%nat.
Proof. induction a as [ | x a IH ]; simpl; [ reflexivity | now rewrite IH ]. Qed.

Lemma take_append (a b : string) : take (String.length a) (a ++ b) = a.
Proof. induction a as [ | x a IH ]; simpl; [ now destruct b | now rewrite IH ]. Qed.

Lemma drop_append (a b : string) : drop (String.length a) (a ++ b) = b.
Proof. induction a as [ | x a IH ]; simpl; [ reflexivity | exact IH ]. Qed.

Lemma stripPrefix_append (a b : string) : stripPrefix a (a ++ b) = Some b.
Proof.
  induction a as [ | x a IH ]; simpl; [ reflexivity | ].
  now rewrite Ascii.eqb_refl.
Qed.

(** ** Decimal numbers *)

(** Evaluate the tests on a byte that is known. *)
Ltac eval_byte :=
  repeat match goal with
         | |- context [isDigit (Ascii ?a ?b ?c ?d ?e ?f ?g ?h)] =>
             let v := eval vm_compute in (isDigit (Ascii a b c d e f g h)) in
             change (isDigit (Ascii a b c d e f g h)) with v
         | |- context [digitVal (Ascii ?a ?b ?c ?d ?e ?f ?g ?h)] =>
             let v := eval vm_compute in (digitVal (Ascii a b c d e f g h)) in
             change (digitVal (Ascii a b c d e f g h)) with v
         end.

Section Decimal.

Import Decimal.

Lemma digits_acc_pos (d : uint) (acc : positive) :
  digits_acc (Z.pos acc) (NilEmpty.string_of_uint d)
  = Some (Z.pos (Pos.of_uint_acc d acc)).
Proof.
  revert acc.
  induction d as [ | d IH | d IH | d IH | d IH | d IH | d IH | d IH | d IH
                 | d IH | d IH ]; intros acc;
    cbn [NilEmpty.string_of_uint digits_acc Pos.of_uint_acc];
    [ reflexivity | .. ];
    eval_byte; cbv iota; rewrite <- IH; f_equal; lia.
Qed.

Lemma digits_acc_uint (d : uint) :
  digits_acc 0 (NilEmpty.string_of_uint d) = Some (Z.of_uint d).
Proof.
  unfold Z.of_uint.
  induction d as [ | d IH | d IH | d IH | d IH | d IH | d IH | d IH | d IH
                 | d IH | d IH ];
    cbn [NilEmpty.string_of_uint digits_acc Pos.of_uint];
    [ reflexivity | eval_byte; cbv iota; exact IH | .. ];
    eval_byte; cbv iota; cbn [Z.mul Z.add Z.of_N]; apply digits_acc_pos.
Qed.

Lemma string_of_uint_allDigits (d : uint) :
  allDigits (NilEmpty.string_of_uint d) = true.
Proof.
  induction d; cbn [NilEmpty.string_of_uint allDigits]; [ reflexivity | .. ];
    eval_byte; exact IHd.
Qed.

Lemma string_of_uint_length (d : uint) :
  String.length (NilEmpty.string_of_uint d) = nb_digits d.
Proof. induction d; simpl; congruence. Qed.

(** With an accumulator of at least one, every digit multiplies by ten. *)
Lemma of_uint_acc_lower (d : uint) (acc : positive) :
  Z.pos acc * 10 ^ Z.of_nat (nb_digits d) <= Z.pos (Pos.of_uint_acc d acc).
Proof.
  revert acc.
  induction d as [ | d IH | d IH | d IH | d IH | d IH | d IH | d IH | d IH
                 | d IH | d IH ]; intros acc;
    cbn [nb_digits Pos.of_uint_acc];
    [ rewrite Z.pow_0_r; lia | .. ];
    rewrite Nat2Z.inj_succ, Z.pow_succ_r by lia;
    (etransitivity; [ | apply IH ]);
    apply Z.le_trans with (Z.pos (10 * acc) * 10 ^ Z.of_nat (nb_digits d));
    try (apply Z.mul_le_mono_nonneg_r; [ apply Z.pow_nonneg; lia | lia ]);
    lia.
Qed.

End Decimal.

Section Itoa.

Import Decimal.

Lemma string_of_uint_nonnil (d : uint) :
  d <> Nil -> NilZero.string_of_uint d = NilEmpty.string_of_uint d.
Proof. destruct d; intros H; [ congruence | reflexivity .. ]. Qed.

Lemma Itoa_nonneg (z : Z) :
  0 <= z ->
  strconv_Itoa z = NilEmpty.string_of_uint (N.to_uint (Z.to_N z)).
Proof.
  intros Hz. destruct z as [ | p | p ]; [ reflexivity | | lia ].
  unfold strconv_Itoa. cbn [Z.to_int Z.to_N N.to_uint NilZero.string_of_int].
  apply string_of_uint_nonnil, DecimalPos.Unsigned.to_uint_nonnil.
Qed.

Lemma Itoa_neg (p : positive) :
  strconv_Itoa (Z.neg p) = String "-"%char (strconv_Itoa (Z.pos p)).
Proof. reflexivity. Qed.

Lemma Itoa_allDigits (z : Z) : 0 <= z -> allDigits (strconv_Itoa z) = true.
Proof. intros Hz. rewrite Itoa_nonneg by exact Hz. apply string_of_uint_allDigits. Qed.

Lemma to_uint_shape (p : positive) :
  exists c r,
    NilEmpty.string_of_uint (Pos.to_uint p) = String c r
    /\ isDigit c = true /\ Ascii.eqb c "0"%char = false
    /\ 10 ^ Z.of_nat (String.length r) <= Z.pos p.
Proof.
  pose proof (DecimalPos.Unsigned.of_to p) as Hof.
  pose proof (DecimalN.Unsigned.to_of (Pos.to_uint p)) as Hto.
  unfold N.of_uint in Hto. rewrite Hof in Hto. cbn [N.to_uint] in Hto.
  pose proof (DecimalPos.Unsigned.to_uint_nonzero p) as Hnz.
  assert (Hh : nzhead (Pos.to_uint p) = Pos.to_uint p).
  { unfold unorm in Hto. destruct (nzhead (Pos.to_uint p)) eqn:E;
      try (symmetry; exact Hto).
    exfalso. apply Hnz. exact Hto. }
  pose proof (DecimalPos.Unsigned.to_uint_nonnil p) as Hnn.
  destruct (Pos.to_uint p) as [ | d | d | d | d | d | d | d | d | d | d ] eqn:E;
    [ congruence
    | exfalso; exact (DecimalFacts.nzhead_nonzero _ _ Hh)
    | .. ];
    cbn [NilEmpty.string_of_uint];
    (eexists; eexists; split; [ reflexivity | ]);
    (split; [ reflexivity | split; [ reflexivity | ] ]);
    rewrite string_of_uint_length;
    cbn [Pos.of_uint] in Hof; injection Hof as Hof; rewrite <- Hof;
    (etransitivity; [ | apply of_uint_acc_lower ]);
    (apply Z.le_trans with (1 * 10 ^ Z.of_nat (nb_digits d)); [ lia | ]);
    apply Z.mul_le_mono_nonneg_r; try (apply Z.pow_nonneg); lia.
Qed.

Lemma Itoa_canonical (z : Z) : 0 <= z -> canonicalDigits (strconv_Itoa z) = true.
Proof.
  intros Hz. destruct z as [ | p | p ]; [ reflexivity | | lia ].
  pose proof (Itoa_allDigits (Z.pos p) Hz) as Ha.
  rewrite Itoa_nonneg in * by exact Hz. cbn [Z.to_N N.to_uint] in *.
  destruct (to_uint_shape p) as (c & r & E & Hd & H0 & _).
  rewrite E in *. cbn [allDigits] in Ha. rewrite Hd in Ha. cbn [andb] in Ha.
  unfold canonicalDigits. destruct r; [ exact Hd | ].
  now rewrite Hd, H0, Ha.
Qed.

Lemma Itoa_value (z : Z) : 0 <= z -> parseDigits (strconv_Itoa z) = Some z.
Proof.
  intros Hz. pose proof (Itoa_canonical z Hz) as Hc.
  rewrite Itoa_nonneg in * by exact Hz.
  unfold parseDigits.
  destruct (NilEmpty.string_of_uint (N.to_uint (Z.to_N z))) eqn:E;
    [ discriminate | ].
  rewrite <- E, digits_acc_uint. unfold Z.of_uint.
  change (Pos.of_uint (N.to_uint (Z.to_N z))) with (N.of_uint (N.to_uint (Z.to_N z))).
  rewrite DecimalN.Unsigned.of_to. f_equal. lia.
Qed.

Lemma Itoa_length (z : Z) (width : nat) :
  0 <= z < 10 ^ Z.of_nat width -> (1 <= width)%nat ->
  (String.length (strconv_Itoa z) <= width)%nat.
Proof.
  intros [Hz Hlt] Hw. destruct z as [ | p | p ]; [ simpl; lia | | lia ].
  rewrite Itoa_nonneg by exact Hz. cbn [Z.to_N N.to_uint].
  destruct (to_uint_shape p) as (c & r & E & _ & _ & Hlow).
  rewrite E. cbn [String.length].
  destruct (Nat.le_gt_cases (S (String.length r)) width) as [ Hle | Hgt ];
    [ exact Hle | exfalso ].
  assert (10 ^ Z.of_nat width <= 10 ^ Z.of_nat (String.length r))
    by (apply Z.pow_le_mono_r; lia).
  lia.
Qed.

End Itoa.

(** ** The decoder on what the encoder writes: numbers *)

Lemma endsNumber_endsDigits (s : string) :
  endsNumber s = true -> endsDigits s = true.
Proof.
  destruct s as [ | c r ]; [ reflexivity | ]. simpl.
  destruct (isDigit c); [ discriminate | reflexivity ].
Qed.

Lemma spanDigits_append (s rest : string) :
  allDigits s = true -> endsDigits rest = true ->
  spanDigits (s ++ rest) = (s, rest).
Proof.
  intros Hs Hr. induction s as [ | c s IH ].
  - destruct rest as [ | c r ]; [ reflexivity | ].
    simpl in *. now destruct (isDigit c).
  - simpl in *. apply andb_prop in Hs. destruct Hs as [Hc Hs].
    rewrite Hc, (IH Hs). reflexivity.
Qed.

Lemma canonicalDigits_allDigits (s : string) :
  canonicalDigits s = true -> allDigits s = true.
Proof.
  destruct s as [ | c [ | c' r ] ]; [ discriminate | | ]; simpl.
  - intros ->. reflexivity.
  - intros H. apply andb_prop in H. destruct H as [H Hr].
    apply andb_prop in H. destruct H as [Hc _]. now rewrite Hc.
Qed.

Lemma digit_not_minus (c : ascii) :
  isDigit c = true -> Ascii.eqb c "-"%char = false.
Proof.
  destruct c as [[|] [|] [|] [|] [|] [|] [|] [|]]; intros H;
    try reflexivity; discriminate H.
Qed.

Lemma spanDigits_Itoa (n : Z) (rest : string) :
  0 <= n -> endsNumber rest = true ->
  spanDigits (strconv_Itoa n ++ rest) = (strconv_Itoa n, rest).
Proof.
  intros Hn Hrest. apply spanDigits_append;
    [ now apply Itoa_allDigits | now apply endsNumber_endsDigits ].
Qed.

Lemma decodeInt_nonneg (n : Z) (rest : string) :
  0 <= n <= MaxInt64 -> endsNumber rest = true ->
  decodeInt (strconv_Itoa n ++ rest) = Some (n, rest).
Proof.
  intros Hn Hrest. unfold decodeInt.
  pose proof (Itoa_canonical n (proj1 Hn)) as Hc.
  destruct (strconv_Itoa n) as [ | c r ] eqn:E; [ discriminate Hc | ].
  cbn [append].
  rewrite digit_not_minus.
  2:{ apply canonicalDigits_allDigits in Hc. simpl in Hc.
      now apply andb_prop in Hc. }
  change (String c (r ++ rest)) with (String c r ++ rest).
  rewrite <- E, spanDigits_Itoa by (auto; lia).
  rewrite Itoa_canonical, Hrest, Itoa_value by lia.
  cbn [andb]. cbv beta iota.
  replace ((MinInt64 <=? n) && (n <=? MaxInt64)) with true; [ reflexivity | ].
  symmetry. apply andb_true_intro.
  split; apply Z.leb_le; unfold MinInt64; lia.
Qed.

(** The decoder reads back the integer that the encoder writes. *)
Lemma decodeInt_Itoa (z : Z) (rest : string) :
  between MinInt64 MaxInt64 z = true -> endsNumber rest = true ->
  decodeInt (strconv_Itoa z ++ rest) = Some (z, rest).
Proof.
  intros Hb Hrest. unfold between in Hb.
  destruct z as [ | p | p ].
  - apply decodeInt_nonneg; [ unfold MaxInt64; lia | exact Hrest ].
  - apply decodeInt_nonneg; [ | exact Hrest ].
    apply andb_prop in Hb. destruct Hb as [_ Hb]. apply Z.leb_le in Hb. lia.
  - rewrite Itoa_neg. unfold decodeInt. cbn [append].
    change (Ascii.eqb "-"%char "-"%char) with true. cbv iota.
    rewrite spanDigits_Itoa by (auto; lia).
    rewrite Itoa_canonical, Hrest, Itoa_value by lia.
    cbn [andb]. cbv beta iota.
    change (- Z.pos p) with (Z.neg p). rewrite Hb. reflexivity.
Qed.

(** ** The decoder on what the encoder writes: times *)

Ltac split_andb :=
  repeat match goal with
         | H : _ && _ = true |- _ =>
             let H1 := fresh H in
             apply andb_prop in H; destruct H as [H H1]
         | H : between _ _ _ = true |- _ => unfold between in H
         end;
  repeat match goal with
         | H : (_ <=? _) = true |- _ => apply Z.leb_le in H
         | H : (_ <? _) = true |- _ => apply Z.ltb_lt in H
         | H : (_ =? _) = true |- _ => apply Z.eqb_eq in H
         end.

Lemma digits_acc_append (a : Z) (s1 s2 : string) :
  digits_acc a (s1 ++ s2)
  = match digits_acc a s1 with
    | Some b => digits_acc b s2
    | None => None
    end.
Proof.
  revert a. induction s1 as [ | c s1 IH ]; intros a; simpl; [ reflexivity | ].
  destruct (isDigit c); [ apply IH | reflexivity ].
Qed.

Lemma digits_acc_zeros (a : Z) (k : nat) :
  digits_acc a (zeros k) = Some (a * 10 ^ Z.of_nat k).
Proof.
  revert a. induction k as [ | k IH ]; intros a.
  - simpl. f_equal. lia.
  - cbn [zeros digits_acc]. eval_byte. cbv iota. rewrite IH. f_equal.
    rewrite Nat2Z.inj_succ, Z.pow_succ_r by lia. lia.
Qed.

Lemma allDigits_append (s1 s2 : string) :
  allDigits (s1 ++ s2) = allDigits s1 && allDigits s2.
Proof.
  induction s1 as [ | c s1 IH ]; simpl; [ reflexivity | ].
  now rewrite IH, andb_assoc.
Qed.

Lemma allDigits_zeros (k : nat) : allDigits (zeros k) = true.
Proof. induction k as [ | k IH ]; [ reflexivity | exact IH ]. Qed.

Lemma length_zeros (k : nat) : String.length (zeros k) = k.
Proof. induction k as [ | k IH ]; simpl; congruence. Qed.

(** A number below [10 ^ width] is written in exactly [width] digits, and
    these digits are the number. *)
Lemma pad_spec (width : nat) (x : Z) :
  0 <= x < 10 ^ Z.of_nat width -> (1 <= width)%nat ->
  String.length (pad width x) = width
  /\ allDigits (pad width x) = true
  /\ digits_acc 0 (pad width x) = Some x.
Proof.
  intros Hx Hw. unfold pad.
  pose proof (Itoa_length x width Hx Hw) as Hl.
  pose proof (Itoa_value x (proj1 Hx)) as Hv.
  repeat split.
  - rewrite length_append, length_zeros. lia.
  - rewrite allDigits_append, allDigits_zeros, Itoa_allDigits by lia. reflexivity.
  - rewrite digits_acc_append, digits_acc_zeros. cbn [Z.mul].
    unfold parseDigits in Hv. destruct (strconv_Itoa x); [ discriminate | exact Hv ].
Qed.

Lemma appendInt_nonneg (width : nat) (x : Z) :
  0 <= x -> appendInt width x = pad width x.
Proof.
  intros Hx. unfold appendInt. destruct (x <? 0) eqn:E; [ | reflexivity ].
  apply Z.ltb_lt in E. lia.
Qed.

Lemma parseDigits_nonempty (s : string) :
  (1 <= String.length s)%nat -> parseDigits s = digits_acc 0 s.
Proof. destruct s; simpl; [ lia | reflexivity ]. Qed.

Lemma parseUint_appendInt (width : nat) (lo hi x : Z) (rest : string) :
  0 <= x < 10 ^ Z.of_nat width -> (1 <= width)%nat -> lo <= x <= hi ->
  parseUint width lo hi (appendInt width x ++ rest) = Some (x, rest).
Proof.
  intros Hx Hw Hr. rewrite appendInt_nonneg by lia.
  destruct (pad_spec width x Hx Hw) as (Hl & _ & Hv).
  unfold parseUint. rewrite length_append, Hl.
  replace (width <=? width + String.length rest)%nat with true
    by (symmetry; apply Nat.leb_le; lia).
  pose proof (take_append (pad width x) rest) as Ht.
  pose proof (drop_append (pad width x) rest) as Hd.
  rewrite Hl in Ht, Hd. rewrite Ht, Hd.
  rewrite parseDigits_nonempty, Hv by lia.
  replace ((lo <=? x) && (x <=? hi)) with true; [ reflexivity | ].
  symmetry. apply andb_true_intro. split; apply Z.leb_le; lia.
Qed.

(** Two digits, as a string of two bytes. *)
Lemma appendInt2_shape (x : Z) :
  0 <= x < 100 ->
  exists c0 c1, appendInt 2 x = String c0 (String c1 "").
Proof.
  intros Hx. rewrite appendInt_nonneg by lia.
  destruct (pad_spec 2 x ltac:(simpl; lia) ltac:(lia)) as (Hl & _ & _).
  destruct (pad 2 x) as [ | c0 [ | c1 [ | c2 r ] ] ]; try discriminate.
  now exists c0, c1.
Qed.

(** What [trimZeros] cuts off is zeros. *)
Lemma trimZeros_spec (s : string) :
  exists k, s = trimZeros s ++ zeros k.
Proof.
  induction s as [ | c s [k IH] ].
  - exists O. reflexivity.
  - cbn [trimZeros]. destruct (trimZeros s) as [ | c' r ] eqn:E.
    + destruct (Ascii.eqb c "0"%char) eqn:E0.
      * apply Ascii.eqb_eq in E0. subst c. exists (S k).
        simpl in *. now rewrite <- IH.
      * exists k. simpl in *. now rewrite <- IH.
    + exists k. simpl in *. now rewrite <- IH.
Qed.

Lemma noQuote_append (s1 s2 : string) :
  noQuote (s1 ++ s2) = noQuote s1 && noQuote s2.
Proof.
  induction s1 as [ | c s1 IH ]; simpl; [ reflexivity | ].
  now rewrite IH, andb_assoc.
Qed.

Lemma digit_not_quote (c : ascii) :
  isDigit c = true -> (byte_of c =? 34) = false.
Proof.
  unfold isDigit. intros H. split_andb. apply Z.eqb_neq. lia.
Qed.

Lemma allDigits_noQuote (s : string) : allDigits s = true -> noQuote s = true.
Proof.
  induction s as [ | c s IH ]; simpl; [ reflexivity | ].
  intros H. apply andb_prop in H. destruct H as [Hc Hs].
  now rewrite (digit_not_quote c Hc), IH.
Qed.

Lemma spanQuote_append (s rest : string) :
  noQuote s = true -> spanQuote (s ++ quote ++ rest) = Some (s, rest).
Proof.
  induction s as [ | c s IH ]; intros H.
  - reflexivity.
  - simpl in H. apply andb_prop in H. destruct H as [Hc Hs].
    apply negb_true_iff in Hc. cbn [append spanQuote]. rewrite Hc.
    change (s ++ String "034"%char rest) with (s ++ quote ++ rest).
    now rewrite (IH Hs).
Qed.

Lemma take_all (n : nat) (s : string) :
  (String.length s <= n)%nat -> take n s = s.
Proof.
  revert n. induction s as [ | c s IH ]; intros [ | n ] H; simpl in *;
    try reflexivity; try lia.
  now rewrite IH by lia.
Qed.

(** The nanoseconds come back from their trimmed digits. *)
Lemma parseNanoseconds_trimZeros (ns : Z) :
  0 < ns <= 999999999 ->
  exists c r,
    trimZeros (appendInt 9 ns) = String c r
    /\ allDigits (String c r) = true
    /\ parseNanoseconds (String c r) = Some ns.
Proof.
  intros Hns. rewrite appendInt_nonneg by lia.
  destruct (pad_spec 9 ns ltac:(simpl; lia) ltac:(lia)) as (Hl & Ha & Hv).
  destruct (trimZeros_spec (pad 9 ns)) as [k Hk].
  set (tz := trimZeros (pad 9 ns)) in *.
  rewrite Hk in Hl, Ha, Hv.
  rewrite length_append, length_zeros in Hl.
  rewrite allDigits_append in Ha. apply andb_prop in Ha. destruct Ha as [Ha _].
  rewrite digits_acc_append in Hv.
  destruct tz as [ | c r ] eqn:E.
  - simpl in Hv. rewrite digits_acc_zeros in Hv. injection Hv as Hv. lia.
  - exists c, r. repeat split; [ exact Ha | ].
    unfold parseNanoseconds. rewrite take_all by lia.
    rewrite parseDigits_nonempty by (simpl; lia).
    destruct (digits_acc 0 (String c r)) as [ x | ]; [ | discriminate ].
    rewrite digits_acc_zeros in Hv. injection Hv as Hv.
    replace (9 - String.length (String c r))%nat with k by lia.
    now rewrite Hv.
Qed.

Lemma parseFraction_appendNano (ns : Z) (c : ascii) (zone : string) :
  0 <= ns <= 999999999 ->
  isDigit c = false -> Ascii.eqb c "."%char = false ->
  parseFraction (appendNano ns ++ String c zone) = Some (ns, String c zone).
Proof.
  intros Hns Hc Hdot. unfold appendNano.
  destruct (ns =? 0) eqn:E0.
  - apply Z.eqb_eq in E0. subst ns. cbn [append parseFraction].
    destruct zone; [ reflexivity | ]. now rewrite Hdot.
  - apply Z.eqb_neq in E0.
    destruct (parseNanoseconds_trimZeros ns ltac:(lia)) as (c1 & r1 & Htz & Ha & Hp).
    rewrite Htz. cbn [append parseFraction].
    change (Ascii.eqb "."%char "."%char) with true.
    assert (Hc1 : isDigit c1 = true) by (simpl in Ha; now apply andb_prop in Ha).
    rewrite Hc1. cbn [andb].
    change (String c1 (r1 ++ String c zone)) with (String c1 r1 ++ String c zone).
    rewrite spanDigits_append; [ | exact Ha | simpl; now rewrite Hc ].
    now rewrite Hp.
Qed.

Lemma parseUint_two (lo hi x : Z) :
  0 <= x < 100 -> lo <= x <= hi ->
  parseUint 2 lo hi (appendInt 2 x) = Some (x, "").
Proof.
  intros Hx Hr.
  rewrite <- (append_nil_r (appendInt 2 x)).
  apply parseUint_appendInt; [ simpl; lia | lia | exact Hr ].
Qed.

Lemma parseZone_zoneText (offset : Z) :
  Z.rem offset 60 = 0 -> Z.abs offset < 86400 ->
  parseZone (zoneText offset) = Some offset
  /\ exists c r,
       zoneText offset = String c r
       /\ isDigit c = false /\ Ascii.eqb c "."%char = false.
Proof.
  intros Hrem Habs. unfold zoneText.
  destruct (offset =? 0) eqn:E0.
  { apply Z.eqb_eq in E0. subst offset. split; [ reflexivity | ].
    exists "Z"%char, "". repeat split. }
  apply Z.eqb_neq in E0.
  pose proof (Z.quot_rem' offset 60) as Hq. rewrite Hrem in Hq.
  set (zone := Z.quot offset 60) in *.
  assert (Hz : Z.abs zone < 1440) by lia.
  assert (Hh : 0 <= Z.abs zone / 60 < 24)
    by (split; [ apply Z.div_pos; lia | apply Z.div_lt_upper_bound; lia ]).
  assert (Hm : 0 <= Z.abs zone mod 60 < 60) by (apply Z.mod_pos_bound; lia).
  pose proof (Z.div_mod (Z.abs zone) 60 ltac:(lia)) as Hdm.
  destruct (appendInt2_shape (Z.abs zone / 60) ltac:(lia)) as (h0 & h1 & Eh).
  destruct (appendInt2_shape (Z.abs zone mod 60) ltac:(lia)) as (m0 & m1 & Em).
  pose proof (parseUint_two 0 23 (Z.abs zone / 60) ltac:(lia) ltac:(lia)) as Ph.
  pose proof (parseUint_two 0 59 (Z.abs zone mod 60) ltac:(lia) ltac:(lia)) as Pm.
  rewrite Eh in *. rewrite Em in *.
  destruct (zone <? 0) eqn:En.
  - apply Z.ltb_lt in En. split.
    + cbn [append parseZone]. rewrite Ph, Pm. cbn. f_equal. lia.
    + exists "-"%char. eexists. repeat split.
  - apply Z.ltb_ge in En. split.
    + cbn [append parseZone]. rewrite Ph, Pm. cbn. f_equal. lia.
    + exists "+"%char. eexists. repeat split.
Qed.

Lemma daysIn_bound (m y : Z) : 28 <= daysIn m y <= 31.
Proof.
  unfold daysIn.
  destruct m as [ | p | p ]; try lia;
    repeat (destruct p as [ p | p | ]; try lia);
    destruct (isLeap y); lia.
Qed.

(** [parseRFC3339] reads back the time that [appendFormatRFC3339]
    writes. *)
Lemma parseRFC3339_format (t : Time) :
  validTime t = true -> parseRFC3339 (appendFormatRFC3339 t) = Some t.
Proof.
  intros Hv. unfold validTime in Hv. split_andb.
  destruct t as [y mo d h mi s ns off]. cbn [year month day hour minute second
    nanosecond zoneOffset] in *.
  pose proof (daysIn_bound mo y) as Hdays.
  destruct (parseZone_zoneText off Hv1 Hv0) as (Hz & c & r & Ez & Hc & Hdot).
  unfold parseRFC3339, appendFormatRFC3339.
  cbn [year month day hour minute second nanosecond zoneOffset].
  rewrite parseUint_appendInt by (simpl; lia). cbv beta iota.
  rewrite (stripPrefix_append "-"). cbv beta iota.
  rewrite parseUint_appendInt by (simpl; lia). cbv beta iota.
  rewrite (stripPrefix_append "-"). cbv beta iota.
  rewrite parseUint_appendInt by (simpl; lia). cbv beta iota.
  rewrite (stripPrefix_append "T"). cbv beta iota.
  rewrite parseUint_appendInt by (simpl; lia). cbv beta iota.
  rewrite (stripPrefix_append ":"). cbv beta iota.
  rewrite parseUint_appendInt by (simpl; lia). cbv beta iota.
  rewrite (stripPrefix_append ":"). cbv beta iota.
  rewrite parseUint_appendInt by (simpl; lia). cbv beta iota.
  rewrite Ez, parseFraction_appendNano by (auto; lia). cbv beta iota.
  rewrite <- Ez, Hz. reflexivity.
Qed.

Lemma appendInt_noQuote (width : nat) (x : Z) :
  0 <= x < 10 ^ Z.of_nat width -> (1 <= width)%nat ->
  noQuote (appendInt width x) = true.
Proof.
  intros Hx Hw. rewrite appendInt_nonneg by lia.
  apply allDigits_noQuote. now destruct (pad_spec width x Hx Hw) as (_ & Ha & _).
Qed.

Lemma appendNano_noQuote (ns : Z) :
  0 <= ns <= 999999999 -> noQuote (appendNano ns) = true.
Proof.
  intros Hns. unfold appendNano. destruct (ns =? 0) eqn:E; [ reflexivity | ].
  apply Z.eqb_neq in E.
  destruct (parseNanoseconds_trimZeros ns ltac:(lia)) as (c & r & -> & Ha & _).
  rewrite noQuote_append, (allDigits_noQuote _ Ha). reflexivity.
Qed.

Lemma zoneText_noQuote (offset : Z) :
  Z.rem offset 60 = 0 -> Z.abs offset < 86400 ->
  noQuote (zoneText offset) = true.
Proof.
  intros Hrem Habs. unfold zoneText.
  destruct (offset =? 0) eqn:E0; [ reflexivity | ].
  apply Z.eqb_neq in E0.
  pose proof (Z.quot_rem' offset 60) as Hq. rewrite Hrem in Hq.
  set (zone := Z.quot offset 60) in *.
  assert (Hh : 0 <= Z.abs zone / 60 < 24)
    by (split; [ apply Z.div_pos; lia | apply Z.div_lt_upper_bound; lia ]).
  assert (Hm : 0 <= Z.abs zone mod 60 < 60) by (apply Z.mod_pos_bound; lia).
  rewrite !noQuote_append, !appendInt_noQuote by (simpl; lia).
  destruct (zone <? 0); reflexivity.
Qed.

Lemma format_noQuote (t : Time) :
  validTime t = true -> noQuote (appendFormatRFC3339 t) = true.
Proof.
  intros Hv. unfold validTime in Hv. split_andb.
  pose proof (daysIn_bound (month t) (year t)) as Hdays.
  unfold appendFormatRFC3339.
  rewrite !noQuote_append, !appendInt_noQuote by (simpl; lia).
  rewrite appendNano_noQuote, zoneText_noQuote by lia. reflexivity.
Qed.

(** The decoder reads back the time that the encoder writes. *)
Lemma decodeTime_MarshalJSON (t : Time) (rest : string) :
  validTime t = true ->
  time_MarshalJSON t = Some (quote ++ appendFormatRFC3339 t ++ quote)
  /\ decodeTime (quote ++ appendFormatRFC3339 t ++ quote ++ rest)
     = Some (t, rest).
Proof.
  intros Hv. split.
  - unfold validTime in Hv. split_andb. unfold time_MarshalJSON.
    replace (year t <? 0) with false by (symmetry; apply Z.ltb_ge; lia).
    replace (9999 <? year t) with false by (symmetry; apply Z.ltb_ge; lia).
    cbn [orb].
    destruct (zoneOffset t =? 0); [ reflexivity | ]. cbn [negb andb].
    pose proof (Z.quot_rem' (zoneOffset t) 60) as Hq. rewrite Hv1 in Hq.
    replace (24 <=? Z.abs (Z.quot (zoneOffset t) 60) / 60) with false;
      [ reflexivity | ].
    symmetry. apply Z.leb_gt. apply Z.div_lt_upper_bound; lia.
  - unfold decodeTime. cbn [quote append].
    change (byte_of "034"%char =? 34) with true. cbv iota.
    change (String "034"%char rest) with (quote ++ rest).
    rewrite spanQuote_append by now apply format_noQuote.
    now rewrite parseRFC3339_format.
Qed.

(** ** The decoder on what the encoder writes: strings *)


(** ** The decoder on what the encoder writes: strings *)

Lemma char_of_byte_of (c : ascii) : char_of (byte_of c) = c.
Proof.
  unfold char_of, byte_of. rewrite N2Z.id. apply ascii_N_embedding.
Qed.

Lemma escapeByte_length (b : ascii) : (1 <= String.length (escapeByte b))%nat.
Proof.
  destruct b as [[|] [|] [|] [|] [|] [|] [|] [|]]; vm_compute; lia.
Qed.

(** A pass of the decoder undoes what the encoder does with a byte below
    128. *)
Lemma unquote_pass_escapeByte (b : ascii) (text : string) :
  (byte_of b <? 128) = true ->
  unquote_pass (escapeByte b ++ text) = Chunk (String b "") text.
Proof.
  intros Hb.
  destruct b as [[|] [|] [|] [|] [|] [|] [|] [|]];
    try discriminate Hb; vm_compute; reflexivity.
Qed.

(** The size of a UTF-8 sequence depends on its own bytes only. *)
Lemma runeSize_take (s text : string) (n : nat) :
  runeSize s = n -> n <> O ->
  runeSize (take n s ++ text) = n
  /\ take n (take n s ++ text) = take n s
  /\ drop n (take n s ++ text) = text
  /\ s = take n s ++ drop n s.
Proof.
  intros H Hn.
  destruct s as [ | c0 [ | c1 [ | c2 [ | c3 r ] ] ] ]; cbn [runeSize] in H;
    repeat match type of H with
           | context [if ?b then _ else _] => destruct b eqn:?
           end;
    subst n; try congruence;
    cbn [take append drop runeSize];
    repeat match goal with
           | E : ?b = _ |- context [?b] => rewrite E
           end;
    repeat split.
Qed.

Lemma high_byte_tests (c : ascii) :
  (byte_of c <? 128) = false ->
  (byte_of c =? 34) = false /\ (byte_of c =? 92) = false
  /\ (byte_of c <? 32) = false.
Proof.
  intros H. apply Z.ltb_ge in H.
  repeat split; try (apply Z.eqb_neq; lia); apply Z.ltb_ge; lia.
Qed.

(** A pass of the decoder copies a well-formed UTF-8 sequence. *)
Lemma unquote_pass_rune (b : ascii) (r text : string) (n : nat) :
  (byte_of b <? 128) = false ->
  runeSize (String b r) = S n ->
  unquote_pass (take (S n) (String b r) ++ text)
  = Chunk (take (S n) (String b r)) text.
Proof.
  intros Hb Hn.
  destruct (runeSize_take (String b r) text (S n) Hn ltac:(discriminate))
    as (H1 & H2 & H3 & _).
  destruct (high_byte_tests b Hb) as (T1 & T2 & T3).
  revert H1 H2 H3. cbn [take append drop]. intros H1 H2 H3.
  injection H2 as H2.
  unfold unquote_pass. rewrite T1, T2, T3, Hb, H1.
  cbn [take drop]. rewrite H2, H3. reflexivity.
Qed.

(** A pass of the decoder undoes the escape of U+2028 and U+2029. *)
Lemma unquote_pass_lineSep (s text : string) (h : ascii) :
  isLineSep s = Some h ->
  runeSize s = 3%nat
  /\ unquote_pass ("\u202" ++ String h "" ++ text) = Chunk (take 3 s) text.
Proof.
  intros H. destruct s as [ | c0 [ | c1 [ | c2 r ] ] ]; try discriminate H.
  cbn [isLineSep] in H.
  destruct ((byte_of c0 =? 226) && (byte_of c1 =? 128)
            && ((byte_of c2 =? 168) || (byte_of c2 =? 169))) eqn:E;
    [ | discriminate H ].
  injection H as <-.
  apply andb_prop in E. destruct E as [E E2].
  apply andb_prop in E. destruct E as [E0 E1].
  apply Z.eqb_eq in E0, E1.
  rewrite <- (char_of_byte_of c0), <- (char_of_byte_of c1), E0, E1.
  apply orb_prop in E2. destruct E2 as [E2 | E2]; apply Z.eqb_eq in E2;
    rewrite <- (char_of_byte_of c2), E2; split; vm_compute; reflexivity.
Qed.

(** A pass of the decoder undoes a pass of the encoder on well-formed
    text. *)
Lemma pass_roundtrip (b : ascii) (r : string) :
  (byte_of b <? 128) = true \/ runeSize (String b r) <> O ->
  exists chunk,
    String b r = chunk ++ snd (appendString_pass b r)
    /\ (1 <= String.length (fst (appendString_pass b r)))%nat
    /\ forall text,
         unquote_pass (fst (appendString_pass b r) ++ text) = Chunk chunk text.
Proof.
  intros H. unfold appendString_pass.
  destruct (byte_of b <? 128) eqn:Hb.
  - exists (String b ""). cbn [fst snd]. repeat split.
    + apply escapeByte_length.
    + intros text. now apply unquote_pass_escapeByte.
  - destruct H as [H | H]; [ discriminate H | ].
    destruct (runeSize (String b r)) as [ | n ] eqn:Hn; [ congruence | ].
    destruct (runeSize_take (String b r) "" (S n) Hn ltac:(discriminate))
      as (_ & _ & _ & Hs).
    exists (take (S n) (String b r)).
    destruct (isLineSep (String b r)) as [ h | ] eqn:Hl; cbn [fst snd].
    + destruct (unquote_pass_lineSep _ "" h Hl) as [H3 _].
      rewrite Hn in H3. injection H3 as ->.
      repeat split; [ exact Hs | simpl; lia | ].
      intros text. exact (proj2 (unquote_pass_lineSep _ text h Hl)).
    + repeat split; [ exact Hs | simpl; lia | ].
      intros text. now apply unquote_pass_rune.
Qed.

Lemma validUTF8_loop_step (fuel : nat) (b : ascii) (r : string) :
  validUTF8_loop (S fuel) (String b r) = true ->
  ((byte_of b <? 128) = true \/ runeSize (String b r) <> O)
  /\ validUTF8_loop fuel (snd (appendString_pass b r)) = true.
Proof.
  cbn [validUTF8_loop]. unfold appendString_pass.
  destruct (byte_of b <? 128); [ auto | ].
  destruct (runeSize (String b r)) eqn:Hn; [ discriminate | ].
  destruct (isLineSep (String b r)); cbn [snd]; split; auto.
Qed.

(** The loop of the decoder reads back what the loop of the encoder
    writes for well-formed text. *)
Lemma unquote_appendString_loop (fuel : nat) (src rest : string) (f : nat) :
  validUTF8_loop fuel src = true ->
  (String.length (appendString_loop fuel src) < f)%nat ->
  unquote_loop f (appendString_loop fuel src ++ quote ++ rest)
  = Some (src, rest).
Proof.
  revert src f. induction fuel as [ | fuel IH ]; intros src f Hv Hf.
  - destruct src; [ | discriminate Hv ].
    destruct f; [ simpl in Hf; lia | reflexivity ].
  - destruct src as [ | b r ].
    + destruct f; [ simpl in Hf; lia | reflexivity ].
    + destruct (validUTF8_loop_step fuel b r Hv) as [Hb Hv'].
      destruct (pass_roundtrip b r Hb) as (chunk & Hs & Hl & Hp).
      cbn [appendString_loop] in *.
      destruct (appendString_pass b r) as [out src'] eqn:E.
      cbn [fst snd] in *.
      rewrite length_append in Hf.
      destruct f as [ | f ]; [ lia | ].
      rewrite append_assoc. cbn [unquote_loop]. rewrite Hp.
      rewrite IH by (auto; lia). now rewrite Hs.
Qed.

Lemma decodeString_appendString (s rest : string) :
  validUTF8 s = true ->
  decodeString (appendString s ++ rest) = Some (s, rest).
Proof.
  intros Hv. unfold appendString, decodeString.
  cbn [quote append].
  change (byte_of "034"%char =? 34) with true. cbv iota.
  rewrite append_assoc.
  change (String "034"%char "" ++ rest) with (quote ++ rest).
  apply unquote_appendString_loop; [ exact Hv | ].
  rewrite length_append. simpl. lia.
Qed.

Lemma decodeBool_marshalBool (b : bool) (rest : string) :
  decodeBool (marshalBool b ++ rest) = Some (b, rest).
Proof. destruct b; reflexivity. Qed.

(** ** The decoder on what the encoder writes: tasks *)

Lemma expect_here (c : ascii) (text : string) :
  isJSONSpace c = false ->
  expect (String c "") (String c "" ++ text) = Some text.
Proof.
  intros H. unfold expect. cbn [append skipWS]. rewrite H. cbn [stripPrefix].
  now rewrite Ascii.eqb_refl.
Qed.

Lemma expectKey_field (name text : string) :
  In name fieldNames ->
  expectKey name (nl ++ indent2 ++ key name ++ text) = Some (String " "%char text).
Proof.
  intros H. repeat (destruct H as [ <- | H ]; [ reflexivity | ]).
  destruct H.
Qed.

Lemma expect_other (c d : ascii) (text : string) :
  isJSONSpace c = false -> Ascii.eqb d c = false ->
  expect (String d "") (String c "" ++ text) = None.
Proof.
  intros H Hd. unfold expect. cbn [append skipWS]. rewrite H. cbn [stripPrefix].
  now rewrite Hd.
Qed.

Lemma expect_bracket_task (text rest : string) :
  expect "]" (nl ++ indent1 ++ String "{"%char text ++ rest) = None.
Proof. reflexivity. Qed.

Lemma skipWS_stop (c : ascii) (text : string) :
  isJSONSpace c = false -> skipWS (String c text) = String c text.
Proof. intros H. cbn [skipWS]. now rewrite H. Qed.

Lemma digit_not_space (c : ascii) : isDigit c = true -> isJSONSpace c = false.
Proof.
  destruct c as [[|] [|] [|] [|] [|] [|] [|] [|]]; intros H;
    try reflexivity; discriminate H.
Qed.

Lemma skipWS_Itoa (z : Z) (text : string) :
  skipWS (String " "%char (strconv_Itoa z ++ text)) = strconv_Itoa z ++ text.
Proof.
  cbn [skipWS]. change (isJSONSpace " "%char) with true. cbv iota.
  assert (Hnn : forall n, 0 <= n ->
            skipWS (strconv_Itoa n ++ text) = strconv_Itoa n ++ text).
  { intros n Hn. pose proof (Itoa_canonical n Hn) as Hc.
    destruct (strconv_Itoa n) as [ | c r ]; [ discriminate Hc | ].
    apply canonicalDigits_allDigits in Hc.
    simpl in Hc. apply andb_prop in Hc. destruct Hc as [Hc _].
    cbn [append]. apply skipWS_stop. now apply digit_not_space. }
  destruct z as [ | p | p ]; [ apply Hnn; lia | apply Hnn; lia | ].
  rewrite Itoa_neg. reflexivity.
Qed.

Lemma skipWS_appendString (s text : string) :
  skipWS (String " "%char (appendString s ++ text)) = appendString s ++ text.
Proof. reflexivity. Qed.

Lemma skipWS_marshalBool (b : bool) (text : string) :
  skipWS (String " "%char (marshalBool b ++ text)) = marshalBool b ++ text.
Proof. destruct b; reflexivity. Qed.

Lemma skipWS_quote (text : string) :
  skipWS (String " "%char (quote ++ text)) = quote ++ text.
Proof. reflexivity. Qed.

Lemma expect_close (text : string) :
  expect "}" (nl ++ indent1 ++ "}" ++ text) = Some text.
Proof. reflexivity. Qed.

(** The decoder reads back the task that the encoder writes. *)
Lemma decodeTask_marshalTask (t : Task) (rest : string) :
  validTask t = true ->
  exists e, marshalTask t = Some e /\ decodeTask (e ++ rest) = Some (t, rest).
Proof.
  intros Hv. unfold validTask in Hv.
  apply andb_prop in Hv. destruct Hv as [Hv Hcreated].
  apply andb_prop in Hv. destruct Hv as [Hv Hdue].
  apply andb_prop in Hv. destruct Hv as [Hv Hassigned].
  apply andb_prop in Hv. destruct Hv as [Hid Htitle].
  unfold marshalTask.
  rewrite (proj1 (decodeTime_MarshalJSON (DueDate t) "" Hdue)).
  rewrite (proj1 (decodeTime_MarshalJSON (TimeCreated t) "" Hcreated)).
  eexists. split; [ reflexivity | ].
  unfold decodeTask. rewrite !append_assoc.
  rewrite expect_here by reflexivity. cbv beta iota.
  rewrite expectKey_field by (simpl; auto 10). cbv beta iota.
  rewrite skipWS_Itoa, decodeInt_Itoa by (auto; reflexivity). cbv beta iota.
  rewrite expect_here by reflexivity. cbv beta iota.
  rewrite expectKey_field by (simpl; auto 10). cbv beta iota.
  rewrite skipWS_appendString, decodeString_appendString by exact Htitle.
  cbv beta iota.
  rewrite expect_here by reflexivity. cbv beta iota.
  rewrite expectKey_field by (simpl; auto 10). cbv beta iota.
  rewrite skipWS_appendString, decodeString_appendString by exact Hassigned.
  cbv beta iota.
  rewrite expect_here by reflexivity. cbv beta iota.
  rewrite expectKey_field by (simpl; auto 10). cbv beta iota.
  rewrite skipWS_marshalBool, decodeBool_marshalBool. cbv beta iota.
  rewrite expect_here by reflexivity. cbv beta iota.
  rewrite expectKey_field by (simpl; auto 10). cbv beta iota.
  rewrite skipWS_quote.
  rewrite (proj2 (decodeTime_MarshalJSON (DueDate t) _ Hdue)). cbv beta iota.
  rewrite expect_here by reflexivity. cbv beta iota.
  rewrite expectKey_field by (simpl; auto 10). cbv beta iota.
  rewrite skipWS_quote.
  rewrite (proj2 (decodeTime_MarshalJSON (TimeCreated t) _ Hcreated)).
  cbv beta iota.
  rewrite expect_close. destruct t. reflexivity.
Qed.

(** ** The decoder on what the encoder writes: the array *)

Lemma marshalTask_open (t : Task) (e : string) :
  marshalTask t = Some e -> exists text, e = String "{"%char text.
Proof.
  unfold marshalTask.
  destruct (time_MarshalJSON (DueDate t)); [ | discriminate ].
  destruct (time_MarshalJSON (TimeCreated t)); [ | discriminate ].
  intros [= <-]. eexists. reflexivity.
Qed.

(** White space before a task does not count. *)
Lemma decodeTask_indented (text : string) :
  decodeTask (nl ++ indent1 ++ text) = decodeTask text.
Proof.
  unfold decodeTask, expect.
  change (skipWS (nl ++ indent1 ++ text)) with (skipWS text). reflexivity.
Qed.

Lemma decodeMore_marshalElems (ts : list Task) :
  forallb validTask ts = true ->
  exists body,
    marshalElems ts = Some body
    /\ (List.length ts <= String.length body)%nat
    /\ forall fuel tail,
         (List.length ts < fuel)%nat ->
         decodeMore fuel (separator ts ++ body ++ "]" ++ tail) = Some (ts, tail).
Proof.
  induction ts as [ | t ts IH ]; intros Hv.
  - exists "". repeat split; [ simpl; lia | ].
    intros [ | fuel ] tail Hf; [ simpl in Hf; lia | reflexivity ].
  - cbn [forallb] in Hv. apply andb_prop in Hv. destruct Hv as [Ht Hts].
    destruct (IH Hts) as (body & Hb & Hl & Hd).
    destruct (decodeTask_marshalTask t "" Ht) as (e & He & _).
    destruct (marshalTask_open t e He) as (text & Ee).
    cbn [marshalElems]. rewrite He, Hb.
    eexists. split; [ reflexivity | ]. split.
    + rewrite !length_append. simpl. lia.
    + intros [ | fuel ] tail Hf; [ simpl in Hf; lia | ].
      cbn [List.length] in Hf. cbn [decodeMore].
      change (separator (t :: ts)) with ",".
      rewrite !append_assoc.
      rewrite (expect_other ","%char "]"%char) by reflexivity.
      rewrite expect_here by reflexivity. cbv beta iota.
      rewrite decodeTask_indented.
      destruct (decodeTask_marshalTask t (separator ts ++ body ++ "]" ++ tail) Ht)
        as (e' & He' & Hdec).
      rewrite He in He'. injection He' as <-.
      rewrite Hdec. cbv beta iota. rewrite Hd by lia. reflexivity.
Qed.

(** [json.Unmarshal] reads back the tasks that [json.MarshalIndent]
    writes. *)
Lemma Unmarshal_MarshalIndent (ts : list Task) :
  forallb validTask ts = true ->
  exists data,
    json_MarshalIndent ts = Some data /\ json_Unmarshal data = Some ts.
Proof.
  intros Hv. destruct ts as [ | t ts ].
  - exists "[]". split; reflexivity.
  - destruct (decodeMore_marshalElems (t :: ts) Hv) as (body & Hb & _ & _).
    unfold json_MarshalIndent. rewrite Hb.
    eexists. split; [ reflexivity | ].
    cbn [forallb] in Hv. apply andb_prop in Hv. destruct Hv as [Ht Hts].
    destruct (decodeMore_marshalElems ts Hts) as (body' & Hb' & Hl & Hd).
    cbn [marshalElems] in Hb. rewrite Hb' in Hb.
    destruct (marshalTask t) as [ e | ] eqn:He; [ | discriminate Hb ].
    assert (Eb : body = nl ++ indent1 ++ e ++ separator ts ++ body')
      by (injection Hb; auto).
    subst body.
    destruct (marshalTask_open t e He) as (text & Ee).
    unfold json_Unmarshal. rewrite !append_assoc.
    rewrite expect_here by reflexivity. cbv beta iota.
    rewrite Ee at 1. rewrite expect_bracket_task. rewrite decodeTask_indented.
    destruct (decodeTask_marshalTask t (separator ts ++ body' ++ "]") Ht)
      as (e' & He' & Hdec).
    rewrite He in He'. injection He' as <-.
    rewrite Hdec. cbv beta iota.
    pose proof (Hd (String.length (separator ts ++ body' ++ "]")) "") as Hd'.
    rewrite append_nil_r in Hd'.
    rewrite Hd'; [ reflexivity | ].
    rewrite !length_append.
    assert (1 <= String.length (separator ts))%nat by (destruct ts; simpl; lia).
    lia.
Qed.

(** ** Saving and loading *)

Lemma ReadFile_WriteFile (d : Disk) (name data : string) :
  writable d = true ->
  snd (os_WriteFile d name data) = true
  /\ os_ReadFile (fst (os_WriteFile d name data)) name = Some data.
Proof.
  unfold writable, os_WriteFile, os_ReadFile, setFile. intros Hw.
  destruct (pending d) as [ | [ | | n ] rest ]; try discriminate Hw;
    cbn [fst snd files]; now rewrite String.eqb_refl.
Qed.

(** C4: for valid tasks on a disk that takes the write, [saveTask] prints
    no error and leaves the slice as it is, and [loadTasks] on the disk
    it leaves, whatever the slice holds then, sets the slice to the same
    tasks in the same order. *)
Theorem save_then_load_roundtrip (ts ts0 : list Task) (d : Disk) :
  forallb validTask ts = true ->
  writable d = true ->
  let saved := saveTask (mkWorld ts d) in
  TasksSlice (world_of saved) = ts
  /\ output saved = []
  /\ loadTasks (mkWorld ts0 (disk (world_of saved)))
     = Some (mkWorld ts (disk (world_of saved))).
Proof.
  intros Hv Hw saved.
  destruct (Unmarshal_MarshalIndent ts Hv) as (data & Hm & Hu).
  destruct (ReadFile_WriteFile d tasksFileName data Hw) as [_ Hr].
  assert (Hs : saved = (tt, mkWorld ts (fst (os_WriteFile d tasksFileName data)), [])).
  { unfold saved, saveTask. cbn [TasksSlice disk]. rewrite Hm.
    destruct (os_WriteFile d tasksFileName data). reflexivity. }
  rewrite Hs. cbn [world_of output fst snd TasksSlice disk].
  repeat split.
  unfold loadTasks. cbn [disk]. rewrite Hr, Hu. reflexivity.
Qed.

Lemma save_then_load_roundtrip_witness :
  let ts := [sampleTask 1 "BUY MILK"; sampleTask 2 "WALK <DOG>"] in
  forallb validTask ts = true
  /\ writable emptyDisk = true
  /\ option_map TasksSlice
       (loadTasks (initialWorld (disk (world_of (saveTask (mkWorld ts emptyDisk))))))
     = Some ts.
Proof.
  intros ts.
  assert (Hv : forallb validTask ts = true) by (vm_compute; reflexivity).
  assert (Hw : writable emptyDisk = true) by reflexivity.
  split; [ exact Hv | ]. split; [ exact Hw | ].
  unfold initialWorld.
  rewrite (proj2 (proj2 (save_then_load_roundtrip ts [] emptyDisk Hv Hw))).
  reflexivity.
Defined.

(** ** The tasks that the program makes are valid *)

Lemma digitVal_range (c : ascii) : isDigit c = true -> 0 <= digitVal c <= 9.
Proof. unfold isDigit, digitVal. intros H. split_andb. lia. Qed.

(** The value of [k] digits after an accumulator [a]. *)
Lemma digits_acc_range (s : string) (a v : Z) :
  digits_acc a s = Some v ->
  a * 10 ^ Z.of_nat (String.length s) <= v
  < (a + 1) * 10 ^ Z.of_nat (String.length s).
Proof.
  revert a. induction s as [ | c s IH ]; intros a H.
  - simpl in *. injection H as <-. lia.
  - cbn [digits_acc] in H. destruct (isDigit c) eqn:Hc; [ | discriminate H ].
    apply IH in H. pose proof (digitVal_range c Hc) as Hd.
    cbn [String.length]. rewrite Nat2Z.inj_succ, Z.pow_succ_r by lia.
    assert (Hp : 0 < 10 ^ Z.of_nat (String.length s)) by (apply Z.pow_pos_nonneg; lia).
    nia.
Qed.

Lemma getyear_range (s rest : string) (y : Z) :
  getyear s = Some (y, rest) -> 0 <= y <= 9999.
Proof.
  unfold getyear.
  destruct s as [ | c0 [ | c1 [ | c2 [ | c3 r ] ] ] ]; try discriminate.
  destruct (isDigit c0); [ | discriminate ].
  destruct (parseDigits _) as [ v | ] eqn:E; [ | discriminate ].
  intros [= <- _]. unfold parseDigits in E. apply digits_acc_range in E.
  simpl in E. lia.
Qed.

Lemma lookup_from_range (tab : list string) (val rest : string) (i j : Z) :
  lookup_from i tab val = Some (j, rest) ->
  i <= j < i + Z.of_nat (List.length tab).
Proof.
  revert i. induction tab as [ | v tab IH ]; intros i H; [ discriminate H | ].
  cbn [lookup_from] in H.
  destruct ((String.length v <=? String.length val)%nat
            && time_match (take (String.length v) val) v).
  - injection H as <- _. cbn [List.length]. lia.
  - apply IH in H. cbn [List.length]. lia.
Qed.

(** A date that [time.Parse] takes is a day of the calendar, at midnight
    UTC. *)
Lemma time_Parse_valid (value : string) (t : Time) :
  time_Parse value = Some t -> validTime t = true.
Proof.
  unfold time_Parse.
  destruct (lookup shortMonthNames value) as [ [i v1] | ] eqn:El; [ | discriminate ].
  destruct (skip v1 " ") as [ v2 | ]; [ | discriminate ].
  destruct (getnum_fixed v2) as [ [d v3] | ]; [ | discriminate ].
  destruct (skip v3 ", ") as [ v4 | ]; [ | discriminate ].
  destruct (getyear v4) as [ [y v5] | ] eqn:Ey; [ | discriminate ].
  destruct v5; [ | discriminate ].
  destruct ((d <? 1) || (daysIn (i + 1) y <? d)) eqn:Ed; [ discriminate | ].
  intros [= <-].
  apply getyear_range in Ey. apply lookup_from_range in El.
  apply orb_false_elim in Ed. destruct Ed as [Ed1 Ed2].
  apply Z.ltb_ge in Ed1, Ed2. simpl in El.
  unfold validTime, between. cbn [year month day hour minute second
    nanosecond zoneOffset].
  repeat (apply andb_true_intro; split); try reflexivity;
    apply Z.leb_le; lia.
Qed.

(** The task that [create] stores is valid when the clock is, the text is
    UTF-8 and the ID fits an [int]. *)
Lemma create_valid_task (titleLine assignedLine dueLine : string)
    (now : Time) (w : World) (task : Task) :
  result (create titleLine assignedLine dueLine now w) = Added task ->
  validTime now = true ->
  validUTF8 (readField titleLine) = true ->
  validUTF8 (readField assignedLine) = true ->
  len (TasksSlice w) + 1 <= MaxInt64 ->
  validTask task = true.
Proof.
  intros H Hn Ht Ha Hl.
  destruct (create_result_inv _ _ _ _ _ _ H) as (dueDate & Hp & ->).
  apply time_Parse_valid in Hp.
  unfold validTask, between, madeTask.
  cbn [ID Title AssignedTo DueDate TimeCreated].
  rewrite Ht, Ha, Hp, Hn.
  pose proof (len_nonneg (TasksSlice w)).
  replace (MinInt64 <=? len (TasksSlice w) + 1) with true
    by (symmetry; apply Z.leb_le; unfold MinInt64; lia).
  replace (len (TasksSlice w) + 1 <=? MaxInt64) with true
    by (symmetry; apply Z.leb_le; lia).
  reflexivity.
Qed.

(** ** IDs without deletions *)

(** A create keeps every ID within the length of the store, so without
    deletions the next ID is always new. *)
Lemma create_keeps_ids_bounded (titleLine assignedLine dueLine : string)
    (now : Time) (w : World) :
  Forall (fun id => id <= len (TasksSlice w)) (ids (TasksSlice w)) ->
  let w' := world_of (create titleLine assignedLine dueLine now w) in
  Forall (fun id => id <= len (TasksSlice w')) (ids (TasksSlice w')).
Proof.
  intros Hb w'. unfold w'.
  destruct (time_Parse (strings_TrimSpace dueLine)) as [ dueDate | ] eqn:Hp.
  - destruct (create_parsed titleLine assignedLine dueLine now w dueDate Hp) as [_ Hw].
    rewrite Hw, ids_app, len_app. apply Forall_app. split.
    + eapply Forall_impl; [ | exact Hb ]. cbv beta. intros. lia.
    + constructor; [ unfold madeTask; cbn [ID]; lia | constructor ].
  - destruct (create_unparsed titleLine assignedLine dueLine now w Hp) as [_ Hw].
    now rewrite Hw.
Qed.

(** ** The scenario of the design *)

Example scenario :
  let w0 := initialWorld emptyDisk in
  let r1 := create "buy milk" "" "Dec 25, 2024" noon w0 in
  let r2 := create "walk dog" "" "bad-date" noon (world_of r1) in
  let r3 := deleteById 1 (world_of r2) in
  result r1 = Added (mkTask 1 "BUY MILK" "" false christmas noon)
  /\ result r2 = BadDate
  /\ List.length (TasksSlice (world_of r2)) = 1%nat
  /\ result r3 = Deleted
  /\ TasksSlice (world_of r3) = [].
Proof. vm_compute. repeat split. Qed.

(** ** The dates that [time.Parse] takes *)

Lemma digit_not_blank (c : ascii) (r : string) :
  isDigit c = true -> cutspace (String c r) = String c r.
Proof.
  destruct c as [[|] [|] [|] [|] [|] [|] [|] [|]]; intros H;
    try reflexivity; discriminate H.
Qed.

Lemma lookup_month (m : Z) (rest : string) :
  1 <= m <= 12 ->
  lookup shortMonthNames (nth (Z.to_nat (m - 1)) shortMonthNames "" ++ rest)
  = Some (m - 1, rest).
Proof.
  intros Hm.
  assert (H : m = 1 \/ m = 2 \/ m = 3 \/ m = 4 \/ m = 5 \/ m = 6 \/ m = 7
              \/ m = 8 \/ m = 9 \/ m = 10 \/ m = 11 \/ m = 12) by lia.
  repeat (destruct H as [ -> | H ]; [ reflexivity | ]). subst m. reflexivity.
Qed.

(** The digits of a number below [10 ^ width], one by one. *)
Lemma appendInt_digits (width : nat) (x : Z) :
  0 <= x < 10 ^ Z.of_nat width -> (1 <= width)%nat ->
  String.length (appendInt width x) = width
  /\ allDigits (appendInt width x) = true
  /\ digits_acc 0 (appendInt width x) = Some x.
Proof.
  intros Hx Hw. rewrite appendInt_nonneg by lia. now apply pad_spec.
Qed.

(** [time.Parse] takes every date that [Format] writes under the same
    layout, and gives the date back. *)
Lemma time_Parse_Format (y m d : Z) :
  0 <= y <= 9999 -> 1 <= m <= 12 -> 1 <= d <= daysIn m y ->
  time_Parse (time_Format (mkTime y m d 0 0 0 0 0))
  = Some (mkTime y m d 0 0 0 0 0).
Proof.
  intros Hy Hm Hd. pose proof (daysIn_bound m y) as Hdays.
  unfold time_Format, time_Parse. cbn [year month day].
  rewrite lookup_month by exact Hm. cbv beta iota.
  destruct (appendInt_digits 2 d ltac:(simpl; lia) ltac:(lia)) as (Hl2 & Ha2 & Hv2).
  destruct (appendInt_digits 4 y ltac:(simpl; lia) ltac:(lia)) as (Hl4 & Ha4 & Hv4).
  destruct (appendInt 2 d) as [ | d0 [ | d1 [ | ? ? ] ] ]; try discriminate Hl2.
  destruct (appendInt 4 y) as [ | y0 [ | y1 [ | y2 [ | y3 [ | ? ? ] ] ] ] ];
    try discriminate Hl4.
  cbn [allDigits] in Ha2, Ha4.
  apply andb_prop in Ha2. destruct Ha2 as [Hd0 Hd1].
  apply andb_prop in Hd1. destruct Hd1 as [Hd1 _].
  apply andb_prop in Ha4. destruct Ha4 as [Hy0 _].
  cbn [append].
  unfold skip at 1. cbn [String.length skip_loop].
  change (Ascii.eqb " "%char " "%char) with true. cbv iota.
  change (cutspace " ") with "".
  change (cutspace (String " "%char ?s)) with (cutspace s).
  rewrite digit_not_blank by exact Hd0. cbn [skip_loop].
  unfold getnum_fixed. rewrite Hd0, Hd1. cbn [andb].
  unfold skip. cbn [String.length skip_loop].
  change (Ascii.eqb ","%char " "%char) with false.
  change (Ascii.eqb ","%char ","%char) with true.
  change (Ascii.eqb " "%char " "%char) with true. cbv iota.
  change (cutspace " ") with "".
  change (cutspace (String " "%char ?s)) with (cutspace s).
  rewrite digit_not_blank by exact Hy0. cbn [skip_loop].
  unfold getyear. rewrite Hy0. unfold parseDigits. rewrite Hv4.
  cbn [digits_acc] in Hv2. rewrite Hd0, Hd1 in Hv2.
  injection Hv2 as Hv2. replace (digitVal d0 * 10 + digitVal d1) with d by lia.
  replace (m - 1 + 1) with m by lia.
  replace ((d <? 1) || (daysIn m y <? d)) with false; [ reflexivity | ].
  symmetry. apply orb_false_intro; apply Z.ltb_ge; lia.
Qed.

(** * Further properties of [main.go] *)

(** ** Which steps change the world *)

Lemma showAllTask_world (w : World) : world_of (showAllTask w) = w.
Proof.
  unfold showAllTask. autorewrite with go.
  destruct (0 <? len (TasksSlice w)); autorewrite with go;
    [ rewrite forEach_print | ]; reflexivity.
Qed.

Lemma deleteById_world (id : Z) (w : World) :
  world_of (deleteById id w)
  = if findIndex id (TasksSlice w) =? -1 then w
    else world_of (saveTask (mkWorld (removeAt (findIndex id (TasksSlice w))
                                               (TasksSlice w)) (disk w))).
Proof.
  unfold deleteById. autorewrite with go.
  destruct (findIndex id (TasksSlice w) =? -1); reflexivity.
Qed.

Lemma addTask_submit_world (taskTitle taskAssigned dueLine : string)
    (now : Time) (w : World) :
  world_of (addTask_submit taskTitle taskAssigned dueLine now w)
  = match time_Parse (strings_TrimSpace dueLine) with
    | None => w
    | Some dueDate =>
        world_of (saveTask
          (mkWorld (TasksSlice w
                    ++ [mkTask (len (TasksSlice w) + 1) taskTitle taskAssigned
                               false dueDate now])%list (disk w)))
    end.
Proof.
  unfold addTask_submit.
  destruct (time_Parse (strings_TrimSpace dueLine)); reflexivity.
Qed.

(** After a step the world is as before, or it is what [saveTask] leaves
    of a new slice on the same disk. *)
Lemma step_world_cases (c : Ctrl) (l : string) (t : Time) (w : World) :
  world_of (step c l t w) = w
  \/ exists ts,
       world_of (step c l t w) = world_of (saveTask (mkWorld ts (disk w))).
Proof.
  destruct c; unfold step.
  - repeat match goal with
           | |- context [if String.eqb ?a ?b then _ else _] =>
               destruct (String.eqb a b)
           end; autorewrite with go;
      try (destruct (0 <? len (TasksSlice w)); autorewrite with go);
      rewrite ?showMenu_world, ?deleteTask_show_world, ?showAllTask_world;
      left; reflexivity.
  - left. reflexivity.
  - left. reflexivity.
  - autorewrite with go.
    assert (Hk : forall r w',
               world_of (match r with
                         | Added _ => addTask_askAgain ;; ret AtAddAgain
                         | BadDate => addTask_prompt ;; ret AtAddTitle
                         end%go w') = w')
      by (intros [ ? | ] w'; reflexivity).
    rewrite Hk, addTask_submit_world.
    destruct (time_Parse (strings_TrimSpace l)); [ right; eexists | left ];
      reflexivity.
  - repeat match goal with
           | |- context [if String.eqb ?a ?b then _ else _] =>
               destruct (String.eqb a b)
           end; autorewrite with go; rewrite ?showMenu_world; left; reflexivity.
  - autorewrite with go. rewrite showMenu_world. left. reflexivity.
  - destruct (String.eqb (strings_ToUpper (strings_TrimSpace l)) "Q").
    { autorewrite with go. rewrite showMenu_world. left. reflexivity. }
    destruct (strconv_Atoi (strings_TrimSpace l)) as [ id | ].
    2:{ autorewrite with go. rewrite deleteTask_show_world. left. reflexivity. }
    autorewrite with go.
    assert (Hk : forall r w',
               world_of (match r with
                         | Deleted =>
                             ts <- getTasks ;;
                             if len ts =? 0 then showMenu ;; ret AtMain
                             else deleteTask_show ;; ret AtDelete
                         | NotFound => deleteTask_show ;; ret AtDelete
                         end%go w') = w').
    { intros [ | ] w'; autorewrite with go;
        try (destruct (len (TasksSlice w') =? 0); autorewrite with go);
        rewrite ?showMenu_world, ?deleteTask_show_world; reflexivity. }
    rewrite Hk, deleteById_world.
    destruct (findIndex id (TasksSlice w) =? -1); [ left | right; eexists ];
      reflexivity.
  - left. reflexivity.
Qed.

(** X3: reading the menu choice, the title, the assignee, the answer to
    "add another" and the key after the list of all tasks never changes
    the tasks or the disk: only the step that reads the due date and the
    step that reads the ID to delete can. *)
Theorem navigation_keeps_world (c : Ctrl) (l : string) (t : Time) (w : World) :
  (forall taskTitle taskAssigned, c <> AtAddDue taskTitle taskAssigned) ->
  c <> AtDelete ->
  world_of (step c l t w) = w.
Proof.
  intros Hadd Hdel. destruct c; unfold step;
    try (exfalso; apply Hdel; reflexivity);
    try (exfalso; eapply Hadd; reflexivity);
    repeat match goal with
           | |- context [if String.eqb ?a ?b then _ else _] =>
               destruct (String.eqb a b)
           end; autorewrite with go;
    try (destruct (0 <? len (TasksSlice w)); autorewrite with go);
    rewrite ?showMenu_world, ?deleteTask_show_world, ?showAllTask_world;
    reflexivity.
Qed.

Lemma navigation_keeps_world_witness :
  let w := mkWorld sixTasks emptyDisk in
  world_of (step AtMain "v" noon w) = w
  /\ world_of (step AtAddAgain "maybe" noon w) = w.
Proof.
  intros w. split.
  - apply (navigation_keeps_world AtMain "v" noon w); discriminate.
  - apply (navigation_keeps_world AtAddAgain "maybe" noon w); discriminate.
Defined.

(** ** The file and the slice *)

Lemma saveTask_other_files (w : World) (name : string) :
  name <> tasksFileName ->
  files (disk (world_of (saveTask w))) name = files (disk w) name.
Proof.
  intros Hn. apply String.eqb_neq in Hn. unfold saveTask, world_of.
  destruct (json_MarshalIndent (TasksSlice w)); [ | reflexivity ].
  unfold os_WriteFile, setFile.
  destruct (pending (disk w)) as [ | [ | | n ] rest ];
    cbn [fst snd disk files]; rewrite ?Hn; reflexivity.
Qed.

(** Where every coming write succeeds, this holds after [saveTask] too. *)
Lemma saveTask_writable (w : World) :
  writable (disk w) = true ->
  writable (disk (world_of (saveTask w))) = true.
Proof.
  unfold saveTask, world_of, writable.
  destruct (json_MarshalIndent (TasksSlice w)); [ | auto ].
  unfold os_WriteFile.
  destruct (pending (disk w)) as [ | [ | | n ] rest ];
    cbn [fst snd disk pending forallb isWritten andb]; auto; discriminate.
Qed.

(** After [saveTask] of valid tasks on a disk that takes the write, a new
    start loads the slice. *)
Lemma saveTask_synced (w : World) :
  forallb validTask (TasksSlice w) = true ->
  writable (disk w) = true ->
  synced (world_of (saveTask w)).
Proof.
  intros Hv Hw.
  destruct (Unmarshal_MarshalIndent (TasksSlice w) Hv) as (data & Hm & Hu).
  destruct (ReadFile_WriteFile (disk w) tasksFileName data Hw) as [_ Hr].
  unfold synced, saveTask, world_of. rewrite Hm.
  destruct (os_WriteFile (disk w) tasksFileName data) as [d ok] eqn:E.
  cbn [fst snd disk TasksSlice] in *.
  unfold loadTasks, initialWorld. cbn [disk]. rewrite Hr, Hu. reflexivity.
Qed.

(** What [main] has loaded is what a new start would load. *)
Lemma boot_synced (d : Disk) (cf : Config) (o : list Event) :
  boot d = Some (cf, o) -> synced (world cf) /\ disk (world cf) = d.
Proof.
  unfold boot. destruct (loadTasks (initialWorld d)) as [ w | ] eqn:E;
    [ | discriminate ].
  intros [= <- _]. cbn [world]. rewrite showMenu_world.
  unfold loadTasks, initialWorld in E. cbn [disk] in E.
  unfold synced, loadTasks, initialWorld.
  destruct (os_ReadFile d tasksFileName) as [ data | ] eqn:Er.
  - destruct (json_Unmarshal data) as [ ts | ] eqn:Eu; [ | discriminate E ].
    injection E as <-. cbn [disk TasksSlice]. rewrite Er, Eu. auto.
  - injection E as <-. cbn [disk TasksSlice]. rewrite Er. auto.
Qed.

Lemma step_keeps_synced (c : Ctrl) (l : string) (t : Time) (w : World) :
  writable (disk w) = true -> synced w ->
  forallb validTask (TasksSlice (world_of (step c l t w))) = true ->
  synced (world_of (step c l t w))
  /\ writable (disk (world_of (step c l t w))) = true.
Proof.
  intros Hw Hs Hv.
  destruct (step_world_cases c l t w) as [ E | [ts E] ]; rewrite E in *.
  - auto.
  - rewrite saveTask_tasks in Hv. cbn [TasksSlice] in Hv.
    split; [ now apply saveTask_synced | now apply saveTask_writable ].
Qed.

(** X1: on a disk that takes writes, at every read of a run of the
    program the file holds the tasks of the slice: a new start would load
    exactly the tasks the program holds, as long as these are valid
    tasks. *)
Theorem run_keeps_file_in_step (d : Disk) (cf : Config) (o : list Event)
    (inputs : list Input) :
  boot d = Some (cf, o) ->
  writable d = true ->
  validAlong cf inputs = true ->
  synced (world (fst (run cf inputs))).
Proof.
  intros Hb Hw Hv. destruct (boot_synced d cf o Hb) as [Hs Hd].
  rewrite <- Hd in Hw. clear Hb Hd o d.
  revert cf Hs Hw Hv. induction inputs as [ | i inputs IH ]; intros cf Hs Hw Hv.
  - exact Hs.
  - cbn [validAlong] in Hv. apply andb_prop in Hv. destruct Hv as [Hv1 Hv2].
    cbn [run].
    destruct (next cf i) as [cf1 o1] eqn:E1.
    destruct (run cf1 inputs) as [cf2 o2] eqn:E2.
    cbn [fst] in *.
    assert (Hcf1 : cf1 = fst (next cf i)) by now rewrite E1.
    assert (H1 : synced (world cf1) /\ writable (disk (world cf1)) = true).
    { rewrite Hcf1. unfold next. cbn [fst world].
      apply step_keeps_synced; auto.
      rewrite Hcf1 in Hv1. exact Hv1. }
    destruct H1 as [Hs1 Hw1].
    specialize (IH cf1 Hs1 Hw1 Hv2). now rewrite E2 in IH.
Qed.

Lemma run_keeps_file_in_step_witness :
  exists cf o,
    boot emptyDisk = Some (cf, o)
    /\ validAlong cf (firstn 4 sampleSession) = true
    /\ synced (world (fst (run cf (firstn 4 sampleSession))))
    /\ List.length (TasksSlice (world (fst (run cf (firstn 4 sampleSession)))))
       = 1%nat.
Proof.
  destruct (boot emptyDisk) as [ [cf o] | ] eqn:E; [ | discriminate E ].
  exists cf, o. injection E as <- <-.
  assert (Hv : forall cf0, cf0 = mkConfig AtMain (world_of (showMenu (initialWorld emptyDisk))) ->
                 validAlong cf0 (firstn 4 sampleSession) = true)
    by (intros cf0 ->; vm_compute; reflexivity).
  split; [ reflexivity | ]. split; [ apply Hv; reflexivity | ]. split.
  - apply (run_keeps_file_in_step emptyDisk _ (output (showMenu (initialWorld emptyDisk)))).
    + reflexivity.
    + reflexivity.
    + apply Hv. reflexivity.
  - vm_compute. reflexivity.
Defined.

(** What [saveTask] prints does not depend on how the write ends. *)
Lemma saveTask_output_pending (outcomes : list WriteOutcome) (w : World) :
  output (saveTask w) = output (saveTask (withPending outcomes w)).
Proof.
  unfold saveTask, withPending, output. cbn [TasksSlice disk].
  destruct (json_MarshalIndent (TasksSlice w)); [ | reflexivity ].
  destruct (os_WriteFile (disk w) tasksFileName s).
  destruct (os_WriteFile (mkDisk (files (disk w)) outcomes) tasksFileName s).
  reflexivity.
Qed.

(** What [saveTask] leaves of the file when the write fails. *)
Lemma saveTask_failed (w : World) (o : WriteOutcome)
    (rest : list WriteOutcome) (data : string) :
  pending (disk w) = o :: rest ->
  o <> Written ->
  json_MarshalIndent (TasksSlice w) = Some data ->
  TasksSlice (world_of (saveTask w)) = TasksSlice w
  /\ os_ReadFile (disk (world_of (saveTask w))) tasksFileName
     = match o with
       | WriteFailed n => Some (take n data)
       | _ => os_ReadFile (disk w) tasksFileName
       end.
Proof.
  intros Hp Ho Hm. split; [ apply saveTask_tasks | ].
  unfold saveTask, world_of, os_WriteFile, os_ReadFile, setFile.
  rewrite Hm, Hp.
  destruct o as [ | | n ]; [ contradiction | reflexivity | ].
  cbn [fst snd disk files]. now rewrite String.eqb_refl.
Qed.

Lemma addTask_submit_output (taskTitle taskAssigned dueLine : string)
    (now : Time) (w : World) (dueDate : Time) :
  time_Parse (strings_TrimSpace dueLine) = Some dueDate ->
  let newTask :=
    mkTask (len (TasksSlice w) + 1) taskTitle taskAssigned false dueDate now in
  output (addTask_submit taskTitle taskAssigned dueLine now w)
  = (output (saveTask (mkWorld (TasksSlice w ++ [newTask]) (disk w)))
     ++ [addedMessage; Print (addedText newTask)])%list.
Proof.
  intros Hp newTask. unfold addTask_submit. rewrite Hp.
  autorewrite with go. cbn [output setTasks snd app].
  rewrite List.app_nil_r. reflexivity.
Qed.

(** X2: when the write of [saveTask] fails, a create still appends the
    task to the slice and prints that the task was added; it prints
    exactly what it prints when the write succeeds.  The file is as it was
    when [os.WriteFile] could not open it; when the write failed after the
    open, which empties the file, the file holds the bytes that were
    written, a part of the new text and perhaps nothing. *)
Theorem failed_write_is_silent (titleLine assignedLine dueLine : string)
    (now : Time) (w : World) (task : Task)
    (o : WriteOutcome) (rest : list WriteOutcome) (data : string) :
  pending (disk w) = o :: rest ->
  o <> Written ->
  result (create titleLine assignedLine dueLine now w) = Added task ->
  json_MarshalIndent (TasksSlice w ++ [task]) = Some data ->
  let r := create titleLine assignedLine dueLine now w in
  TasksSlice (world_of r) = (TasksSlice w ++ [task])%list
  /\ In addedMessage (output r)
  /\ output r
     = output (create titleLine assignedLine dueLine now (withPending [] w))
  /\ os_ReadFile (disk (world_of r)) tasksFileName
     = match o with
       | WriteFailed n => Some (take n data)
       | _ => os_ReadFile (disk w) tasksFileName
       end.
Proof.
  intros Hpend Ho H Hm r.
  destruct (create_result_inv _ _ _ _ _ _ H) as (dueDate & Hp & Ht).
  subst task. unfold madeTask in *.
  set (w1 := mkWorld (TasksSlice w
                      ++ [mkTask (len (TasksSlice w) + 1) (readField titleLine)
                            (readField assignedLine) false dueDate now])%list
                     (disk w)).
  destruct (saveTask_failed w1 o rest data Hpend Ho Hm) as [Hts Hfile].
  assert (Hworld : world_of r = world_of (saveTask w1)).
  { unfold r, create. rewrite addTask_submit_world, Hp. reflexivity. }
  rewrite Hworld. repeat split.
  - exact Hts.
  - unfold r, create. rewrite (addTask_submit_output _ _ _ _ _ dueDate Hp).
    apply in_or_app. right. left. reflexivity.
  - unfold r, create.
    rewrite !(addTask_submit_output _ _ _ _ _ dueDate Hp).
    cbn [withPending TasksSlice disk]. f_equal.
    apply (saveTask_output_pending [] w1).
  - exact Hfile.
Qed.

Lemma failed_write_is_silent_witness :
  let saved := disk (world_of (saveTask (mkWorld [sampleTask 1 "A"] emptyDisk))) in
  let w := mkWorld [sampleTask 1 "A"] (mkDisk (files saved) [WriteFailed 0]) in
  let r := create "buy milk" "" "Dec 25, 2024" noon w in
  pending (disk w) = [WriteFailed 0]
  /\ loadTasks (initialWorld saved) = Some (mkWorld [sampleTask 1 "A"] saved)
  /\ List.length (TasksSlice (world_of r)) = 2%nat
  /\ os_ReadFile (disk (world_of r)) tasksFileName = Some "".
Proof.
  intros saved w r.
  set (task := mkTask 2 "BUY MILK" "" false christmas noon).
  set (data := match json_MarshalIndent (TasksSlice w ++ [task]) with
               | Some text => text
               | None => ""
               end).
  assert (Hpend : pending (disk w) = [WriteFailed 0]) by reflexivity.
  assert (Ho : WriteFailed 0 <> Written) by discriminate.
  assert (H : result r = Added task) by (vm_compute; reflexivity).
  assert (Hm : json_MarshalIndent (TasksSlice w ++ [task]) = Some data)
    by (vm_compute; reflexivity).
  assert (Hl : loadTasks (initialWorld saved) = Some (mkWorld [sampleTask 1 "A"] saved))
    by (vm_compute; reflexivity).
  destruct (failed_write_is_silent "buy milk" "" "Dec 25, 2024" noon w task
              (WriteFailed 0) [] data Hpend Ho H Hm) as (H1 & _ & _ & H4).
  split; [ exact Hpend | ]. split; [ exact Hl | ]. split.
  - fold r in H1. rewrite H1. reflexivity.
  - exact H4.
Defined.

(** X16: no step of the program writes a file other than Tasks.json,
    however its write ends. *)
Theorem only_tasks_file_is_written (c : Ctrl) (l : string) (t : Time)
    (w : World) (name : string) :
  name <> tasksFileName ->
  files (disk (world_of (step c l t w))) name = files (disk w) name.
Proof.
  intros Hn.
  destruct (step_world_cases c l t w) as [ E | [ts E] ]; rewrite E.
  - reflexivity.
  - now rewrite saveTask_other_files.
Qed.

Lemma only_tasks_file_is_written_witness :
  let d := mkDisk (setFile (fun _ => None) "notes.txt" "keep") [WriteFailed 1] in
  let w := mkWorld [] d in
  "notes.txt" <> tasksFileName
  /\ files (disk (world_of (step (AtAddDue "A" "") "Dec 25, 2024" noon w)))
       "notes.txt" = Some "keep"
  /\ files (disk (world_of (step (AtAddDue "A" "") "Dec 25, 2024" noon w)))
       tasksFileName = Some "[".
Proof.
  intros d w.
  assert (Hn : "notes.txt" <> tasksFileName) by discriminate.
  split; [ exact Hn | ]. split.
  - rewrite (only_tasks_file_is_written (AtAddDue "A" "") "Dec 25, 2024"
               noon w "notes.txt" Hn).
    reflexivity.
  - vm_compute. reflexivity.
Defined.

(** ** What is on the screen at a read *)

Lemma deleteTask_show_output (w : World) :
  output (deleteTask_show w) = deleteScreen (TasksSlice w).
Proof.
  unfold deleteTask_show, deleteScreen. autorewrite with go.
  rewrite forEach_print. reflexivity.
Qed.

(** Split a step into the branches of its source. *)
Ltac step_branches :=
  repeat match goal with
         | |- context [if String.eqb ?a ?b then _ else _] =>
             destruct (String.eqb a b)
         | |- context [match strconv_Atoi ?a with _ => _ end] =>
             destruct (strconv_Atoi a)
         | |- context [match result (deleteById ?i ?w) with _ => _ end] =>
             destruct (result (deleteById i w))
         | |- context [match result (addTask_submit ?a ?b ?c ?d ?w) with _ => _ end] =>
             destruct (result (addTask_submit a b c d w))
         | |- context [if 0 <? len ?ts then _ else _] =>
             destruct (0 <? len ts)
         | |- context [if len ?ts =? 0 then _ else _] =>
             destruct (len ts =? 0)
         | _ => progress autorewrite with go
         end.

(** Find what a step has printed before the screen it ends with. *)
Ltac find_prefix :=
  first [ exists []; reflexivity
        | eexists; reflexivity
        | eexists; rewrite !List.app_assoc; reflexivity ].

(** X4: whenever a step ends at the read of the main menu, the last thing
    it has printed is the menu of the tasks as they are now: the menu is
    never one of an earlier state of the slice. *)
Theorem main_menu_is_fresh (c : Ctrl) (l : string) (t : Time) (w : World) :
  result (step c l t w) = AtMain ->
  exists before,
    output (step c l t w)
    = (before ++ output (showMenu (world_of (step c l t w))))%list.
Proof.
  destruct c; unfold step; step_branches; try discriminate; intros _;
    rewrite ?showMenu_world, ?List.app_nil_r; cbn [app];
    find_prefix.
Qed.

Lemma main_menu_is_fresh_witness :
  let w := mkWorld [sampleTask 1 "A"] emptyDisk in
  result (step AtDelete "1" noon w) = AtMain
  /\ exists before,
       output (step AtDelete "1" noon w)
       = (before ++ output (showMenu (mkWorld [] (disk (world_of (step AtDelete "1" noon w))))))%list.
Proof.
  intros w.
  assert (H : result (step AtDelete "1" noon w) = AtMain) by (vm_compute; reflexivity).
  split; [ exact H | ].
  destruct (main_menu_is_fresh AtDelete "1" noon w H) as [before Hb].
  exists before. rewrite Hb. reflexivity.
Defined.

(** X5: whenever a step ends at the prompt of [deleteTask], the last thing
    it has printed is the list of the tasks as they are now, cleared
    screen and header first: the tasks are shown fresh in each pass. *)
Theorem delete_screen_is_fresh (c : Ctrl) (l : string) (t : Time) (w : World) :
  result (step c l t w) = AtDelete ->
  exists before,
    output (step c l t w)
    = (before ++ deleteScreen (TasksSlice (world_of (step c l t w))))%list.
Proof.
  destruct c; unfold step; step_branches; try discriminate; intros _;
    rewrite ?deleteTask_show_world, ?deleteTask_show_output, ?List.app_nil_r;
    cbn [app];
    find_prefix.
Qed.

Lemma delete_screen_is_fresh_witness :
  let w := mkWorld sixTasks emptyDisk in
  result (step AtDelete "2" noon w) = AtDelete
  /\ exists before,
       output (step AtDelete "2" noon w)
       = (before ++ deleteScreen [sampleTask 1 "A"; sampleTask 3 "C";
                                  sampleTask 4 "D"; sampleTask 5 "E";
                                  sampleTask 6 "F"])%list.
Proof.
  intros w.
  assert (H : result (step AtDelete "2" noon w) = AtDelete) by (vm_compute; reflexivity).
  split; [ exact H | ].
  destruct (delete_screen_is_fresh AtDelete "2" noon w H) as [before Hb].
  exists before. rewrite Hb. reflexivity.
Defined.

(** ** The menu and the commands it takes *)

Lemma menuLine_not_deleteOption (t : Task) : Print (menuLine t) <> deleteOption.
Proof. unfold menuLine, deleteOption, Yellow, esc. cbn [append]. discriminate. Qed.

Lemma showMenu_loop_lines (n i : nat) (ts : list Task) (w : World) (e : Event) :
  In e (output (showMenu_loop n i ts w)) -> exists t, e = Print (menuLine t).
Proof.
  revert i w. induction n as [ | n IH ]; intros i w H; [ destruct H | ].
  cbn [showMenu_loop] in H.
  destruct (nth_error ts i) as [ t0 | ]; [ | destruct H ].
  rewrite output_bind in H. apply in_app_or in H. destruct H as [ H | H ].
  - destruct H as [ <- | [] ]. now exists t0.
  - eapply IH. exact H.
Qed.

(** What [showMenu] prints: the header, the last tasks or that there are
    none, the rule, the options. *)
Lemma showMenu_output (w : World) :
  output (showMenu w)
  = (menuHeader
     :: output ((if 0 <? len (TasksSlice w) then
                   let start :=
                     if 5 <? len (TasksSlice w) then len (TasksSlice w) - 5
                     else 0 in
                   showMenu_loop (Z.to_nat (len (TasksSlice w) - start))
                                 (Z.to_nat start) (TasksSlice w)
                 else fmt_Println (Red ++ "No Tasks Yet!" ++ nl ++ Reset)) w)
     ++ output (hr w) ++ output (menuOptions w))%list.
Proof.
  unfold showMenu. autorewrite with go.
  destruct (0 <? len (TasksSlice w)); rewrite ?showMenu_loop_world;
    autorewrite with go; reflexivity.
Qed.

Lemma menuOptions_offers_delete (w : World) :
  In deleteOption (output (menuOptions w)) <-> (0 <? len (TasksSlice w)) = true.
Proof.
  unfold menuOptions. autorewrite with go.
  destruct (0 <? len (TasksSlice w)).
  - split; [ reflexivity | intros _ ]. right. right. left. reflexivity.
  - split; [ | discriminate ]. intros H. exfalso.
    repeat (destruct H as [ H | H ]; [ discriminate H | ]). exact H.
Qed.

Lemma showMenu_offers_delete (w : World) :
  In deleteOption (output (showMenu w)) <-> (0 <? len (TasksSlice w)) = true.
Proof.
  rewrite showMenu_output, <- menuOptions_offers_delete. split.
  - intros [ H | H ]; [ discriminate H | ].
    apply in_app_or in H. destruct H as [ H | H ].
    + exfalso. destruct (0 <? len (TasksSlice w)).
      * apply showMenu_loop_lines in H. destruct H as [t0 H].
        symmetry in H. now apply menuLine_not_deleteOption in H.
      * destruct H as [ H | [] ]. discriminate H.
    + apply in_app_or in H. destruct H as [ H | H ]; [ | exact H ].
      exfalso. destruct H as [ H | [] ]. discriminate H.
  - intros H. right. apply in_or_app. right. apply in_or_app. now right.
Qed.

(** X6: the menu offers "Delete a Task -> Press 'D'" exactly when [main]
    takes the command D and shows the screen of [deleteTask]; where the
    menu does not offer it, D is answered with the three "Wrong Input"
    screens and the menu, and the main menu is read again. *)
Theorem delete_offered_iff_accepted (l : string) (t : Time) (w : World) :
  strings_ToUpper (strings_TrimSpace l) = "D" ->
  (In deleteOption (output (showMenu w))
   <-> result (step AtMain l t w) = AtDelete
       /\ output (step AtMain l t w) = deleteScreen (TasksSlice w))
  /\ (~ In deleteOption (output (showMenu w))
      <-> result (step AtMain l t w) = AtMain
          /\ output (step AtMain l t w)
             = (wrongInputScreens ++ output (showMenu w))%list).
Proof.
  intros H. rewrite showMenu_offers_delete.
  assert (Hstep :
            if 0 <? len (TasksSlice w)
            then result (step AtMain l t w) = AtDelete
                 /\ output (step AtMain l t w) = deleteScreen (TasksSlice w)
            else result (step AtMain l t w) = AtMain
                 /\ output (step AtMain l t w)
                    = (wrongInputScreens ++ output (showMenu w))%list).
  { unfold step. rewrite H. cbn [String.eqb Ascii.eqb Bool.eqb].
    autorewrite with go.
    destruct (0 <? len (TasksSlice w)); autorewrite with go;
      rewrite ?deleteTask_show_output, ?List.app_nil_r; cbn [app];
      split; reflexivity. }
  destruct (0 <? len (TasksSlice w)); destruct Hstep as [Hr Ho]; split; split.
  - intros _. now split.
  - reflexivity.
  - intros Hn. exfalso. now apply Hn.
  - intros [Hm _]. rewrite Hr in Hm. discriminate Hm.
  - discriminate.
  - intros [Hd _]. rewrite Hr in Hd. discriminate Hd.
  - intros _. now split.
  - intros _. discriminate.
Qed.

Lemma delete_offered_iff_accepted_witness :
  strings_ToUpper (strings_TrimSpace " d ") = "D"
  /\ In deleteOption (output (showMenu (mkWorld sixTasks emptyDisk)))
  /\ output (step AtMain " d " noon (initialWorld emptyDisk))
     = (wrongInputScreens ++ output (showMenu (initialWorld emptyDisk)))%list.
Proof.
  assert (H : strings_ToUpper (strings_TrimSpace " d ") = "D") by reflexivity.
  split; [ exact H | ]. split.
  - apply (proj1 (delete_offered_iff_accepted " d " noon
                    (mkWorld sixTasks emptyDisk) H)).
    vm_compute. split; reflexivity.
  - apply (proj2 (delete_offered_iff_accepted " d " noon
                    (initialWorld emptyDisk) H)).
    vm_compute. intros Hin.
    repeat (destruct Hin as [ Hin | Hin ]; [ discriminate Hin | ]).
    exact Hin.
Defined.

(** ** The lines of [addTask], one read after the other *)

Lemma fst_run_cons (cf : Config) (i : Input) (inputs : list Input) :
  fst (run cf (i :: inputs)) = fst (run (fst (next cf i)) inputs).
Proof.
  cbn [run]. destruct (next cf i) as [cf1 o1]. cbn [fst].
  destruct (run cf1 inputs) as [cf2 o2]. reflexivity.
Qed.

(** X7: from the main menu, the command A and then a title, an assignee
    and a date that [time.Parse] takes lead to the question "add another
    task", with one task more at the end of the slice: it has the next ID,
    is not done, has the date parsed and the clock reading taken after the
    due date was read; where the title line or the assignee line, trimmed,
    is ASCII text, the field is that text in upper case. *)
Theorem add_flow_appends (choice titleLine assignedLine dueLine : string)
    (t1 t2 t3 t4 : Time) (w : World) (dueDate : Time) :
  strings_ToUpper (strings_TrimSpace choice) = "A" ->
  time_Parse (strings_TrimSpace dueLine) = Some dueDate ->
  let cf := fst (run (mkConfig AtMain w)
                   [mkInput choice t1; mkInput titleLine t2;
                    mkInput assignedLine t3; mkInput dueLine t4]) in
  ctrl cf = AtAddAgain
  /\ exists task,
       TasksSlice (world cf) = (TasksSlice w ++ [task])%list
       /\ ID task = len (TasksSlice w) + 1
       /\ Status task = false
       /\ DueDate task = dueDate
       /\ TimeCreated task = t4
       /\ (asciiOnly (strings_TrimSpace titleLine) = true ->
           Title task = strings_ToUpper (strings_TrimSpace titleLine))
       /\ (asciiOnly (strings_TrimSpace assignedLine) = true ->
           AssignedTo task = strings_ToUpper (strings_TrimSpace assignedLine)).
Proof.
  intros Hc Hp cf.
  assert (H1 : fst (next (mkConfig AtMain w) (mkInput choice t1))
               = mkConfig AtAddTitle w).
  { unfold next. cbn [ctrl world line now fst]. unfold step. rewrite Hc.
    reflexivity. }
  assert (H2 : fst (next (mkConfig AtAddTitle w) (mkInput titleLine t2))
               = mkConfig (AtAddAssigned (readField titleLine)) w)
    by reflexivity.
  assert (H3 : fst (next (mkConfig (AtAddAssigned (readField titleLine)) w)
                         (mkInput assignedLine t3))
               = mkConfig (AtAddDue (readField titleLine) (readField assignedLine)) w)
    by reflexivity.
  destruct (create_parsed titleLine assignedLine dueLine t4 w dueDate Hp)
    as [Hr Hts].
  assert (H4 : cf = mkConfig AtAddAgain
                      (world_of (create titleLine assignedLine dueLine t4 w))).
  { unfold cf. rewrite !fst_run_cons, H1, H2, H3. cbn [run fst].
    unfold next. cbn [ctrl world line now fst]. unfold step.
    autorewrite with go.
    change (addTask_submit (readField titleLine) (readField assignedLine)
              dueLine t4 w)
      with (create titleLine assignedLine dueLine t4 w).
    rewrite Hr. reflexivity. }
  rewrite H4. cbn [ctrl world]. split; [ reflexivity | ].
  exists (madeTask titleLine assignedLine t4 w dueDate).
  split; [ exact Hts | ]. repeat split.
Qed.

Lemma add_flow_appends_witness :
  let cf := fst (run (mkConfig AtMain (initialWorld emptyDisk))
                   (firstn 4 sampleSession)) in
  strings_ToUpper (strings_TrimSpace "a") = "A"
  /\ time_Parse (strings_TrimSpace "Dec 25, 2024") = Some christmas
  /\ ctrl cf = AtAddAgain
  /\ exists task,
       TasksSlice (world cf) = [task]
       /\ ID task = 1 /\ DueDate task = christmas /\ Title task = "BUY MILK".
Proof.
  intros cf.
  assert (Hc : strings_ToUpper (strings_TrimSpace "a") = "A") by reflexivity.
  assert (Hp : time_Parse (strings_TrimSpace "Dec 25, 2024") = Some christmas)
    by reflexivity.
  destruct (add_flow_appends "a" "buy milk" "bob" "Dec 25, 2024"
              noon noon noon noon (initialWorld emptyDisk) christmas Hc Hp)
    as (H1 & task & H2 & H3 & _ & H5 & _ & H7 & _).
  split; [ exact Hc | ]. split; [ exact Hp | ]. split; [ exact H1 | ].
  exists task. split; [ exact H2 | ]. split; [ exact H3 | ].
  split; [ exact H5 | ]. exact (H7 eq_refl).
Defined.

(** ** White space *)

Lemma string_length_ind (P : string -> Prop) :
  (forall s, (forall r, (String.length r < String.length s)%nat -> P r) -> P s) ->
  forall s, P s.
Proof.
  intros H s. remember (String.length s) as n eqn:E. revert s E.
  induction n as [ n IH ] using lt_wf_ind. intros s ->.
  apply H. intros r Hr. now apply (IH (String.length r)).
Qed.

Lemma length_drop (n : nat) (s : string) :
  String.length (drop n s) = (String.length s - n)%nat.
Proof.
  revert s. induction n as [ | n IH ]; intros [ | c r ]; cbn; auto.
Qed.

Lemma take_drop (n : nat) (s : string) : take n s ++ drop n s = s.
Proof.
  revert s. induction n as [ | n IH ]; intros [ | c r ]; cbn; auto.
  now rewrite IH.
Qed.

Lemma reverse_onto_spec (s acc : string) :
  reverse_onto s acc = reverse s ++ acc.
Proof.
  unfold reverse. revert acc. induction s as [ | c r IH ]; intros acc.
  - reflexivity.
  - cbn [reverse_onto]. rewrite IH, (IH (String c "")), append_assoc.
    reflexivity.
Qed.

Lemma reverse_cons (c : ascii) (r : string) :
  reverse (String c r) = reverse r ++ String c "".
Proof. unfold reverse at 1. cbn [reverse_onto]. apply reverse_onto_spec. Qed.

Lemma reverse_append (a b : string) :
  reverse (a ++ b) = reverse b ++ reverse a.
Proof.
  induction a as [ | c a IH ].
  - cbn. now rewrite append_nil_r.
  - cbn [append]. now rewrite !reverse_cons, IH, append_assoc.
Qed.

Lemma reverse_involutive (s : string) : reverse (reverse s) = s.
Proof.
  induction s as [ | c r IH ]; [ reflexivity | ].
  now rewrite reverse_cons, reverse_append, IH.
Qed.

Section Trim.

(** The width of the rune to take off, at most the text that is there. *)
Variable width : string -> nat.
Hypothesis width_le : forall s, (width s <= String.length s)%nat.

Lemma trim_loop_fuel (f1 f2 : nat) (s : string) :
  (String.length s <= f1)%nat -> (String.length s <= f2)%nat ->
  trim_loop width f1 s = trim_loop width f2 s.
Proof.
  revert f2 s. induction f1 as [ | f1 IH ]; intros f2 s H1 H2.
  - pose proof (width_le s). destruct f2; cbn [trim_loop]; [ reflexivity | ].
    destruct (width s); [ reflexivity | lia ].
  - destruct f2 as [ | f2 ]; cbn [trim_loop].
    + pose proof (width_le s). destruct (width s); [ reflexivity | lia ].
    + destruct (width s) as [ | n ]; [ reflexivity | ].
      apply IH; rewrite length_drop; lia.
Qed.

Lemma trim_zero (s : string) : width s = O -> trim width s = s.
Proof.
  intros H. unfold trim. destruct (String.length s); cbn [trim_loop];
    [ reflexivity | now rewrite H ].
Qed.

Lemma trim_step (s : string) :
  width s <> O -> trim width s = trim width (drop (width s) s).
Proof.
  intros H. unfold trim. pose proof (width_le s) as Hle.
  destruct (String.length s) as [ | n ] eqn:E; [ lia | ].
  cbn [trim_loop]. destruct (width s) as [ | k ] eqn:Ew; [ contradiction | ].
  apply trim_loop_fuel; rewrite length_drop; lia.
Qed.

(** What is left starts with no rune to take off. *)
Lemma trim_stops (s : string) : width (trim width s) = O.
Proof.
  induction s as [ s IH ] using string_length_ind.
  destruct (width s) as [ | k ] eqn:E.
  - now rewrite trim_zero.
  - rewrite trim_step by lia. apply IH.
    pose proof (width_le s). rewrite length_drop. lia.
Qed.

Lemma trim_idem (s : string) : trim width (trim width s) = trim width s.
Proof. apply trim_zero, trim_stops. Qed.

(** What is left is an end of the text. *)
Lemma trim_suffix (s : string) : exists p, s = p ++ trim width s.
Proof.
  induction s as [ s IH ] using string_length_ind.
  destruct (width s) as [ | k ] eqn:E.
  - exists "". now rewrite trim_zero.
  - rewrite trim_step by lia. rewrite E.
    destruct (IH (drop (S k) s)) as [p Hp].
    { pose proof (width_le s). rewrite length_drop. lia. }
    exists (take (S k) s ++ p).
    rewrite append_assoc, <- Hp. symmetry. apply take_drop.
Qed.

End Trim.

Lemma leadingSpace_le (s : string) : (leadingSpace s <= String.length s)%nat.
Proof.
  destruct s as [ | c0 [ | c1 [ | c2 r ] ] ]; cbn [leadingSpace String.length];
    repeat match goal with
           | |- context [if ?b then _ else _] => destruct b
           end; lia.
Qed.

Lemma trailingSpace_le (s : string) : (trailingSpace s <= String.length s)%nat.
Proof.
  destruct s as [ | c0 [ | c1 [ | c2 r ] ] ]; cbn [trailingSpace String.length];
    repeat match goal with
           | |- context [if ?b then _ else _] => destruct b
           end; lia.
Qed.

(** A rune at the start of a part of the text is one at the start of the
    text. *)
Lemma leadingSpace_prefix (p q : string) :
  leadingSpace (p ++ q) = O -> leadingSpace p = O.
Proof.
  destruct p as [ | c0 [ | c1 [ | c2 r ] ] ]; cbn [leadingSpace append];
    try reflexivity;
    repeat match goal with
           | |- context [if ?b then _ else _] => destruct b
           end; try discriminate; reflexivity.
Qed.

(** *** The runes that are taken off *)

Lemma isByte_true (k : Z) (c : ascii) : isByte k c = true -> c = char_of k.
Proof.
  unfold isByte. intros H. apply Z.eqb_eq in H. rewrite <- H.
  symmetry. apply char_of_byte_of.
Qed.

Lemma isSpace_true (c : ascii) :
  isSpace c = true -> In (byte_of c) [9; 10; 11; 12; 13; 32] /\ byte_of c < 128.
Proof.
  destruct c as [[|] [|] [|] [|] [|] [|] [|] [|]]; intros H;
    try discriminate H; split; try reflexivity; cbn; tauto.
Qed.

Lemma isSpace2_true (c0 c1 : ascii) :
  isSpace2 c0 c1 = true ->
  exists r, In r [133; 160] /\ utf8_EncodeRune r = String c0 (String c1 "").
Proof.
  unfold isSpace2. intros H. apply andb_prop in H. destruct H as [H0 H1].
  apply isByte_true in H0. subst c0.
  apply orb_prop in H1. destruct H1 as [ H1 | H1 ];
    apply isByte_true in H1; subst c1;
    [ exists 133 | exists 160 ]; split; try reflexivity; cbn; tauto.
Qed.

Lemma isSpace3_true (c0 c1 c2 : ascii) :
  isSpace3 c0 c1 c2 = true ->
  exists r,
    In r [5760; 8192; 8193; 8194; 8195; 8196; 8197; 8198; 8199; 8200; 8201;
          8202; 8232; 8233; 8239; 8287; 12288]
    /\ utf8_EncodeRune r = String c0 (String c1 (String c2 "")).
Proof.
  unfold isSpace3. intros H.
  repeat match goal with
         | H : _ || _ = true |- _ => apply orb_prop in H; destruct H as [ H | H ]
         | H : _ && _ = true |- _ =>
             let H' := fresh H in apply andb_prop in H; destruct H as [H H']
         | H : isByte _ ?c = true |- _ => apply isByte_true in H; subst c
         end;
    [ exists 5760 | | exists 8232 | exists 8233 | exists 8239 | exists 8287
    | exists 12288 ];
    try (split; [ cbn; tauto | reflexivity ]).
  match goal with
  | Hr : inRange 128 138 c2 = true |- _ =>
      unfold inRange in Hr; apply andb_prop in Hr; destruct Hr as [Hlo Hhi]
  end.
  apply Z.leb_le in Hlo, Hhi. rewrite <- (char_of_byte_of c2).
  exists (8064 + byte_of c2).
  assert (Hc : byte_of c2 = 128 \/ byte_of c2 = 129 \/ byte_of c2 = 130
               \/ byte_of c2 = 131 \/ byte_of c2 = 132 \/ byte_of c2 = 133
               \/ byte_of c2 = 134 \/ byte_of c2 = 135 \/ byte_of c2 = 136
               \/ byte_of c2 = 137 \/ byte_of c2 = 138) by lia.
  repeat (destruct Hc as [ Hc | Hc ];
          [ rewrite Hc; split; [ cbn; tauto | reflexivity ] | ]).
  rewrite Hc. split; [ cbn; tauto | reflexivity ].
Qed.

(** The text starts with a rune of [unicode.IsSpace] in UTF-8 exactly when
    [leadingSpace] finds one, and ends with one exactly when
    [trailingSpace] finds one. *)
Lemma leadingSpace_spec (s : string) :
  leadingSpace s <> O
  <-> exists r rest, In r whiteSpace /\ s = utf8_EncodeRune r ++ rest.
Proof.
  split.
  - destruct s as [ | c0 r0 ]; [ intros H; now contradiction H | ].
    cbn [leadingSpace]. destruct (isSpace c0) eqn:E0.
    { intros _. destruct (isSpace_true c0 E0) as [Hin Hlow].
      exists (byte_of c0), r0. split.
      - unfold whiteSpace. cbn in Hin |- *. tauto.
      - unfold utf8_EncodeRune. apply Z.ltb_lt in Hlow. rewrite Hlow.
        now rewrite char_of_byte_of. }
    destruct r0 as [ | c1 r1 ]; [ intros H; now contradiction H | ].
    destruct (isSpace2 c0 c1) eqn:E2.
    { intros _. destruct (isSpace2_true c0 c1 E2) as (r & Hin & Hr).
      exists r, r1. rewrite Hr. split; [ | reflexivity ].
      unfold whiteSpace. cbn in Hin |- *. tauto. }
    destruct r1 as [ | c2 r2 ]; [ intros H; now contradiction H | ].
    destruct (isSpace3 c0 c1 c2) eqn:E3; [ | intros H; now contradiction H ].
    intros _. destruct (isSpace3_true c0 c1 c2 E3) as (r & Hin & Hr).
    exists r, r2. rewrite Hr. split; [ | reflexivity ].
    unfold whiteSpace. cbn in Hin |- *. tauto.
  - intros (r & rest & Hin & ->). unfold whiteSpace in Hin. cbn in Hin.
    repeat (destruct Hin as [ <- | Hin ]; [ discriminate | ]).
    contradiction.
Qed.

Lemma trailingSpace_spec (s : string) :
  trailingSpace (reverse s) <> O
  <-> exists r front, In r whiteSpace /\ s = front ++ utf8_EncodeRune r.
Proof.
  split.
  - intros H.
    assert (Hs : exists r back,
               In r whiteSpace
               /\ reverse s = reverse (utf8_EncodeRune r) ++ back).
    { revert H. generalize (reverse s) as t. intros t.
      destruct t as [ | c0 r0 ]; [ intros H; now contradiction H | ].
      cbn [trailingSpace]. destruct (isSpace c0) eqn:E0.
      { intros _. destruct (isSpace_true c0 E0) as [Hin Hlow].
        exists (byte_of c0), r0. split.
        - unfold whiteSpace. cbn in Hin |- *. tauto.
        - unfold utf8_EncodeRune. apply Z.ltb_lt in Hlow. rewrite Hlow.
          now rewrite char_of_byte_of. }
      destruct r0 as [ | c1 r1 ]; [ intros H; now contradiction H | ].
      destruct (isSpace2 c1 c0) eqn:E2.
      { intros _. destruct (isSpace2_true c1 c0 E2) as (r & Hin & Hr).
        exists r, r1. rewrite Hr. split; [ | reflexivity ].
        unfold whiteSpace. cbn in Hin |- *. tauto. }
      destruct r1 as [ | c2 r2 ]; [ intros H; now contradiction H | ].
      destruct (isSpace3 c2 c1 c0) eqn:E3; [ | intros H; now contradiction H ].
      intros _. destruct (isSpace3_true c2 c1 c0 E3) as (r & Hin & Hr).
      exists r, r2. rewrite Hr. split; [ | reflexivity ].
      unfold whiteSpace. cbn in Hin |- *. tauto. }
    destruct Hs as (r & back & Hin & Hr).
    exists r, (reverse back). split; [ exact Hin | ].
    rewrite <- (reverse_involutive s), Hr, reverse_append.
    now rewrite reverse_involutive.
  - intros (r & front & Hin & ->). rewrite reverse_append.
    unfold whiteSpace in Hin. cbn in Hin.
    repeat (destruct Hin as [ <- | Hin ]; [ discriminate | ]).
    contradiction.
Qed.

(** *** Bytes of ASCII that are no white space *)

Lemma isByte_low (k : Z) (c : ascii) :
  byte_of c < 128 -> 128 <= k -> isByte k c = false.
Proof. intros Hc Hk. unfold isByte. apply Z.eqb_neq. lia. Qed.

Lemma inRange_low (lo hi : Z) (c : ascii) :
  byte_of c < 128 -> 128 <= lo -> inRange lo hi c = false.
Proof.
  intros Hc Hk. unfold inRange. apply andb_false_intro1, Z.leb_gt. lia.
Qed.

Lemma digit_plain (c : ascii) : isDigit c = true -> plainByte c.
Proof.
  destruct c as [[|] [|] [|] [|] [|] [|] [|] [|]]; intros H;
    try discriminate H; split; reflexivity.
Qed.

Lemma leadingSpace_plain (c : ascii) (r : string) :
  plainByte c -> leadingSpace (String c r) = O.
Proof.
  intros [Hc Hs]. cbn [leadingSpace]. rewrite Hs.
  unfold isSpace2, isSpace3.
  rewrite !(isByte_low _ c Hc) by lia.
  destruct r as [ | c1 [ | c2 r ] ]; reflexivity.
Qed.

Lemma trailingSpace_plain (c : ascii) (r : string) :
  plainByte c -> trailingSpace (String c r) = O.
Proof.
  intros [Hc Hs]. cbn [trailingSpace]. rewrite Hs.
  unfold isSpace2, isSpace3.
  rewrite !(isByte_low _ c Hc), (inRange_low _ _ c Hc) by lia.
  destruct r as [ | c1 [ | c2 r ] ]; try reflexivity;
    rewrite ?andb_false_r; reflexivity.
Qed.

Lemma trimLeft_plain (c : ascii) (r : string) :
  plainByte c -> trimLeft (String c r) = String c r.
Proof. intros H. apply trim_zero. now apply leadingSpace_plain. Qed.

Lemma trimRight_plain (a : string) (c : ascii) :
  plainByte c -> trimRight (a ++ String c "") = a ++ String c "".
Proof.
  intros H. unfold trimRight. rewrite reverse_append.
  change (reverse (String c "")) with (String c "").
  cbn [append]. rewrite trim_zero by now apply trailingSpace_plain.
  change (String c (reverse a)) with (String c "" ++ reverse a).
  now rewrite reverse_append, reverse_involutive.
Qed.

Lemma trimRight_newline (s : string) : trimRight (s ++ nl) = trimRight s.
Proof.
  unfold trimRight. rewrite reverse_append.
  change (reverse nl) with nl. unfold nl at 1. cbn [append].
  now rewrite (trim_step trailingSpace trailingSpace_le) by discriminate.
Qed.

Lemma allDigits_last (s : string) :
  s <> "" -> allDigits s = true ->
  exists a d, s = a ++ String d "" /\ isDigit d = true.
Proof.
  induction s as [ | c s IH ]; intros Hne H; [ contradiction | ].
  cbn [allDigits] in H. apply andb_prop in H. destruct H as [Hc Hs].
  destruct s as [ | c' s' ].
  - now exists "", c.
  - destruct (IH ltac:(discriminate) Hs) as (a & d & E & Hd).
    exists (String c a), d. cbn [append]. now rewrite <- E.
Qed.

(** A line whose text starts with a byte of ASCII that is no white space
    and ends with that byte or with digits is trimmed to that text. *)
Lemma TrimSpace_framed (c : ascii) (mid last : string) :
  plainByte c ->
  (mid = "" /\ last = "") \/ (last <> "" /\ allDigits last = true) ->
  strings_TrimSpace ((String c mid ++ last) ++ nl) = String c mid ++ last.
Proof.
  intros Hc Hl. unfold strings_TrimSpace.
  set (text := String c mid ++ last).
  assert (E : text ++ nl = String c ((mid ++ last) ++ nl)) by reflexivity.
  rewrite E, trimLeft_plain, <- E, trimRight_newline by exact Hc.
  unfold text. destruct Hl as [ [-> ->] | [Hne Hd] ].
  - apply (trimRight_plain "" c Hc).
  - destruct (allDigits_last last Hne Hd) as (a & d & -> & Hdd).
    rewrite <- append_assoc. apply trimRight_plain. now apply digit_plain.
Qed.

(** ** The prompt of [deleteTask] *)

Lemma digit_not_isSpace (c : ascii) : isDigit c = true -> isSpace c = false.
Proof.
  destruct c as [[|] [|] [|] [|] [|] [|] [|] [|]]; intros H;
    try reflexivity; discriminate H.
Qed.

Lemma upperByte_digit_not_Q (c : ascii) :
  isDigit c = true \/ c = "-"%char -> Ascii.eqb (upperByte c) "Q"%char = false.
Proof.
  intros [ H | -> ]; [ | reflexivity ].
  destruct c as [[|] [|] [|] [|] [|] [|] [|] [|]];
    try reflexivity; discriminate H.
Qed.

(** [strconv.Atoi] on a text that starts with a digit: there is no sign. *)
Lemma Atoi_digit_head (c : ascii) (r : string) :
  isDigit c = true ->
  strconv_Atoi (String c r)
  = match parseDigits (String c r) with
    | None => None
    | Some n => if (MinInt64 <=? n) && (n <=? MaxInt64) then Some n else None
    end.
Proof.
  destruct c as [[|] [|] [|] [|] [|] [|] [|] [|]]; intros H;
    try reflexivity; discriminate H.
Qed.

(** What [strconv.Itoa] writes: a digit or a minus sign, then digits. *)
Lemma Itoa_shape (z : Z) :
  exists c r,
    strconv_Itoa z = String c r
    /\ (isDigit c = true \/ c = "-"%char) /\ allDigits r = true.
Proof.
  destruct z as [ | p | p ].
  - exists "0"%char, "". repeat split; auto.
  - pose proof (Itoa_allDigits (Z.pos p) ltac:(lia)) as Ha.
    pose proof (Itoa_value (Z.pos p) ltac:(lia)) as Hv.
    destruct (strconv_Itoa (Z.pos p)) as [ | c r ]; [ discriminate Hv | ].
    cbn [allDigits] in Ha. apply andb_prop in Ha. exists c, r. tauto.
  - rewrite Itoa_neg. exists "-"%char, (strconv_Itoa (Z.pos p)).
    split; [ reflexivity | ]. split; [ now right | ].
    apply Itoa_allDigits. lia.
Qed.

(** The line that holds a number as the program prints it is trimmed to
    that text. *)
Lemma TrimSpace_Itoa_newline (z : Z) :
  strings_TrimSpace (strconv_Itoa z ++ nl) = strconv_Itoa z.
Proof.
  destruct (Itoa_shape z) as (c & r & E & Hc & Hr). rewrite E.
  assert (Hp : plainByte c)
    by (destruct Hc as [ Hc | -> ];
        [ now apply digit_plain | split; reflexivity ]).
  destruct r as [ | d r ].
  - apply (TrimSpace_framed c "" "" Hp).
    now left.
  - apply (TrimSpace_framed c "" (String d r) Hp).
    right. split; [ discriminate | exact Hr ].
Qed.

Lemma ToUpper_Itoa_not_Q (z : Z) :
  String.eqb (strings_ToUpper (strconv_Itoa z)) "Q" = false.
Proof.
  destruct (Itoa_shape z) as (c & r & E & Hc & _). rewrite E.
  cbn [strings_ToUpper String.eqb]. now rewrite (upperByte_digit_not_Q c Hc).
Qed.

(** [strconv.Atoi] reads back what [strconv.Itoa] writes for an [int]. *)
Lemma Atoi_Itoa (z : Z) :
  MinInt64 <= z <= MaxInt64 -> strconv_Atoi (strconv_Itoa z) = Some z.
Proof.
  intros Hz.
  assert (Hrange : (MinInt64 <=? z) && (z <=? MaxInt64) = true)
    by (apply andb_true_intro; split; apply Z.leb_le; lia).
  destruct z as [ | p | p ].
  - reflexivity.
  - pose proof (Itoa_allDigits (Z.pos p) ltac:(lia)) as Ha.
    pose proof (Itoa_value (Z.pos p) ltac:(lia)) as Hv.
    destruct (strconv_Itoa (Z.pos p)) as [ | c r ]; [ discriminate Hv | ].
    cbn [allDigits] in Ha. apply andb_prop in Ha. destruct Ha as [Hc _].
    rewrite (Atoi_digit_head c r Hc), Hv, Hrange. reflexivity.
  - rewrite Itoa_neg. unfold strconv_Atoi. cbv beta iota.
    rewrite Itoa_value by lia. change (- Z.pos p) with (Z.neg p).
    rewrite Hrange. reflexivity.
Qed.

Lemma deleteById_result (id : Z) (w : World) :
  result (deleteById id w)
  = if findIndex id (TasksSlice w) =? -1 then NotFound else Deleted.
Proof.
  unfold deleteById. autorewrite with go.
  destruct (findIndex id (TasksSlice w) =? -1); reflexivity.
Qed.

(** A number at the prompt is handed to the deletion. *)
Lemma step_AtDelete_number (l : string) (t : Time) (w : World) (id : Z) :
  String.eqb (strings_ToUpper (strings_TrimSpace l)) "Q" = false ->
  strconv_Atoi (strings_TrimSpace l) = Some id ->
  world_of (step AtDelete l t w) = world_of (deleteById id w).
Proof.
  intros Hq Ha. unfold step. rewrite Hq, Ha.
  step_branches; rewrite ?showMenu_world, ?deleteTask_show_world; reflexivity.
Qed.

(** X8: the ID that the list of [deleteTask] prints for a task, typed at
    its prompt and followed by Enter, removes the first task of the slice
    with that ID and leaves the others in their order. *)
Theorem typed_id_deletes_task (task : Task) (t : Time) (w : World) :
  In task (TasksSlice w) ->
  MinInt64 <= ID task <= MaxInt64 ->
  exists l1 found l2,
    TasksSlice w = (l1 ++ found :: l2)%list
    /\ ID found = ID task
    /\ ~ In (ID task) (ids l1)
    /\ TasksSlice (world_of (step AtDelete (strconv_Itoa (ID task) ++ nl) t w))
       = (l1 ++ l2)%list.
Proof.
  intros Hin Hz.
  assert (Hid : In (ID task) (ids (TasksSlice w))) by (apply in_map; exact Hin).
  destruct (deleteById_present (ID task) w Hid)
    as (l1 & found & l2 & Hw & Hf & Hn & _ & Hts).
  exists l1, found, l2. repeat split; auto.
  rewrite (step_AtDelete_number _ t w (ID task)).
  - exact Hts.
  - rewrite TrimSpace_Itoa_newline. apply ToUpper_Itoa_not_Q.
  - rewrite TrimSpace_Itoa_newline. now apply Atoi_Itoa.
Qed.

Lemma typed_id_deletes_task_witness :
  let w := mkWorld sixTasks emptyDisk in
  In (sampleTask 3 "C") (TasksSlice w)
  /\ exists l1 found l2,
       sixTasks = (l1 ++ found :: l2)%list
       /\ ID found = 3
       /\ TasksSlice (world_of (step AtDelete (strconv_Itoa 3 ++ nl) noon w))
          = (l1 ++ l2)%list.
Proof.
  intros w.
  assert (Hin : In (sampleTask 3 "C") (TasksSlice w))
    by (right; right; left; reflexivity).
  assert (Hz : MinInt64 <= ID (sampleTask 3 "C") <= MaxInt64)
    by (vm_compute; split; discriminate).
  split; [ exact Hin | ].
  destruct (typed_id_deletes_task (sampleTask 3 "C") noon w Hin Hz)
    as (l1 & found & l2 & H1 & H2 & _ & H3).
  exists l1, found, l2. auto.
Defined.

(** X9: a step of the program leaves the tasks as they are, or it appends
    one task, which only the step that reads the due date does, or it
    removes exactly one task, which only the step that reads the ID to
    delete does: the first task whose ID is the number that was typed. *)
Theorem step_changes_one_task_at_most (c : Ctrl) (l : string) (t : Time)
    (w : World) :
  let ts := TasksSlice w in
  let ts' := TasksSlice (world_of (step c l t w)) in
  ts' = ts
  \/ (exists taskTitle taskAssigned dueDate,
        c = AtAddDue taskTitle taskAssigned
        /\ time_Parse (strings_TrimSpace l) = Some dueDate
        /\ ts' = (ts ++ [mkTask (len ts + 1) taskTitle taskAssigned false
                            dueDate t])%list)
  \/ (exists id l1 task l2,
        c = AtDelete
        /\ strconv_Atoi (strings_TrimSpace l) = Some id
        /\ ts = (l1 ++ task :: l2)%list
        /\ ID task = id
        /\ ~ In id (ids l1)
        /\ ts' = (l1 ++ l2)%list).
Proof.
  cbv zeta.
  destruct c;
    try (left; unfold step; step_branches;
         rewrite ?showMenu_world, ?showAllTask_world, ?deleteTask_show_world;
         reflexivity).
  - assert (Hk : forall r w',
               world_of (match r with
                         | Added _ => addTask_askAgain ;; ret AtAddAgain
                         | BadDate => addTask_prompt ;; ret AtAddTitle
                         end%go w') = w')
      by (intros [ ? | ] w'; reflexivity).
    unfold step. rewrite world_bind, Hk, addTask_submit_world.
    destruct (time_Parse (strings_TrimSpace l)) as [ dueDate | ] eqn:Hp;
      [ right; left | left; reflexivity ].
    exists taskTitle, taskAssigned, dueDate.
    rewrite saveTask_tasks. auto.
  - destruct (String.eqb (strings_ToUpper (strings_TrimSpace l)) "Q") eqn:Hq.
    { left. unfold step. rewrite Hq. autorewrite with go.
      now rewrite showMenu_world. }
    destruct (strconv_Atoi (strings_TrimSpace l)) as [ id | ] eqn:Ha.
    2:{ left. unfold step. rewrite Hq, Ha. autorewrite with go.
        now rewrite deleteTask_show_world. }
    rewrite (step_AtDelete_number l t w id Hq Ha).
    destruct (in_dec Z.eq_dec id (ids (TasksSlice w))) as [ Hin | Hn ].
    + right. right. destruct (deleteById_present id w Hin)
        as (l1 & task & l2 & Hw & Hf & Hn & _ & Hts).
      exists id, l1, task, l2. auto 10.
    + left. now rewrite (deleteById_absent id w Hn).
Qed.

(** ** A create and the deletion of its task *)

Lemma findIndex_from_last (id : Z) (ts : list Task) (task : Task) (i : Z) :
  ~ In id (ids ts) -> ID task = id ->
  findIndex_from i id (ts ++ [task]) = i + len ts.
Proof.
  revert i. induction ts as [ | x ts IH ]; intros i Hn Hid.
  - cbn. rewrite Hid, Z.eqb_refl. unfold len. simpl. lia.
  - cbn [app findIndex_from]. cbn in Hn.
    destruct (ID x =? id) eqn:E; [ apply Z.eqb_eq in E; tauto | ].
    rewrite IH by tauto. unfold len. cbn [List.length]. lia.
Qed.

Lemma findIndex_from_front (id : Z) (ts more : list Task) (i : Z) :
  In id (ids ts) ->
  findIndex_from i id (ts ++ more) = findIndex_from i id ts.
Proof.
  revert i. induction ts as [ | x ts IH ]; intros i Hin; [ destruct Hin | ].
  cbn [app findIndex_from]. cbn in Hin.
  destruct (ID x =? id) eqn:E; [ reflexivity | ].
  apply Z.eqb_neq in E. apply IH. tauto.
Qed.

(** X10: where the next ID is not the ID of a task of the slice, a create
    followed by the deletion of the ID it has assigned gives back the
    slice from before the create. *)
Theorem create_then_delete_restores (titleLine assignedLine dueLine : string)
    (now : Time) (w : World) (task : Task) :
  ~ In (nextID w) (ids (TasksSlice w)) ->
  result (create titleLine assignedLine dueLine now w) = Added task ->
  let w1 := world_of (create titleLine assignedLine dueLine now w) in
  result (deleteById (ID task) w1) = Deleted
  /\ TasksSlice (world_of (deleteById (ID task) w1)) = TasksSlice w.
Proof.
  intros Hfresh H w1.
  pose proof (create_uses_nextID _ _ _ _ _ _ H) as Hid.
  destruct (create_result_inv _ _ _ _ _ _ H) as (dueDate & Hp & Ht).
  destruct (create_parsed titleLine assignedLine dueLine now w dueDate Hp)
    as [_ Hts].
  rewrite <- Ht in Hts. fold w1 in Hts. rewrite <- Hid in Hfresh.
  assert (Hf : findIndex (ID task) (TasksSlice w1) = len (TasksSlice w)).
  { rewrite Hts. unfold findIndex.
    rewrite findIndex_from_last by auto. lia. }
  assert (Hne : (len (TasksSlice w) =? -1) = false)
    by (apply Z.eqb_neq; pose proof (len_nonneg (TasksSlice w)); lia).
  rewrite deleteById_result, deleteById_world, Hf, Hne. split; [ reflexivity | ].
  rewrite saveTask_tasks. cbn [TasksSlice]. rewrite Hts.
  rewrite removeAt_middle. apply List.app_nil_r.
Qed.

Lemma create_then_delete_restores_witness :
  let w := mkWorld [sampleTask 1 "A"; sampleTask 2 "B"] emptyDisk in
  let w1 := world_of (create "c" "" "Dec 25, 2024" noon w) in
  ~ In (nextID w) (ids (TasksSlice w))
  /\ TasksSlice (world_of (deleteById 3 w1)) = TasksSlice w.
Proof.
  intros w w1.
  assert (Hfresh : ~ In (nextID w) (ids (TasksSlice w)))
    by (intros [ H | [ H | [] ] ]; discriminate H).
  assert (H : result (create "c" "" "Dec 25, 2024" noon w)
              = Added (mkTask 3 "C" "" false christmas noon))
    by (vm_compute; reflexivity).
  split; [ exact Hfresh | ].
  exact (proj2 (create_then_delete_restores "c" "" "Dec 25, 2024" noon w _
                  Hfresh H)).
Defined.

(** X17: where the next ID is the ID of a task of the slice, the deletion
    of the ID that a create has just assigned removes the older task with
    that ID; the new task stays, as the last one. *)
Theorem delete_after_collision_removes_older
    (titleLine assignedLine dueLine : string)
    (now : Time) (w : World) (task : Task) :
  In (nextID w) (ids (TasksSlice w)) ->
  result (create titleLine assignedLine dueLine now w) = Added task ->
  let w1 := world_of (create titleLine assignedLine dueLine now w) in
  exists l1 older l2,
    TasksSlice w = (l1 ++ older :: l2)%list
    /\ ID older = ID task
    /\ TasksSlice (world_of (deleteById (ID task) w1))
       = (l1 ++ l2 ++ [task])%list.
Proof.
  intros Htaken H w1.
  pose proof (create_uses_nextID _ _ _ _ _ _ H) as Hid.
  destruct (create_result_inv _ _ _ _ _ _ H) as (dueDate & Hp & Ht).
  destruct (create_parsed titleLine assignedLine dueLine now w dueDate Hp)
    as [_ Hts].
  rewrite <- Ht in Hts. fold w1 in Hts. rewrite <- Hid in Htaken.
  destruct (findIndex_from_present (ID task) (TasksSlice w) 0 Htaken)
    as (l1 & older & l2 & Hw & Ho & _ & Hf).
  exists l1, older, l2. repeat split; auto.
  assert (Hf1 : findIndex (ID task) (TasksSlice w1) = len l1).
  { rewrite Hts. unfold findIndex.
    rewrite findIndex_from_front by exact Htaken. rewrite Hf. lia. }
  assert (Hne : (len l1 =? -1) = false)
    by (apply Z.eqb_neq; pose proof (len_nonneg l1); lia).
  rewrite deleteById_world, Hf1, Hne, saveTask_tasks. cbn [TasksSlice].
  rewrite Hts, Hw, <- List.app_assoc. cbn [app].
  apply removeAt_middle.
Qed.

Lemma delete_after_collision_removes_older_witness :
  let w := applyOps threeThenDeleteFirst (initialWorld emptyDisk) in
  let w1 := world_of (create "d" "" "Dec 25, 2024" noon w) in
  In (nextID w) (ids (TasksSlice w))
  /\ exists l1 older l2,
       TasksSlice w = (l1 ++ older :: l2)%list
       /\ ID older = 3
       /\ TasksSlice (world_of (deleteById 3 w1))
          = (l1 ++ l2 ++ [mkTask 3 "D" "" false christmas noon])%list.
Proof.
  intros w w1.
  assert (Htaken : In (nextID w) (ids (TasksSlice w)))
    by (vm_compute; right; left; reflexivity).
  assert (H : result (create "d" "" "Dec 25, 2024" noon w)
              = Added (mkTask 3 "D" "" false christmas noon))
    by (vm_compute; reflexivity).
  split; [ exact Htaken | ].
  exact (delete_after_collision_removes_older "d" "" "Dec 25, 2024" noon w _
           Htaken H).
Defined.

(** X13: the scan of [deleteTask] ends with [-1] exactly when no task has
    the ID; otherwise it ends with the index of the first task that has
    it, an index of the slice. *)
Theorem findIndex_is_first_match (id : Z) (ts : list Task) :
  (findIndex id ts = -1 /\ ~ In id (ids ts))
  \/ exists task,
       nth_error ts (Z.to_nat (findIndex id ts)) = Some task
       /\ ID task = id
       /\ 0 <= findIndex id ts < len ts
       /\ ~ In id (ids (firstn (Z.to_nat (findIndex id ts)) ts)).
Proof.
  destruct (in_dec Z.eq_dec id (ids ts)) as [ Hin | Hn ].
  - right.
    destruct (findIndex_from_present id ts 0 Hin)
      as (l1 & task & l2 & -> & Hid & Hn & Hf).
    unfold findIndex. rewrite Hf, Z.add_0_l. unfold len.
    rewrite !Nat2Z.id. exists task. repeat split; auto.
    + rewrite nth_error_app2 by lia. now rewrite Nat.sub_diag.
    + lia.
    + rewrite length_app. cbn [List.length]. lia.
    + now rewrite firstn_length_app.
  - left. split; [ | exact Hn ]. now apply findIndex_from_absent.
Qed.

(** ** The tasks that the program makes *)

Lemma idsUpTo_S (n : nat) : idsUpTo (S n) = (idsUpTo n ++ [Z.of_nat n + 1])%list.
Proof.
  unfold idsUpTo. rewrite seq_S, map_app. cbn [map]. do 2 f_equal. lia.
Qed.

Lemma idsUpTo_bound (n : nat) (id : Z) : In id (idsUpTo n) -> 1 <= id <= Z.of_nat n.
Proof.
  unfold idsUpTo. intros H. apply in_map_iff in H.
  destruct H as (k & <- & Hk). apply in_seq in Hk. lia.
Qed.

Lemma applyOps_cons (o : Op) (ops : list Op) (w : World) :
  applyOps (o :: ops) w = applyOps ops (applyOp o w).
Proof. reflexivity. Qed.

(** X11: as long as the store operations are creates only, whether their
    dates parse or not, the IDs of the slice are 1, 2, ... in this order,
    and the next ID is the ID of no task. *)
Theorem creates_number_from_one (ops : list Op) (w : World) :
  forallb isCreate ops = true ->
  ids (TasksSlice w) = idsUpTo (List.length (TasksSlice w)) ->
  let w' := applyOps ops w in
  ids (TasksSlice w') = idsUpTo (List.length (TasksSlice w'))
  /\ ~ In (nextID w') (ids (TasksSlice w')).
Proof.
  intros Hc Hw w'.
  assert (H : ids (TasksSlice w') = idsUpTo (List.length (TasksSlice w'))).
  { unfold w'. clear w'. revert w Hw.
    induction ops as [ | o ops IH ]; intros w Hw; [ exact Hw | ].
    cbn [forallb] in Hc. apply andb_prop in Hc. destruct Hc as [Ho Hc].
    rewrite applyOps_cons. apply (IH Hc).
    destruct o as [ titleLine assignedLine dueLine now | id ];
      [ | discriminate Ho ].
    cbn [applyOp].
    destruct (time_Parse (strings_TrimSpace dueLine)) as [ dueDate | ] eqn:Hp.
    - destruct (create_parsed titleLine assignedLine dueLine now w dueDate Hp)
        as [_ Hts].
      rewrite Hts, ids_app, length_app, Hw. cbn [List.length].
      rewrite Nat.add_1_r, idsUpTo_S. reflexivity.
    - destruct (create_unparsed titleLine assignedLine dueLine now w Hp)
        as [_ Hsame].
      now rewrite Hsame. }
  split; [ exact H | ].
  rewrite H. intros Hin. apply idsUpTo_bound in Hin.
  unfold nextID, len in Hin. lia.
Qed.

Lemma creates_number_from_one_witness :
  forallb isCreate threeCreates = true
  /\ ids (TasksSlice (applyOps threeCreates (initialWorld emptyDisk))) = idsUpTo 2.
Proof.
  assert (Hc : forallb isCreate threeCreates = true) by reflexivity.
  assert (Hw : ids (TasksSlice (initialWorld emptyDisk))
               = idsUpTo (List.length (TasksSlice (initialWorld emptyDisk))))
    by reflexivity.
  split; [ exact Hc | ].
  rewrite (proj1 (creates_number_from_one threeCreates (initialWorld emptyDisk)
                    Hc Hw)).
  vm_compute. reflexivity.
Defined.

Lemma madeWithin_more (k k' : Z) (task : Task) :
  k <= k' -> madeWithin k task -> madeWithin k' task.
Proof. unfold madeWithin. intros Hk (H1 & H2 & H3 & H4). repeat split; auto; lia. Qed.

(** A deletion keeps the tasks it does not remove. *)
Lemma deleteById_keeps (P : Task -> Prop) (id : Z) (w : World) :
  Forall P (TasksSlice w) ->
  Forall P (TasksSlice (world_of (deleteById id w)))
  /\ len (TasksSlice (world_of (deleteById id w))) <= len (TasksSlice w).
Proof.
  intros H. destruct (in_dec Z.eq_dec id (ids (TasksSlice w))) as [ Hin | Hn ].
  - destruct (deleteById_present id w Hin)
      as (l1 & task & l2 & Hw & _ & _ & _ & Hts).
    rewrite Hts. rewrite Hw in H |- *.
    apply Forall_app in H. destruct H as [H1 H2].
    apply Forall_inv_tail in H2. split; [ apply Forall_app; auto | ].
    unfold len. rewrite !length_app. cbn [List.length]. lia.
  - rewrite (deleteById_absent id w Hn). cbn [world_of fst snd].
    split; [ exact H | lia ].
Qed.

Lemma applyOps_madeWithin (ops : list Op) (w : World) (k : Z) :
  len (TasksSlice w) <= k ->
  Forall (madeWithin k) (TasksSlice w) ->
  Forall (madeWithin (k + Z.of_nat (List.length ops)))
         (TasksSlice (applyOps ops w)).
Proof.
  revert w k. induction ops as [ | o ops IH ]; intros w k Hl Hf.
  - cbn. now rewrite Z.add_0_r.
  - rewrite applyOps_cons.
    replace (k + Z.of_nat (List.length (o :: ops)))
      with ((k + 1) + Z.of_nat (List.length ops))
      by (cbn [List.length]; lia).
    assert (Hf1 : Forall (madeWithin (k + 1)) (TasksSlice w))
      by (eapply Forall_impl; [ | exact Hf ];
          intros task; apply madeWithin_more; lia).
    destruct o as [ titleLine assignedLine dueLine now | id ]; cbn [applyOp].
    + destruct (time_Parse (strings_TrimSpace dueLine)) as [ dueDate | ] eqn:Hp.
      * destruct (create_parsed titleLine assignedLine dueLine now w dueDate Hp)
          as [_ Hts].
        apply IH; rewrite Hts.
        -- rewrite len_app. lia.
        -- apply Forall_app. split; [ exact Hf1 | ].
           constructor; [ | constructor ].
           pose proof (len_nonneg (TasksSlice w)).
           unfold madeWithin, madeTask, readField.
           cbn [Status ID Title AssignedTo].
           rewrite !ToUpper_noLower. repeat split; lia.
      * destruct (create_unparsed titleLine assignedLine dueLine now w Hp)
          as [_ Hsame].
        rewrite Hsame. apply IH; [ lia | exact Hf1 ].
    + destruct (deleteById_keeps (madeWithin (k + 1)) id w Hf1) as [Hd Hlen].
      apply IH; [ lia | exact Hd ].
Qed.

(** X12: every task of a slice that the creates and deletions of the
    program have made from the empty slice is not done, has an ID from 1
    up to the number of operations, and has no lower-case letter in its
    title and its assignee: no code sets [Status] or changes a task that
    is stored. *)
Theorem stored_tasks_are_as_made (ops : list Op) (d : Disk) :
  Forall (madeWithin (Z.of_nat (List.length ops)))
         (TasksSlice (applyOps ops (initialWorld d))).
Proof.
  apply (applyOps_madeWithin ops (initialWorld d) 0).
  - cbn. lia.
  - constructor.
Qed.

(** ** The due date *)

Lemma time_Parse_midnight (value : string) (t : Time) :
  time_Parse value = Some t ->
  t = mkTime (year t) (month t) (day t) 0 0 0 0 0.
Proof.
  unfold time_Parse.
  destruct (lookup shortMonthNames value) as [ [i v1] | ]; [ | discriminate ].
  destruct (skip v1 " ") as [ v2 | ]; [ | discriminate ].
  destruct (getnum_fixed v2) as [ [d v3] | ]; [ | discriminate ].
  destruct (skip v3 ", ") as [ v4 | ]; [ | discriminate ].
  destruct (getyear v4) as [ [y v5] | ]; [ | discriminate ].
  destruct v5; [ | discriminate ].
  destruct ((d <? 1) || (daysIn (i + 1) y <? d)); [ discriminate | ].
  intros [= <-]. reflexivity.
Qed.

Lemma validTime_calendar (t : Time) :
  validTime t = true ->
  0 <= year t <= 9999 /\ 1 <= month t <= 12
  /\ 1 <= day t <= daysIn (month t) (year t).
Proof. unfold validTime. intros H. split_andb. lia. Qed.

(** X14: the due date of a task that a create has stored is a day of the
    calendar, so never a day like Feb 30, of a year from 0 to 9999, at
    midnight UTC. *)
Theorem due_date_is_a_calendar_day (titleLine assignedLine dueLine : string)
    (now : Time) (w : World) (task : Task) :
  result (create titleLine assignedLine dueLine now w) = Added task ->
  let due := DueDate task in
  0 <= year due <= 9999
  /\ 1 <= month due <= 12
  /\ 1 <= day due <= daysIn (month due) (year due)
  /\ due = mkTime (year due) (month due) (day due) 0 0 0 0 0.
Proof.
  intros H due.
  destruct (create_result_inv _ _ _ _ _ _ H) as (dueDate & Hp & Ht).
  assert (Hd : due = dueDate) by (unfold due; now rewrite Ht).
  rewrite Hd.
  pose proof (validTime_calendar dueDate (time_Parse_valid _ _ Hp)) as Hv.
  pose proof (time_Parse_midnight _ _ Hp) as Hm. tauto.
Qed.

Lemma due_date_is_a_calendar_day_witness :
  let r := create "buy milk" "" "Feb 29, 2024" noon (initialWorld emptyDisk) in
  exists task,
    result r = Added task
    /\ day (DueDate task) <= daysIn (month (DueDate task)) (year (DueDate task)).
Proof.
  intros r.
  assert (H : result r = Added (mkTask 1 "BUY MILK" "" false
                                  (mkTime 2024 2 29 0 0 0 0 0) noon))
    by (vm_compute; reflexivity).
  eexists. split; [ exact H | ].
  apply (due_date_is_a_calendar_day "buy milk" "" "Feb 29, 2024" noon
           (initialWorld emptyDisk) _ H).
Defined.

Lemma month_name_head (m : Z) :
  1 <= m <= 12 ->
  exists c r,
    nth (Z.to_nat (m - 1)) shortMonthNames "" = String c r
    /\ plainByte c.
Proof.
  intros Hm.
  assert (H : m = 1 \/ m = 2 \/ m = 3 \/ m = 4 \/ m = 5 \/ m = 6 \/ m = 7
              \/ m = 8 \/ m = 9 \/ m = 10 \/ m = 11 \/ m = 12) by lia.
  repeat (destruct H as [ -> | H ];
          [ eexists; eexists; repeat split; reflexivity | ]).
  subst m. eexists. eexists. repeat split; reflexivity.
Qed.

Lemma TrimSpace_Format_newline (t : Time) :
  0 <= year t <= 9999 -> 1 <= month t <= 12 ->
  strings_TrimSpace (time_Format t ++ nl) = time_Format t.
Proof.
  intros Hy Hm.
  destruct (month_name_head (month t) Hm) as (c & r & E & Hs).
  destruct (appendInt_digits 4 (year t) ltac:(simpl; lia) ltac:(lia))
    as (Hl4 & Ha4 & _).
  assert (Hf : time_Format t
               = String c (r ++ " " ++ appendInt 2 (day t) ++ ", ")
                 ++ appendInt 4 (year t)).
  { unfold time_Format. rewrite E.
    change (String c (r ++ " " ++ appendInt 2 (day t) ++ ", "))
      with (String c r ++ (" " ++ appendInt 2 (day t) ++ ", ")).
    now rewrite !append_assoc. }
  rewrite Hf. apply TrimSpace_framed; [ exact Hs | right ].
  split; [ | exact Ha4 ].
  intros H0. rewrite H0 in Hl4. discriminate Hl4.
Qed.

(** X15: the due date of a stored task, as [showAllTask], [deleteTask] and
    the confirmation of [addTask] print it, is a due date that [addTask]
    takes, and the task it then stores has the same due date. *)
Theorem printed_due_date_is_accepted
    (titleLine assignedLine dueLine : string) (now : Time) (w : World)
    (task : Task)
    (titleLine' assignedLine' : string) (now' : Time) (w' : World) :
  result (create titleLine assignedLine dueLine now w) = Added task ->
  time_Parse (strings_TrimSpace (time_Format (DueDate task) ++ nl))
  = Some (DueDate task)
  /\ exists task',
       result (create titleLine' assignedLine'
                 (time_Format (DueDate task) ++ nl) now' w') = Added task'
       /\ DueDate task' = DueDate task.
Proof.
  intros H.
  cut (time_Parse (strings_TrimSpace (time_Format (DueDate task) ++ nl))
       = Some (DueDate task)).
  { intros Hp. split; [ exact Hp | ].
    exists (madeTask titleLine' assignedLine' now' w' (DueDate task)).
    split; [ | reflexivity ].
    exact (proj1 (create_parsed titleLine' assignedLine' _ now' w' _ Hp)). }
  destruct (create_result_inv _ _ _ _ _ _ H) as (dueDate & Hp & Ht).
  assert (Hd : DueDate task = dueDate) by now rewrite Ht.
  rewrite Hd.
  destruct (validTime_calendar dueDate (time_Parse_valid _ _ Hp))
    as (Hy & Hm & Hday).
  pose proof (time_Parse_midnight _ _ Hp) as Hmid.
  rewrite TrimSpace_Format_newline by assumption.
  rewrite Hmid at 1 2. apply time_Parse_Format; assumption.
Qed.

Lemma printed_due_date_is_accepted_witness :
  let w := initialWorld emptyDisk in
  let task := mkTask 1 "BUY MILK" "" false christmas noon in
  result (create "buy milk" "" "dec  25, 2024" noon w) = Added task
  /\ time_Parse (strings_TrimSpace (time_Format christmas ++ nl))
     = Some christmas.
Proof.
  intros w task.
  assert (H : result (create "buy milk" "" "dec  25, 2024" noon w) = Added task)
    by (vm_compute; reflexivity).
  split; [ exact H | ].
  exact (proj1 (printed_due_date_is_accepted "buy milk" "" "dec  25, 2024"
                  noon w task "again" "" noon w H)).
Defined.

(** ** The end of the program *)

(** X18: the program ends on the command Q at the main menu, in either
    case and with white space around it, and on nothing else; it then
    prints its three good-byes, each for 700 ms on a cleared screen, and
    writes nothing. *)
Theorem exits_only_on_quit (c : Ctrl) (l : string) (t : Time) (w : World) :
  c <> Exited ->
  (result (step c l t w) = Exited
   <-> c = AtMain /\ strings_ToUpper (strings_TrimSpace l) = "Q")
  /\ (result (step c l t w) = Exited ->
      world_of (step c l t w) = w
      /\ output (step c l t w) = goodByeScreens).
Proof.
  intros Hc.
  assert (Hother : c <> AtMain -> result (step c l t w) <> Exited).
  { destruct c; intros Hm;
      try (unfold step; step_branches; discriminate);
      contradiction. }
  assert (Hmain :
            if String.eqb (strings_ToUpper (strings_TrimSpace l)) "Q"
            then result (step AtMain l t w) = Exited
                 /\ world_of (step AtMain l t w) = w
                 /\ output (step AtMain l t w) = goodByeScreens
            else result (step AtMain l t w) <> Exited).
  { destruct (String.eqb (strings_ToUpper (strings_TrimSpace l)) "Q") eqn:EQ.
    - apply String.eqb_eq in EQ. unfold step. rewrite EQ.
      repeat split.
    - unfold step. rewrite EQ.
      destruct (String.eqb (strings_ToUpper (strings_TrimSpace l)) "A");
        [ autorewrite with go; discriminate | ].
      destruct (String.eqb (strings_ToUpper (strings_TrimSpace l)) "V");
        [ autorewrite with go; discriminate | ].
      step_branches; discriminate. }
  destruct (String.eqb (strings_ToUpper (strings_TrimSpace l)) "Q") eqn:EQ.
  - apply String.eqb_eq in EQ. destruct Hmain as (Hr & Hw & Ho).
    split; [ split | ].
    + intros H. split; [ | exact EQ ].
      destruct c; try reflexivity; exfalso; apply Hother in H; auto;
        discriminate.
    + intros [-> _]. exact Hr.
    + intros H.
      assert (Hm : c = AtMain)
        by (destruct c; try reflexivity; exfalso; apply Hother in H; auto;
            discriminate).
      subst c. now split.
  - apply String.eqb_neq in EQ. split; [ split | ].
    + intros H. exfalso.
      destruct c; try (apply Hother in H; auto; discriminate);
        try (now apply Hmain).
    + intros [_ Hq]. contradiction.
    + intros H. exfalso.
      destruct c; try (apply Hother in H; auto; discriminate);
        try (now apply Hmain).
Qed.

Lemma exits_only_on_quit_witness :
  strings_ToUpper (strings_TrimSpace " q") = "Q"
  /\ result (step AtMain " q" noon (mkWorld sixTasks emptyDisk)) = Exited
  /\ output (step AtMain " q" noon (mkWorld sixTasks emptyDisk))
     = goodByeScreens.
Proof.
  assert (Hc : AtMain <> Exited) by discriminate.
  assert (Hq : strings_ToUpper (strings_TrimSpace " q") = "Q") by reflexivity.
  destruct (exits_only_on_quit AtMain " q" noon (mkWorld sixTasks emptyDisk) Hc)
    as [Hiff Hout].
  assert (H : result (step AtMain " q" noon (mkWorld sixTasks emptyDisk)) = Exited)
    by (apply Hiff; split; [ reflexivity | exact Hq ]).
  split; [ exact Hq | ]. split; [ exact H | ].
  exact (proj2 (Hout H)).
Defined.

(** ** The error of [saveTask] *)

Lemma saveTask_output_valid (w : World) :
  forallb validTask (TasksSlice w) = true -> output (saveTask w) = [].
Proof.
  intros Hv. destruct (Unmarshal_MarshalIndent (TasksSlice w) Hv) as (data & Hm & _).
  unfold saveTask, output. rewrite Hm.
  destruct (os_WriteFile (disk w) tasksFileName data). reflexivity.
Qed.

Lemma addedText_not_saveError (task : Task) : Print (addedText task) <> saveError.
Proof. unfold addedText, saveError, Yellow, Red, esc. cbn [append]. discriminate. Qed.

(** X19: a create on a slice of valid tasks, with a valid clock reading and
    fields in UTF-8, never prints "Error saving tasks!". *)
Theorem valid_create_saves_without_error
    (titleLine assignedLine dueLine : string) (now : Time) (w : World) :
  forallb validTask (TasksSlice w) = true ->
  validTime now = true ->
  validUTF8 (readField titleLine) = true ->
  validUTF8 (readField assignedLine) = true ->
  len (TasksSlice w) + 1 <= MaxInt64 ->
  ~ In saveError (output (create titleLine assignedLine dueLine now w)).
Proof.
  intros Hv Hn Ht Ha Hl.
  destruct (time_Parse (strings_TrimSpace dueLine)) as [ dueDate | ] eqn:Hp.
  - destruct (create_parsed titleLine assignedLine dueLine now w dueDate Hp)
      as [Hr _].
    pose proof (create_valid_task _ _ _ _ _ _ Hr Hn Ht Ha Hl) as Hnew.
    unfold create. rewrite (addTask_submit_output _ _ _ _ _ dueDate Hp).
    rewrite saveTask_output_valid.
    + cbn [app]. intros [ H | [ H | [] ] ]; [ discriminate H | ].
      now apply addedText_not_saveError in H.
    + cbn [TasksSlice]. rewrite forallb_app, Hv. cbn [forallb].
      unfold madeTask in Hnew. now rewrite Hnew.
  - unfold create, addTask_submit. rewrite Hp. intros H.
    repeat (destruct H as [ H | H ]; [ discriminate H | ]). exact H.
Qed.

Lemma valid_create_saves_without_error_witness :
  forallb validTask sixTasks = true
  /\ ~ In saveError
        (output (create "buy milk" "bob" "Dec 25, 2024" noon
                   (mkWorld sixTasks emptyDisk))).
Proof.
  assert (Hv : forallb validTask sixTasks = true) by (vm_compute; reflexivity).
  split; [ exact Hv | ].
  apply valid_create_saves_without_error;
    try (vm_compute; reflexivity).
  vm_compute. discriminate.
Defined.

(** ** The loops of [addTask] *)

Lemma next_AtAddAgain_other (i : Input) (w : World) :
  strings_ToUpper (strings_TrimSpace (line i)) <> "Y" ->
  strings_ToUpper (strings_TrimSpace (line i)) <> "N" ->
  next (mkConfig AtAddAgain w) i = (mkConfig AtAddAgain w, respondYesNo).
Proof.
  intros Hy Hn. apply String.eqb_neq in Hy, Hn.
  unfold next. cbn [ctrl world]. unfold step. rewrite Hy, Hn. reflexivity.
Qed.

Lemma next_AtAddAgain_N (i : Input) (w : World) :
  strings_ToUpper (strings_TrimSpace (line i)) = "N" ->
  next (mkConfig AtAddAgain w) i
  = (mkConfig AtMain w, (clearEvent :: output (showMenu w))%list).
Proof.
  intros Hn. unfold next. cbn [ctrl world]. unfold step. rewrite Hn.
  cbn [String.eqb Ascii.eqb Bool.eqb]. autorewrite with go.
  rewrite showMenu_world, List.app_nil_r. reflexivity.
Qed.

(** X20: the question "add another task" is asked again, after the line
    "Respond with Y or N only!", for every answer that is neither Y nor N,
    however many there are; the answer N then clears the screen and shows
    the main menu, and the tasks and the disk are as they were. *)
Theorem add_again_asks_until_answered (answers : list Input) (final : Input)
    (w : World) :
  Forall (fun i => strings_ToUpper (strings_TrimSpace (line i)) <> "Y"
                   /\ strings_ToUpper (strings_TrimSpace (line i)) <> "N")
         answers ->
  strings_ToUpper (strings_TrimSpace (line final)) = "N" ->
  run (mkConfig AtAddAgain w) (answers ++ [final])
  = (mkConfig AtMain w,
     (List.concat (map (fun _ => respondYesNo) answers)
      ++ clearEvent :: output (showMenu w))%list).
Proof.
  intros Ha Hn. induction Ha as [ | i answers [Hy Hno] _ IH ].
  - cbn [app run map List.concat]. rewrite (next_AtAddAgain_N final w Hn).
    now rewrite List.app_nil_r.
  - cbn [app run map List.concat]. rewrite (next_AtAddAgain_other i w Hy Hno), IH.
    now rewrite List.app_assoc.
Qed.

Lemma add_again_asks_until_answered_witness :
  strings_ToUpper (strings_TrimSpace (line (mkInput " n " noon))) = "N"
  /\ fst (run (mkConfig AtAddAgain (mkWorld sixTasks emptyDisk))
            (map (fun l => mkInput l noon) ["maybe"; ""; "yes"; " n "]))
     = mkConfig AtMain (mkWorld sixTasks emptyDisk).
Proof.
  assert (Ha : Forall (fun i => strings_ToUpper (strings_TrimSpace (line i)) <> "Y"
                                /\ strings_ToUpper (strings_TrimSpace (line i)) <> "N")
                 (map (fun l => mkInput l noon) ["maybe"; ""; "yes"]))
    by (repeat constructor; discriminate).
  assert (Hn : strings_ToUpper (strings_TrimSpace (line (mkInput " n " noon))) = "N")
    by reflexivity.
  split; [ exact Hn | ].
  change (map (fun l => mkInput l noon) ["maybe"; ""; "yes"; " n "])
    with (map (fun l => mkInput l noon) ["maybe"; ""; "yes"]
          ++ [mkInput " n " noon])%list.
  rewrite (add_again_asks_until_answered _ _ (mkWorld sixTasks emptyDisk) Ha Hn).
  reflexivity.
Defined.

(** X23: after a due date that [time.Parse] refuses, [addTask] asks for the
    title again, and one task is stored in the end, with the date typed
    after the refusal; where the title line and the assignee line typed
    after the refusal are, trimmed, ASCII text, the task has these in
    upper case, not the ones typed before the refusal. *)
Theorem rejected_date_restarts_form
    (title1 assigned1 badDate title2 assigned2 dueLine : string)
    (t1 t2 t3 t4 t5 t6 : Time) (w : World) (dueDate : Time) :
  time_Parse (strings_TrimSpace badDate) = None ->
  time_Parse (strings_TrimSpace dueLine) = Some dueDate ->
  let cf := fst (run (mkConfig AtAddTitle w)
                   [mkInput title1 t1; mkInput assigned1 t2;
                    mkInput badDate t3; mkInput title2 t4;
                    mkInput assigned2 t5; mkInput dueLine t6]) in
  ctrl cf = AtAddAgain
  /\ exists task,
       TasksSlice (world cf) = (TasksSlice w ++ [task])%list
       /\ ID task = len (TasksSlice w) + 1
       /\ DueDate task = dueDate
       /\ TimeCreated task = t6
       /\ (asciiOnly (strings_TrimSpace title2) = true ->
           Title task = strings_ToUpper (strings_TrimSpace title2))
       /\ (asciiOnly (strings_TrimSpace assigned2) = true ->
           AssignedTo task = strings_ToUpper (strings_TrimSpace assigned2)).
Proof.
  intros Hbad Hp cf.
  assert (Htitle : forall l t,
             fst (next (mkConfig AtAddTitle w) (mkInput l t))
             = mkConfig (AtAddAssigned (readField l)) w) by reflexivity.
  assert (Hassigned : forall a l t,
             fst (next (mkConfig (AtAddAssigned a) w) (mkInput l t))
             = mkConfig (AtAddDue a (readField l)) w) by reflexivity.
  assert (H3 : fst (next (mkConfig (AtAddDue (readField title1)
                                             (readField assigned1)) w)
                         (mkInput badDate t3))
               = mkConfig AtAddTitle w).
  { unfold next. cbn [ctrl world line now fst]. unfold step, addTask_submit.
    rewrite Hbad. reflexivity. }
  destruct (create_parsed title2 assigned2 dueLine t6 w dueDate Hp) as [Hr Hts].
  assert (H6 : cf = mkConfig AtAddAgain
                      (world_of (create title2 assigned2 dueLine t6 w))).
  { unfold cf.
    rewrite !fst_run_cons, Htitle, Hassigned, H3, Htitle, Hassigned.
    cbn [run fst]. unfold next. cbn [ctrl world line now fst]. unfold step.
    autorewrite with go.
    change (addTask_submit (readField title2) (readField assigned2) dueLine t6 w)
      with (create title2 assigned2 dueLine t6 w).
    rewrite Hr. reflexivity. }
  rewrite H6. cbn [ctrl world]. split; [ reflexivity | ].
  exists (madeTask title2 assigned2 t6 w dueDate).
  split; [ exact Hts | ]. repeat split.
Qed.

Lemma rejected_date_restarts_form_witness :
  let cf := fst (run (mkConfig AtAddTitle (initialWorld emptyDisk))
                   (map (fun l => mkInput l noon)
                      ["by milk"; "bob"; "25/12/2024";
                       "buy milk"; "bob"; "Dec 25, 2024"])) in
  time_Parse (strings_TrimSpace "25/12/2024") = None
  /\ time_Parse (strings_TrimSpace "Dec 25, 2024") = Some christmas
  /\ exists task,
       TasksSlice (world cf) = [task] /\ Title task = "BUY MILK".
Proof.
  intros cf.
  assert (Hbad : time_Parse (strings_TrimSpace "25/12/2024") = None)
    by reflexivity.
  assert (Hp : time_Parse (strings_TrimSpace "Dec 25, 2024") = Some christmas)
    by reflexivity.
  destruct (rejected_date_restarts_form "by milk" "bob" "25/12/2024"
              "buy milk" "bob" "Dec 25, 2024" noon noon noon noon noon noon
              (initialWorld emptyDisk) christmas Hbad Hp)
    as (_ & task & H1 & _ & _ & _ & H5 & _).
  split; [ exact Hbad | ]. split; [ exact Hp | ].
  exists task. split; [ exact H1 | exact (H5 eq_refl) ].
Defined.

(** ** The empty slice on the screen *)

(** No event of a list that is known is the event looked for. *)
Ltac not_in H :=
  repeat (destruct H as [ H | H ]; [ discriminate H | ]); exact H.

Lemma menuLine_not_noTasksYet (t : Task) : Print (menuLine t) <> noTasksYet.
Proof. unfold menuLine, noTasksYet, Yellow, Red, esc. cbn [append]. discriminate. Qed.

Lemma taskLine_not_noTasksYet (t : Task) : Print (taskLine t) <> noTasksYet.
Proof. unfold taskLine, noTasksYet, Yellow, Red, esc. cbn [append]. discriminate. Qed.

Lemma len_pos_false (ts : list Task) : (0 <? len ts) = false <-> ts = [].
Proof.
  rewrite Z.ltb_ge, <- len_zero_nil. pose proof (len_nonneg ts). lia.
Qed.

(** X21: the main menu and the list of all tasks print "No Tasks Yet!"
    exactly when the slice is empty. *)
Theorem no_tasks_yet_iff_empty (w : World) :
  (In noTasksYet (output (showMenu w)) <-> TasksSlice w = [])
  /\ (In noTasksYet (output (showAllTask w)) <-> TasksSlice w = []).
Proof.
  rewrite <- len_pos_false. split.
  - rewrite showMenu_output. unfold menuOptions. autorewrite with go.
    destruct (0 <? len (TasksSlice w)).
    + split; [ intros H; exfalso | discriminate ].
      destruct H as [ H | H ]; [ discriminate H | ].
      apply in_app_or in H. destruct H as [ H | H ].
      * apply showMenu_loop_lines in H. destruct H as [t0 H].
        symmetry in H. now apply menuLine_not_noTasksYet in H.
      * not_in H.
    + split; [ reflexivity | intros _ ]. right. left. reflexivity.
  - unfold showAllTask. autorewrite with go.
    destruct (0 <? len (TasksSlice w)); autorewrite with go.
    + split; [ intros H; exfalso | discriminate ].
      rewrite forEach_print in H.
      destruct H as [ H | H ]; [ discriminate H | ].
      cbn [app] in H.
      apply in_app_or in H. destruct H as [ H | H ]; [ | not_in H ].
      cbn [output snd] in H. apply in_map_iff in H.
      destruct H as (t0 & H & _). now apply taskLine_not_noTasksYet in H.
    + split; [ reflexivity | intros _ ]. right. left. reflexivity.
Qed.

(** ** The fields as they are read *)

Lemma isSpace_upperByte (c : ascii) : isSpace (upperByte c) = isSpace c.
Proof. destruct c as [[|] [|] [|] [|] [|] [|] [|] [|]]; reflexivity. Qed.

Lemma upperByte_idem (c : ascii) : upperByte (upperByte c) = upperByte c.
Proof. destruct c as [[|] [|] [|] [|] [|] [|] [|] [|]]; reflexivity. Qed.

Lemma ToUpper_idem (s : string) :
  strings_ToUpper (strings_ToUpper s) = strings_ToUpper s.
Proof.
  induction s as [ | c s IH ]; [ reflexivity | ].
  cbn [strings_ToUpper]. now rewrite upperByte_idem, IH.
Qed.

Lemma isByte_upperByte (k : Z) (c : ascii) :
  128 <= k -> isByte k (upperByte c) = isByte k c.
Proof.
  intros Hk. unfold isByte, upperByte. destruct (isLower c) eqn:E;
    [ | reflexivity ].
  unfold isLower in E. apply andb_prop in E. destruct E as [E1 E2].
  apply Z.leb_le in E1, E2.
  assert (Hb : byte_of (char_of (byte_of c - 32)) = byte_of c - 32).
  { unfold byte_of at 1, char_of. rewrite N_ascii_embedding.
    - lia.
    - apply N2Z.inj_lt. rewrite Z2N.id by lia. cbn. lia. }
  rewrite Hb. transitivity false; [ | symmetry ]; apply Z.eqb_neq; lia.
Qed.

Lemma inRange_upperByte (lo hi : Z) (c : ascii) :
  128 <= lo -> inRange lo hi (upperByte c) = inRange lo hi c.
Proof.
  intros Hk. unfold inRange, upperByte. destruct (isLower c) eqn:E;
    [ | reflexivity ].
  unfold isLower in E. apply andb_prop in E. destruct E as [E1 E2].
  apply Z.leb_le in E1, E2.
  assert (Hb : byte_of (char_of (byte_of c - 32)) = byte_of c - 32).
  { unfold byte_of at 1, char_of. rewrite N_ascii_embedding.
    - lia.
    - apply N2Z.inj_lt. rewrite Z2N.id by lia. cbn. lia. }
  rewrite Hb.
  transitivity false; [ | symmetry ]; apply andb_false_intro1, Z.leb_gt; lia.
Qed.

Lemma isSpace2_upperByte (c0 c1 : ascii) :
  isSpace2 (upperByte c0) (upperByte c1) = isSpace2 c0 c1.
Proof. unfold isSpace2. now rewrite !isByte_upperByte by lia. Qed.

Lemma isSpace3_upperByte (c0 c1 c2 : ascii) :
  isSpace3 (upperByte c0) (upperByte c1) (upperByte c2) = isSpace3 c0 c1 c2.
Proof.
  unfold isSpace3. now rewrite !isByte_upperByte, inRange_upperByte by lia.
Qed.

Lemma leadingSpace_ToUpper (s : string) :
  leadingSpace (strings_ToUpper s) = leadingSpace s.
Proof.
  destruct s as [ | c0 [ | c1 [ | c2 r ] ] ];
    cbn [strings_ToUpper leadingSpace];
    now rewrite ?isSpace_upperByte, ?isSpace2_upperByte, ?isSpace3_upperByte.
Qed.

Lemma trailingSpace_ToUpper (s : string) :
  trailingSpace (strings_ToUpper s) = trailingSpace s.
Proof.
  destruct s as [ | c0 [ | c1 [ | c2 r ] ] ];
    cbn [strings_ToUpper trailingSpace];
    now rewrite ?isSpace_upperByte, ?isSpace2_upperByte, ?isSpace3_upperByte.
Qed.

Lemma length_ToUpper (s : string) :
  String.length (strings_ToUpper s) = String.length s.
Proof. induction s as [ | c s IH ]; cbn; congruence. Qed.

Lemma drop_ToUpper (n : nat) (s : string) :
  drop n (strings_ToUpper s) = strings_ToUpper (drop n s).
Proof. revert s. induction n as [ | n IH ]; intros [ | c r ]; cbn; auto. Qed.

Lemma append_ToUpper (a b : string) :
  strings_ToUpper (a ++ b) = strings_ToUpper a ++ strings_ToUpper b.
Proof. induction a as [ | c a IH ]; cbn; congruence. Qed.

Lemma reverse_ToUpper (s : string) :
  reverse (strings_ToUpper s) = strings_ToUpper (reverse s).
Proof.
  induction s as [ | c s IH ]; [ reflexivity | ].
  cbn [strings_ToUpper]. now rewrite !reverse_cons, IH, append_ToUpper.
Qed.

Lemma trim_ToUpper (width : string -> nat) (s : string) :
  (forall r, width (strings_ToUpper r) = width r) ->
  trim width (strings_ToUpper s) = strings_ToUpper (trim width s).
Proof.
  intros Hw. unfold trim. rewrite length_ToUpper.
  generalize (String.length s) as fuel. intros fuel. revert s.
  induction fuel as [ | fuel IH ]; intros s; [ reflexivity | ].
  cbn [trim_loop]. rewrite Hw. destruct (width s); [ reflexivity | ].
  now rewrite drop_ToUpper, IH.
Qed.

Lemma TrimSpace_ToUpper (s : string) :
  strings_TrimSpace (strings_ToUpper s) = strings_ToUpper (strings_TrimSpace s).
Proof.
  unfold strings_TrimSpace, trimLeft, trimRight.
  rewrite (trim_ToUpper leadingSpace) by apply leadingSpace_ToUpper.
  rewrite reverse_ToUpper.
  rewrite (trim_ToUpper trailingSpace) by apply trailingSpace_ToUpper.
  apply reverse_ToUpper.
Qed.

(** What [trimRight] leaves is a start of the text. *)
Lemma trimRight_prefix (s : string) : exists q, s = trimRight s ++ q.
Proof.
  unfold trimRight.
  destruct (trim_suffix trailingSpace trailingSpace_le (reverse s)) as [p Hp].
  exists (reverse p).
  rewrite <- reverse_append, <- Hp. symmetry. apply reverse_involutive.
Qed.

Lemma TrimSpace_idem (s : string) :
  strings_TrimSpace (strings_TrimSpace s) = strings_TrimSpace s.
Proof.
  unfold strings_TrimSpace.
  assert (Hl : trimLeft (trimRight (trimLeft s)) = trimRight (trimLeft s)).
  { destruct (trimRight_prefix (trimLeft s)) as [q Hq].
    apply trim_zero. apply (leadingSpace_prefix _ q). rewrite <- Hq.
    apply (trim_stops leadingSpace leadingSpace_le). }
  rewrite Hl. unfold trimRight at 1 2.
  rewrite reverse_involutive.
  now rewrite (trim_idem trailingSpace trailingSpace_le).
Qed.

Lemma readField_idem (l : string) : readField (readField l) = readField l.
Proof.
  unfold readField.
  now rewrite TrimSpace_ToUpper, ToUpper_idem, TrimSpace_idem.
Qed.

(** X22: a title and an assignee as the program has stored them, typed
    again, are stored as they are: trimming and upper case change a field
    once only. *)
Theorem stored_fields_are_kept_when_retyped
    (titleLine assignedLine dueLine : string) (now : Time) (w : World)
    (task : Task) (dueLine' : string) (now' : Time) (w' : World) (task' : Task) :
  result (create titleLine assignedLine dueLine now w) = Added task ->
  result (create (Title task) (AssignedTo task) dueLine' now' w') = Added task' ->
  Title task' = Title task /\ AssignedTo task' = AssignedTo task.
Proof.
  intros H H'.
  destruct (create_result_inv _ _ _ _ _ _ H) as (dueDate & _ & ->).
  destruct (create_result_inv _ _ _ _ _ _ H') as (dueDate' & _ & ->).
  unfold madeTask. cbn [Title AssignedTo].
  split; apply readField_idem.
Qed.

Lemma stored_fields_are_kept_when_retyped_witness :
  let w := initialWorld emptyDisk in
  let task := mkTask 1 "BUY MILK" "BOB" false christmas noon in
  result (create "  buy milk " " bob" "Dec 25, 2024" noon w) = Added task
  /\ result (create (Title task) (AssignedTo task) "Dec 25, 2024" noon w)
     = Added task
  /\ Title task = "BUY MILK".
Proof.
  intros w task.
  assert (H : result (create "  buy milk " " bob" "Dec 25, 2024" noon w)
              = Added task) by reflexivity.
  assert (H' : result (create (Title task) (AssignedTo task) "Dec 25, 2024" noon w)
               = Added task) by reflexivity.
  split; [ exact H | ]. split; [ exact H' | ].
  assert (E := proj1 (stored_fields_are_kept_when_retyped _ _ _ _ _ _ _ _ _ _
                        H H')).
  exact E.
Defined.

(** ** The messages and what has happened *)

Lemma step_AtAddDue_output (taskTitle taskAssigned l : string) (t : Time)
    (w : World) :
  output (step (AtAddDue taskTitle taskAssigned) l t w)
  = match time_Parse (strings_TrimSpace l) with
    | Some dueDate =>
        (output (addTask_submit taskTitle taskAssigned l t w)
         ++ [Print (Blue ++ nl ++ "Do you want to add another task? (Y/N): "
                    ++ Reset)])%list
    | None =>
        [Print (Red ++ "Wrong format! Try again." ++ nl); Sleep 700;
         Print (esc ++ "[H" ++ esc ++ "[2J");
         Print (Yellow ++ nl ++ "---Task Manager / Add a Task---" ++ nl ++ nl);
         Print (Blue ++ "Add your Task Title: ")]
    end.
Proof.
  unfold step. rewrite output_bind. unfold addTask_submit.
  destruct (time_Parse (strings_TrimSpace l)); reflexivity.
Qed.

(** X24: the step that reads the due date prints "Task added
    successfully!" exactly when it has made the slice one task longer. *)
Theorem added_message_iff_appended (taskTitle taskAssigned l : string)
    (t : Time) (w : World) :
  let r := step (AtAddDue taskTitle taskAssigned) l t w in
  In addedMessage (output r)
  <-> List.length (TasksSlice (world_of r)) = S (List.length (TasksSlice w)).
Proof.
  cbv zeta. rewrite step_AtAddDue_output.
  assert (Hk : forall r w',
             world_of (match r with
                       | Added _ => addTask_askAgain ;; ret AtAddAgain
                       | BadDate => addTask_prompt ;; ret AtAddTitle
                       end%go w') = w')
    by (intros [ ? | ] w'; reflexivity).
  unfold step. rewrite world_bind, Hk, addTask_submit_world.
  destruct (time_Parse (strings_TrimSpace l)) as [ dueDate | ] eqn:Hp.
  - rewrite saveTask_tasks. cbn [TasksSlice]. rewrite length_app.
    cbn [List.length]. split; [ intros _; lia | intros _ ].
    rewrite (addTask_submit_output _ _ _ _ _ dueDate Hp).
    apply in_or_app. left. apply in_or_app. right. left. reflexivity.
  - split; [ intros H; exfalso; not_in H | intros H; lia ].
Qed.

Lemma menuLine_not_deletedMessage (t : Task) : Print (menuLine t) <> deletedMessage.
Proof.
  unfold menuLine, deletedMessage, Yellow, Green, esc. cbn [append]. discriminate.
Qed.

Lemma taskLine_not_deletedMessage (t : Task) : Print (taskLine t) <> deletedMessage.
Proof.
  unfold taskLine, deletedMessage, Yellow, Green, esc. cbn [append]. discriminate.
Qed.

Lemma showMenu_no_deletedMessage (w : World) :
  ~ In deletedMessage (output (showMenu w)).
Proof.
  rewrite showMenu_output. unfold menuOptions. autorewrite with go.
  intros H. destruct H as [ H | H ]; [ discriminate H | ].
  apply in_app_or in H. destruct H as [ H | H ].
  - destruct (0 <? len (TasksSlice w)).
    + apply showMenu_loop_lines in H. destruct H as [t0 H].
      symmetry in H. now apply menuLine_not_deletedMessage in H.
    + not_in H.
  - destruct (0 <? len (TasksSlice w)); not_in H.
Qed.

Lemma deleteScreen_no_deletedMessage (ts : list Task) :
  ~ In deletedMessage (deleteScreen ts).
Proof.
  unfold deleteScreen. intros H.
  destruct H as [ H | H ]; [ discriminate H | ].
  destruct H as [ H | H ]; [ discriminate H | ].
  apply in_app_or in H. destruct H as [ H | H ]; [ | not_in H ].
  apply in_map_iff in H. destruct H as (t0 & H & _).
  now apply taskLine_not_deletedMessage in H.
Qed.

Lemma saveTask_no_deletedMessage (w : World) :
  ~ In deletedMessage (output (saveTask w)).
Proof.
  unfold saveTask, output.
  destruct (json_MarshalIndent (TasksSlice w)).
  - destruct (os_WriteFile (disk w) tasksFileName s). intros [].
  - intros H. not_in H.
Qed.

(** What a step from the prompt of [deleteTask] prints, by what was
    typed. *)
Lemma step_AtDelete_output (l : string) (t : Time) (w : World) :
  let input := strings_TrimSpace l in
  output (step AtDelete l t w)
  = if String.eqb (strings_ToUpper input) "Q" then output (showMenu w)
    else match strconv_Atoi input with
         | None => (invalidNumber ++ deleteScreen (TasksSlice w))%list
         | Some id =>
             let w1 := world_of (deleteById id w) in
             (output (deleteById id w)
              ++ (if findIndex id (TasksSlice w) =? -1
                  then deleteScreen (TasksSlice w1)
                  else if len (TasksSlice w1) =? 0 then output (showMenu w1)
                       else deleteScreen (TasksSlice w1)))%list
         end.
Proof.
  cbv zeta. unfold step.
  destruct (String.eqb (strings_ToUpper (strings_TrimSpace l)) "Q").
  { autorewrite with go. now rewrite List.app_nil_r. }
  destruct (strconv_Atoi (strings_TrimSpace l)) as [ id | ].
  2:{ autorewrite with go.
      now rewrite deleteTask_show_output, List.app_nil_r. }
  rewrite output_bind, deleteById_result. f_equal.
  destruct (findIndex id (TasksSlice w) =? -1).
  - autorewrite with go. now rewrite deleteTask_show_output, List.app_nil_r.
  - autorewrite with go.
    destruct (len (TasksSlice (world_of (deleteById id w))) =? 0);
      autorewrite with go;
      now rewrite ?deleteTask_show_output, List.app_nil_r.
Qed.

(** X25: the step that reads the ID to delete prints "Task deleted!"
    exactly when it has made the slice one task shorter. *)
Theorem deleted_message_iff_removed (l : string) (t : Time) (w : World) :
  let r := step AtDelete l t w in
  In deletedMessage (output r)
  <-> S (List.length (TasksSlice (world_of r))) = List.length (TasksSlice w).
Proof.
  cbv zeta. rewrite step_AtDelete_output. cbv zeta.
  destruct (String.eqb (strings_ToUpper (strings_TrimSpace l)) "Q") eqn:Hq.
  { assert (Hw : world_of (step AtDelete l t w) = w)
      by (unfold step; rewrite Hq; autorewrite with go; apply showMenu_world).
    rewrite Hw. split; [ intros H | intros H; lia ].
    now apply showMenu_no_deletedMessage in H. }
  destruct (strconv_Atoi (strings_TrimSpace l)) as [ id | ] eqn:Ha.
  2:{ assert (Hw : world_of (step AtDelete l t w) = w)
        by (unfold step; rewrite Hq, Ha; autorewrite with go;
            apply deleteTask_show_world).
      rewrite Hw. split; [ intros H; exfalso | intros H; lia ].
      destruct H as [ H | [ H | H ] ]; try discriminate H.
      now apply deleteScreen_no_deletedMessage in H. }
  rewrite (step_AtDelete_number l t w id Hq Ha).
  destruct (in_dec Z.eq_dec id (ids (TasksSlice w))) as [ Hin | Hn ].
  - destruct (deleteById_present id w Hin)
      as (l1 & task & l2 & Hw & _ & _ & Hr & Hts).
    rewrite Hts, Hw, !length_app. cbn [List.length].
    split; [ intros _; lia | intros _ ].
    apply in_or_app. left.
    rewrite deleteById_result in Hr.
    unfold deleteById. autorewrite with go.
    destruct (findIndex id (TasksSlice w) =? -1); [ discriminate Hr | ].
    autorewrite with go. cbn [output setTasks snd app].
    apply in_or_app. right. left. reflexivity.
  - rewrite (deleteById_absent id w Hn). cbn [world_of output fst snd].
    unfold findIndex. rewrite (findIndex_from_absent id (TasksSlice w) 0 Hn).
    cbn [Z.eqb]. split; [ intros H; exfalso | intros H; lia ].
    destruct H as [ H | [ H | H ] ]; try discriminate H.
    now apply deleteScreen_no_deletedMessage in H.
Qed.

(** ** Lines that are no command *)

Lemma next_AtMain_wrong (i : Input) (w : World) :
  wrongKey w i ->
  next (mkConfig AtMain w) i
  = (mkConfig AtMain w, (wrongInputScreens ++ output (showMenu w))%list).
Proof.
  intros (Ha & Hv & Hq & Hd). apply String.eqb_neq in Ha, Hv, Hq.
  unfold next. cbn [ctrl world]. unfold step. rewrite Ha, Hv, Hq.
  destruct (String.eqb (strings_ToUpper (strings_TrimSpace (line i))) "D") eqn:Ed.
  - apply String.eqb_eq in Ed. pose proof (Hd Ed) as He.
    autorewrite with go. rewrite He.
    cbn [len List.length Z.of_nat Z.ltb Z.compare].
    autorewrite with go. now rewrite showMenu_world, List.app_nil_r.
  - autorewrite with go. now rewrite showMenu_world, List.app_nil_r.
Qed.

(** X26: lines that are none of the commands of the main menu, however
    many, are each answered with the three "Wrong Input" screens and the
    menu; the program stays at the main menu and the tasks and the disk
    are as they were.  The command D is such a line when there is no
    task. *)
Theorem wrong_keys_keep_main_menu (inputs : list Input) (w : World) :
  Forall (wrongKey w) inputs ->
  run (mkConfig AtMain w) inputs
  = (mkConfig AtMain w,
     List.concat (map (fun _ => wrongInputScreens ++ output (showMenu w))%list
                      inputs)).
Proof.
  induction 1 as [ | i inputs Hi _ IH ]; [ reflexivity | ].
  cbn [run map List.concat]. rewrite (next_AtMain_wrong i w Hi), IH.
  reflexivity.
Qed.

Lemma wrong_keys_keep_main_menu_witness :
  Forall (wrongKey (initialWorld emptyDisk))
    (map (fun l => mkInput l noon) ["x"; ""; "d"; "add"])
  /\ fst (run (mkConfig AtMain (initialWorld emptyDisk))
            (map (fun l => mkInput l noon) ["x"; ""; "d"; "add"]))
     = mkConfig AtMain (initialWorld emptyDisk).
Proof.
  assert (H : Forall (wrongKey (initialWorld emptyDisk))
                (map (fun l => mkInput l noon) ["x"; ""; "d"; "add"]))
    by (repeat constructor; try discriminate).
  split; [ exact H | ].
  rewrite (wrong_keys_keep_main_menu _ _ H). reflexivity.
Defined.

Lemma next_AtDelete_notNumber (i : Input) (w : World) :
  notNumber i ->
  next (mkConfig AtDelete w) i
  = (mkConfig AtDelete w, (invalidNumber ++ deleteScreen (TasksSlice w))%list).
Proof.
  intros [Hq Ha]. apply String.eqb_neq in Hq.
  unfold next. cbn [ctrl world].
  pose proof (step_AtDelete_output (line i) (now i) w) as Ho.
  cbv zeta in Ho. rewrite Hq, Ha in Ho. rewrite Ho.
  unfold step. rewrite Hq, Ha. autorewrite with go.
  now rewrite deleteTask_show_world.
Qed.

(** X27: lines at the prompt of [deleteTask] that are neither Q nor a
    number of 64 bits, however many, are each answered with "Invalid!
    Enter a number.", a second of sleep and the list of the tasks again;
    the program stays at the prompt and the tasks and the disk are as they
    were. *)
Theorem non_numbers_keep_delete_prompt (inputs : list Input) (w : World) :
  Forall notNumber inputs ->
  run (mkConfig AtDelete w) inputs
  = (mkConfig AtDelete w,
     List.concat (map (fun _ => invalidNumber ++ deleteScreen (TasksSlice w))%list
                      inputs)).
Proof.
  induction 1 as [ | i inputs Hi _ IH ]; [ reflexivity | ].
  cbn [run map List.concat]. rewrite (next_AtDelete_notNumber i w Hi), IH.
  reflexivity.
Qed.

Lemma non_numbers_keep_delete_prompt_witness :
  fst (run (mkConfig AtDelete (mkWorld sixTasks emptyDisk))
         (map (fun l => mkInput l noon)
            [""; "two"; "1.5"; "2 3"; "99999999999999999999"]))
  = mkConfig AtDelete (mkWorld sixTasks emptyDisk).
Proof.
  assert (H : Forall notNumber
                (map (fun l => mkInput l noon)
                   [""; "two"; "1.5"; "2 3"; "99999999999999999999"]))
    by (repeat constructor; try discriminate).
  rewrite (non_numbers_keep_delete_prompt _ (mkWorld sixTasks emptyDisk) H).
  reflexivity.
Defined.

(** ** Lines with white space beyond ASCII *)

(** The no-break space U+00A0 around a command, a number or a date is
    white space to [strings.TrimSpace]: the program takes such lines as it
    takes the lines without it. *)
Example no_break_space_is_trimmed :
  let nbsp := utf8_EncodeRune 160 in
  let w := mkWorld sixTasks emptyDisk in
  result (step AtMain (nbsp ++ "q" ++ nl) noon w) = Exited
  /\ ids (TasksSlice (world_of (step AtDelete (nbsp ++ "2" ++ nl) noon w)))
     = [1; 3; 4; 5; 6]
  /\ result (step AtAddAgain (nbsp ++ "n" ++ nl) noon w) = AtMain
  /\ time_Parse (strings_TrimSpace ("Dec 25, 2024" ++ nbsp ++ nl))
     = Some christmas
  /\ Forall (fun r => strings_TrimSpace
                        (utf8_EncodeRune r ++ "x" ++ utf8_EncodeRune r) = "x")
            whiteSpace.
Proof.
  intros nbsp w.
  split; [ vm_compute; reflexivity | ].
  split; [ vm_compute; reflexivity | ].
  split; [ vm_compute; reflexivity | ].
  split; [ vm_compute; reflexivity | ].
  unfold whiteSpace. repeat constructor.
Qed.
